(** * Gavel applicant review: the judge controller

    A shallow embedding of [gavel/controllers/judge.py] together with the
    parts of [gavel/models/annotator.py] and [gavel/models/applicant.py]
    that the controller reads and writes, and of the tallies, the flag
    transactions and the detail pages of [gavel/controllers/admin.py].

    Modelling decisions.
    - The SQLAlchemy session is an explicit value [DB] holding the three
      tables the controller touches.  An ORM object is its row: a write to
      [annotator.prev] or [winner.mu] is an update of the row with that
      primary key, and two names for one object (for instance
      [annotator.next] and an element of the candidate list) are two uses
      of one id.
    - [next_id] and [prev_id] are foreign keys to [applicant.id]; a
      relationship such as [annotator.next] is [None] when the column is
      NULL, and [annotator.next.id] is the value of the column.  Other
      attribute reads through a relationship ([annotator.prev.mu]) look
      the row up and raise [AttributeError] when there is none.
    - [ignore] and [viewed] are many-to-many relationships: a list of
      ids in the order the rows were written.  Appending an object that
      is already in the collection writes no row, so the committed list
      is unchanged ([rel_append]).  After an append the transaction
      reads [ignore] only for membership and does not read the [viewed]
      of that item again.
    - The form fields are taken after [int(...)]: a form that does not
      parse never reaches the code modelled here.
    - [with_retries] only repeats a transaction on a write conflict; the
      transactions are modelled as single runs.
    - Belief values are Python floats.  The controller never computes with
      them: it stores them, hands them to [crowd_bt] and compares scores.
      They are modelled as rationals.
    - [datetime.utcnow()] and the numpy random generator are inputs: every
      transaction receives an [Env] with the clock readings and the draws.
      One reading serves all rows of the busy query.
    - [crowd_bt.update], [crowd_bt.expected_information_gain],
      [crowd_bt.EPSILON], [settings.TIMEOUT] and [settings.MIN_VIEWS] are
      parameters of the development. *)

From Stdlib Require Import ZArith QArith List String Bool Permutation Lia.
Import ListNotations.

Local Open Scope Z_scope.

(** ** Exceptions and outcomes *)

Inductive exn : Type :=
| AttributeError
| UnboundLocalError
| ValueError
| TypeError.

Inductive outcome (A : Type) : Type :=
| Done (a : A)
| Raise (e : exn).

Arguments Done {A} a.
Arguments Raise {A} e.

Definition bind {A B : Type} (m : outcome A) (k : A -> outcome B) : outcome B :=
  match m with
  | Done a => k a
  | Raise e => Raise e
  end.

Notation "x <- m ;; k" := (bind m (fun x => k))
  (at level 61, m at next level, right associativity).

(** ** Rationals as booleans *)

Definition Qltb (x y : Q) : bool := negb (Qle_bool y x).

(** ** Tables *)

Module Applicant.
Record t : Type := mk {
  id : Z;
  active : bool;
  viewed : list Z;       (* rows of applicant_view: annotator ids *)
  prioritized : bool;
  mu : Q;
  sigma_sq : Q
}.

Definition with_viewed (v : list Z) (a : t) : t :=
  mk (id a) (active a) v (prioritized a) (mu a) (sigma_sq a).
Definition with_prioritized (p : bool) (a : t) : t :=
  mk (id a) (active a) (viewed a) p (mu a) (sigma_sq a).
Definition with_mu (m : Q) (a : t) : t :=
  mk (id a) (active a) (viewed a) (prioritized a) m (sigma_sq a).
Definition with_sigma_sq (s : Q) (a : t) : t :=
  mk (id a) (active a) (viewed a) (prioritized a) (mu a) s.
End Applicant.

Module Annotator.
Record t : Type := mk {
  id : Z;
  active : bool;
  next : option Z;       (* next_id *)
  updated : option Z;    (* microseconds since the epoch *)
  prev : option Z;       (* prev_id *)
  ignore : list Z;       (* rows of the ignore table: applicant ids *)
  alpha : Q;
  beta : Q
}.

Definition with_next (n : option Z) (a : t) : t :=
  mk (id a) (active a) n (updated a) (prev a) (ignore a) (alpha a) (beta a).
Definition with_updated (u : option Z) (a : t) : t :=
  mk (id a) (active a) (next a) u (prev a) (ignore a) (alpha a) (beta a).
Definition with_prev (p : option Z) (a : t) : t :=
  mk (id a) (active a) (next a) (updated a) p (ignore a) (alpha a) (beta a).
Definition with_ignore (i : list Z) (a : t) : t :=
  mk (id a) (active a) (next a) (updated a) (prev a) i (alpha a) (beta a).
Definition with_alpha (x : Q) (a : t) : t :=
  mk (id a) (active a) (next a) (updated a) (prev a) (ignore a) x (beta a).
Definition with_beta (x : Q) (a : t) : t :=
  mk (id a) (active a) (next a) (updated a) (prev a) (ignore a) (alpha a) x.
End Annotator.

Module Decision.
Record t : Type := mk {
  annotator : Z;
  winner : Z;
  loser : Z
}.
End Decision.

Record DB : Type := mkDB {
  applicants : list Applicant.t;
  annotators : list Annotator.t;
  decisions : list Decision.t
}.

(** ** Row access by primary key *)

Section Rows.
Context {A : Type} (key : A -> Z).

(* cls.query.get(uid) *)
Definition get_row (k : Z) (rows : list A) : option A :=
  find (fun r => key r =? k) rows.

(* attribute writes on the object with primary key [k] *)
Definition set_row (k : Z) (f : A -> A) (rows : list A) : list A :=
  map (fun r => if key r =? k then f r else r) rows.
End Rows.

Definition applicant_by_id (db : DB) (uid : Z) : option Applicant.t :=
  get_row Applicant.id uid (applicants db).

Definition annotator_by_id (db : DB) (uid : option Z) : option Annotator.t :=
  match uid with
  | None => None
  | Some u => get_row Annotator.id u (annotators db)
  end.

Definition on_applicant (k : Z) (f : Applicant.t -> Applicant.t) (db : DB) : DB :=
  mkDB (set_row Applicant.id k f (applicants db)) (annotators db) (decisions db).

Definition on_annotator (k : Z) (f : Annotator.t -> Annotator.t) (db : DB) : DB :=
  mkDB (applicants db) (set_row Annotator.id k f (annotators db)) (decisions db).

(* db.session.add(decision) *)
Definition add_decision (d : Decision.t) (db : DB) : DB :=
  mkDB (applicants db) (annotators db) (decisions db ++ [d]).

(* a relationship read followed by an attribute read *)
Definition rel (db : DB) (fk : option Z) : outcome Applicant.t :=
  match fk with
  | None => Raise AttributeError
  | Some k =>
      match applicant_by_id db k with
      | None => Raise AttributeError
      | Some a => Done a
      end
  end.

Definition mem (x : Z) (s : list Z) : bool := existsb (Z.eqb x) s.

(* collection.append(x) on a many-to-many relationship, as the commit
   leaves it: the row for [x] is written unless there is one.  Within
   the transaction [ignore] is read again only for membership, and the
   [viewed] of the item appended to is not read again (the item is on
   the ignore list by then) *)
Definition rel_append (x : Z) (l : list Z) : list Z :=
  if mem x l then l else l ++ [x].

Definition nonempty {A : Type} (l : list A) : bool :=
  match l with
  | [] => false
  | _ :: _ => true
  end.

(** ** The environment of one transaction *)

Record Env : Type := mkEnv {
  draws : nat -> nat;    (* the generator's integer draws, in order *)
  uniform : Q;           (* the value of random() *)
  clock_query : Z;       (* utcnow() read in preferred_applicants *)
  clock_assign : Z       (* utcnow() read in update_next *)
}.

(** ** numpy.random.shuffle and numpy.random.choice *)

Section Shuffle.
Context {A : Type}.

Fixpoint set_nth (l : list A) (i : nat) (x : A) : list A :=
  match l, i with
  | [], _ => []
  | _ :: r, O => x :: r
  | y :: r, S i' => y :: set_nth r i' x
  end.

(* x[i], x[j] = x[j], x[i] *)
Definition swap (l : list A) (i j : nat) : list A :=
  match nth_error l i, nth_error l j with
  | Some a, Some b => set_nth (set_nth l i b) j a
  | _, _ => l
  end.

(* for i in reversed(range(1, n)): j = random_interval(i); swap *)
Fixpoint shuffle_from (d : nat -> nat) (k i : nat) (l : list A) : list A :=
  match i with
  | O => l
  | S i' => shuffle_from d (S k) i' (swap l i (Nat.modulo (d k) (S i)))
  end.

Definition shuffle (d : nat -> nat) (l : list A) : list A :=
  shuffle_from d 0 (Nat.pred (List.length l)) l.

(* choice(a): the element at a drawn index *)
Definition choice (d : nat -> nat) (l : list A) : option A :=
  nth_error l (Nat.modulo (d O) (List.length l)).
End Shuffle.

(** ** crowd_bt.argmax *)

(** Modelled from the spec: [crowd_bt.argmax] is not among the sources.
    The spec asks for "the candidate maximizing expectedInformationGain
    against the reference item, breaking ties by shuffled order": the
    earliest element of the list whose score no other element exceeds. *)
Fixpoint argmax_from {A : Type} (f : A -> Q) (best : A) (xs : list A) : A :=
  match xs with
  | [] => best
  | x :: r => if Qltb (f best) (f x) then argmax_from f x r else argmax_from f best r
  end.

Definition argmax {A : Type} (f : A -> Q) (xs : list A) : outcome A :=
  match xs with
  | [] => Raise ValueError
  | x :: r => Done (argmax_from f x r)
  end.

(* [c] is the earliest element of [l] with the largest score *)
Definition earliest_max {A : Type} (f : A -> Q) (l : list A) (c : A) : Prop :=
  exists l1 l2, l = l1 ++ c :: l2
                /\ (forall x, In x l1 -> (f x < f c)%Q)
                /\ (forall x, In x l2 -> (f x <= f c)%Q).

(** ** The controller *)

Record VoteForm : Type := mkVoteForm {
  vf_prev_id : Z;          (* int(request.form['prev_id']) *)
  vf_next_id : Z;          (* int(request.form['next_id']) *)
  vf_action : string       (* request.form['action'] *)
}.

Record BeginForm : Type := mkBeginForm {
  bf_applicant_id : Z;     (* int(applicant_id) *)
  bf_action : string
}.

(* timedelta.total_seconds(), the difference being in microseconds *)
Definition total_seconds (d : Z) : Q := Qmake d 1000000.

(** ** Growth of a list *)

Definition extends {A : Type} (l l' : list A) : Prop :=
  exists t, l' = l ++ t.

(** ** The site around the database

    The pages of [judge.py] also read the setting [closed] and the column
    [read_welcome] of the annotator.  The [Setting] model is not among the
    sources: the stored value of the key is a field of the site.  The
    column is kept as the list of the annotators for which it is true. *)

Definition SETTING_TRUE : string := "true".

Record Site : Type := mkSite {
  site_db : DB;
  setting_closed : option string;   (* Setting.value_of(SETTING_CLOSED) *)
  welcomed : list Z                 (* annotators with read_welcome *)
}.

(* db.session.commit() of a transaction run on the site's database *)
Definition commit (site : Site) (db : DB) : Site :=
  mkSite db (setting_closed site) (welcomed site).

Inductive response : Type :=
| Redirect (endpoint : string)      (* redirect(url_for(endpoint)) *)
| LoggedOut                         (* logged_out.html *)
| ClosedPage                        (* closed.html *)
| DisabledPage                      (* disabled.html *)
| WaitPage                          (* wait.html *)
| BeginPage (item : Z)              (* begin.html, item = annotator.next *)
| VotePage (prev next : Z).         (* vote.html *)

(** ** The tallies of the admin page *)

Section Dict.
Context {V : Type}.

(* d.get(k, default) *)
Fixpoint dict_get (d : list (Z * V)) (k : Z) (default : V) : V :=
  match d with
  | [] => default
  | (k', v) :: r => if k' =? k then v else dict_get r k default
  end.

(* d[k] = v: in place when the key is there, at the end otherwise *)
Fixpoint dict_set (d : list (Z * V)) (k : Z) (v : V) : list (Z * V) :=
  match d with
  | [] => [(k, v)]
  | (k', v') :: r =>
      if k' =? k then (k', v) :: r else (k', v') :: dict_set r k v
  end.

(* k in d *)
Definition dict_has (d : list (Z * V)) (k : Z) : bool :=
  existsb (fun e => fst e =? k) d.
End Dict.

(* the body of the loop over the decisions in admin() *)
Definition admin_count_one (acc : list (Z * nat) * list (Z * nat))
           (d : Decision.t) : list (Z * nat) * list (Z * nat) :=
  let '(counts, applicant_counts) := acc in
  let a := Decision.annotator d in
  let w := Decision.winner d in
  let l := Decision.loser d in
  let counts := dict_set counts a (dict_get counts a 0%nat + 1)%nat in
  let applicant_counts :=
    dict_set applicant_counts w (dict_get applicant_counts w 0%nat + 1)%nat in
  let applicant_counts :=
    dict_set applicant_counts l (dict_get applicant_counts l 0%nat + 1)%nat in
  (counts, applicant_counts).

(* counts and applicant_counts in admin() *)
Definition admin_counts (decisions : list Decision.t)
  : list (Z * nat) * list (Z * nat) :=
  fold_left admin_count_one decisions ([], []).

(* viewed = {a.id: {ann.id for ann in a.viewed} for a in applicants} *)
Definition admin_viewed (rows : list Applicant.t) : list (Z * list Z) :=
  fold_left (fun d a => dict_set d (Applicant.id a) (Applicant.viewed a))
            rows [].

(* the body of the inner loop: one ignored applicant of one annotator *)
Definition admin_skip_one (viewed : list (Z * list Z)) (ann_id : Z)
           (skipped : list (Z * nat)) (a : Z) : list (Z * nat) :=
  if dict_has viewed a && negb (mem ann_id (dict_get viewed a []))
  then dict_set skipped a (dict_get skipped a 0%nat + 1)%nat
  else skipped.

(* the two loops over the annotators and their ignore lists in admin();
   the relationship [ann.ignore] yields an applicant once, however often
   the ignore table names it *)
Definition admin_skipped (viewed : list (Z * list Z))
           (rows : list Annotator.t) : list (Z * nat) :=
  fold_left
    (fun skipped ann =>
       fold_left (admin_skip_one viewed (Annotator.id ann))
                 (nodup Z.eq_dec (Annotator.ignore ann)) skipped)
    rows [].

(** ** The flags set from the admin page *)

Definition applicant_with_active (b : bool) (a : Applicant.t) : Applicant.t :=
  Applicant.mk (Applicant.id a) b (Applicant.viewed a)
               (Applicant.prioritized a) (Applicant.mu a)
               (Applicant.sigma_sq a).

Definition annotator_with_active (b : bool) (a : Annotator.t) : Annotator.t :=
  Annotator.mk (Annotator.id a) b (Annotator.next a) (Annotator.updated a)
               (Annotator.prev a) (Annotator.ignore a) (Annotator.alpha a)
               (Annotator.beta a).

(* Applicant.by_id(applicant_id).prioritized = target_state *)
Definition prioritize_tx (applicant_id : option Z) (target_state : bool)
           (db : DB) : outcome DB :=
  match applicant_id with
  | None => Raise AttributeError
  | Some k =>
      match applicant_by_id db k with
      | None => Raise AttributeError
      | Some _ =>
          Done (on_applicant k (Applicant.with_prioritized target_state) db)
      end
  end.

(* Applicant.by_id(applicant_id).active = target_state *)
Definition applicant_active_tx (applicant_id : option Z) (target_state : bool)
           (db : DB) : outcome DB :=
  match applicant_id with
  | None => Raise AttributeError
  | Some k =>
      match applicant_by_id db k with
      | None => Raise AttributeError
      | Some _ => Done (on_applicant k (applicant_with_active target_state) db)
      end
  end.

(* Annotator.by_id(annotator_id).active = target_state *)
Definition annotator_active_tx (annotator_id : option Z) (target_state : bool)
           (db : DB) : outcome DB :=
  match annotator_by_id db annotator_id with
  | None => Raise AttributeError
  | Some a =>
      Done (on_annotator (Annotator.id a)
                         (annotator_with_active target_state) db)
  end.

(** ** The detail pages of the admin

    The id in the URL is taken as the integer the database reads it as.
    A query without [order_by] is read in table order.  The login link
    shown for an annotator is left out. *)

Inductive detail_page : Type :=
| UserError                         (* utils.user_error(...) *)
| ApplicantDetail (applicant : Applicant.t)
                  (assigned skipped : list Annotator.t)
| AnnotatorDetail (annotator : Annotator.t)
                  (seen skipped : list Applicant.t).

(* applicant_detail(applicant_id) *)
Definition applicant_detail (applicant_id : Z) (db : DB) : detail_page :=
  match applicant_by_id db applicant_id with
  | None => UserError
  | Some applicant =>
      let assigned :=
        filter (fun a => match Annotator.next a with
                         | Some n => n =? Applicant.id applicant
                         | None => false
                         end) (annotators db) in
      let viewed_ids := Applicant.viewed applicant in
      let skipped :=
        if nonempty viewed_ids
        then filter (fun a => mem (Applicant.id applicant) (Annotator.ignore a)
                              && negb (mem (Annotator.id a) viewed_ids))
                    (annotators db)
        else filter (fun a => mem (Applicant.id applicant) (Annotator.ignore a))
                    (annotators db) in
      ApplicantDetail applicant assigned skipped
  end.

(* annotator_detail(annotator_id); an ignored id without a row neither
   adds to [seen] nor to [skipped] *)
Definition annotator_detail (annotator_id : Z) (db : DB) : detail_page :=
  match annotator_by_id db (Some annotator_id) with
  | None => UserError
  | Some ann =>
      let seen :=
        filter (fun a => mem (Annotator.id ann) (Applicant.viewed a))
               (applicants db) in
      let ignored_ids := Annotator.ignore ann in
      let skipped :=
        if nonempty ignored_ids
        then filter (fun a => mem (Applicant.id a) ignored_ids
                              && negb (mem (Annotator.id ann)
                                           (Applicant.viewed a)))
                    (applicants db)
        else [] in
      AnnotatorDetail ann seen skipped
  end.

(** ** Sample tables

    Four applicants and one judge in each state of the assignment
    protocol, with concrete settings, used to run the transactions. *)

Definition app1 : Applicant.t := Applicant.mk 1 true [] false 0 1.
Definition app2 : Applicant.t := Applicant.mk 2 true [] false 0 1.
Definition app3 : Applicant.t := Applicant.mk 3 true [] false 0 3.
Definition app4 : Applicant.t := Applicant.mk 4 true [] false 0 2.
Definition app2_off : Applicant.t := Applicant.mk 2 false [] false 0 1.
Definition app2_seen : Applicant.t := Applicant.mk 2 true [7] false 0 1.

(* next is unset *)
Definition judge_new : Annotator.t :=
  Annotator.mk 7 true None None None [] 10 1.
(* next = 1, no prev *)
Definition judge_begin : Annotator.t :=
  Annotator.mk 7 true (Some 1) (Some 0) None [] 10 1.
(* prev = 1, next = 2 *)
Definition judge_steady : Annotator.t :=
  Annotator.mk 7 true (Some 2) (Some 0) (Some 1) [1] 10 1.
(* a vote on 2 has been recorded and the next item is to be chosen *)
Definition judge_marked : Annotator.t :=
  Annotator.mk 7 true (Some 2) (Some 0) (Some 2) [1; 2] 10 1.

Definition db_new : DB := mkDB [app1; app2; app3; app4] [judge_new] [].
Definition db_begin : DB := mkDB [app1; app2; app3; app4] [judge_begin] [].
Definition db_steady : DB := mkDB [app1; app2; app3; app4] [judge_steady] [].
Definition db_steady_off : DB :=
  mkDB [app1; app2_off; app3; app4] [judge_steady] [].
Definition db_marked : DB :=
  mkDB [app1; app2_seen; app3; app4] [judge_marked] [].

(* a second judge, assigned item 3 ten seconds before 1000000 *)
Definition judge_other : Annotator.t :=
  Annotator.mk 8 true (Some 3) (Some 999990) None [] 10 1.
Definition db_pair : DB :=
  mkDB [app1; app2_seen; app3; app4] [judge_marked; judge_other] [].

(* db_steady after the judge has voted Current with env_greedy *)
Definition db_voted : DB :=
  mkDB [Applicant.mk 1 true [] false (-1) 1;
        Applicant.mk 2 true [7] false 1 1; app3; app4]
       [Annotator.mk 7 true (Some 3) (Some 1000000) (Some 2) [1; 2] 11 1]
       [Decision.mk 7 2 1].

(* the judge has read the welcome page; the site is open or closed *)
Definition site_new : Site := mkSite db_new None [7].
Definition site_closed : Site := mkSite db_steady (Some "true"%string) [7].

(* three behaviours of the sync: no annotator for the user, the
   annotator 7, claims of the wrong shape *)
Definition no_sync (u : unit) (site : Site) : outcome (option Z * Site) :=
  Done (None, site).
Definition sync_found (u : unit) (site : Site) : outcome (option Z * Site) :=
  Done (Some 7, site).
Definition sync_fails (u : unit) (site : Site) : outcome (option Z * Site) :=
  Raise TypeError.

(* one second after the assignment; the uniform draw is 1 or 0 *)
Definition env_greedy : Env := mkEnv (fun _ => 0%nat) 1 1000000 1000000.
Definition env_explore : Env := mkEnv (fun _ => 0%nat) 0 1000000 1000000.

Definition sample_TIMEOUT : Q := 5.
Definition sample_MIN_VIEWS : Z := 2.
Definition sample_EPSILON : Q := 1 # 4.
Definition sample_update (alpha beta wmu wss lmu lss : Q)
  : Q * Q * Q * Q * Q * Q :=
  ((alpha + 1)%Q, beta, (wmu + wss)%Q, wss, (lmu - lss)%Q, lss).
(* the score of a candidate is its variance *)
Definition sample_gain (alpha beta pmu pss mu ss : Q) : Q := ss.

Section Controller.

Set Default Proof Using "Type".

Variable TIMEOUT : Q.                  (* settings.TIMEOUT, minutes *)
Variable MIN_VIEWS : Z.                (* settings.MIN_VIEWS *)
Variable EPSILON : Q.                  (* crowd_bt.EPSILON *)
Variable update : Q -> Q -> Q -> Q -> Q -> Q -> Q * Q * Q * Q * Q * Q.
Variable expected_information_gain : Q -> Q -> Q -> Q -> Q -> Q -> Q.

(* session.get(ANNOTATOR_ID, None), then Annotator.by_id *)
Definition get_current_annotator (session : option Z) (db : DB)
  : option Annotator.t :=
  annotator_by_id db session.

(* the annotator object of a transaction, read again after writes *)
Definition self (db : DB) (uid : Z) : outcome Annotator.t :=
  match annotator_by_id db (Some uid) with
  | None => Raise AttributeError
  | Some a => Done a
  end.

(* (datetime.utcnow() - a.updated).total_seconds() < settings.TIMEOUT * 60 *)
Definition recent (now : Z) (a : Annotator.t) : bool :=
  match Annotator.updated a with
  | None => false
  | Some u => Qltb (total_seconds (now - u)) (TIMEOUT * 60)
  end.

Definition is_some {A : Type} (o : option A) : bool :=
  match o with
  | Some _ => true
  | None => false
  end.

(* {a.next.id for a in annotators if ...} *)
Definition busy_ids (now : Z) (rows : list Annotator.t) : list Z :=
  flat_map (fun a =>
              match Annotator.next a with
              | Some n => if recent now a then [n] else []
              | None => []
              end) rows.

Definition preferred_applicants (db : DB) (now : Z) (annotator : Annotator.t)
  : list Applicant.t :=
  let ignored_ids := Annotator.ignore annotator in
  let available_applicants :=
    if nonempty ignored_ids
    then filter (fun a => Applicant.active a
                          && negb (mem (Applicant.id a) ignored_ids))
                (applicants db)
    else filter (fun a => Applicant.active a) (applicants db) in
  let prioritized_applicants :=
    filter Applicant.prioritized available_applicants in
  let applicants :=
    if nonempty prioritized_applicants
    then prioritized_applicants else available_applicants in
  let annotators :=
    filter (fun a => Annotator.active a
                     && is_some (Annotator.next a)
                     && is_some (Annotator.updated a))
           (annotators db) in
  let busy := busy_ids now annotators in
  let nonbusy :=
    filter (fun a => negb (mem (Applicant.id a) busy)) applicants in
  let preferred := if nonempty nonbusy then nonbusy else applicants in
  let less_seen :=
    filter (fun a => Z.of_nat (List.length (Applicant.viewed a)) <? MIN_VIEWS)
           preferred in
  if nonempty less_seen then less_seen else preferred.

(* Annotator.update_next *)
Definition update_next (uid : Z) (new_next : option Applicant.t) (now : Z)
           (db : DB) : DB :=
  match new_next with
  | Some n =>
      let db1 := on_applicant (Applicant.id n)
                              (Applicant.with_prioritized false) db in
      let db2 := on_annotator uid (Annotator.with_updated (Some now)) db1 in
      on_annotator uid (Annotator.with_next (Some (Applicant.id n))) db2
  | None => on_annotator uid (Annotator.with_next None) db
  end.

(* the score of candidate [a] against the reference item [p] *)
Definition gain (annotator : Annotator.t) (p a : Applicant.t) : Q :=
  expected_information_gain
    (Annotator.alpha annotator) (Annotator.beta annotator)
    (Applicant.mu p) (Applicant.sigma_sq p)
    (Applicant.mu a) (Applicant.sigma_sq a).

Definition choose_next (uid : Z) (env : Env) (db : DB)
  : outcome (option Applicant.t) :=
  annotator <- self db uid ;;
  let applicants :=
    shuffle (draws env)
            (preferred_applicants db (clock_query env) annotator) in
  match applicants with
  | first :: _ =>
      if Qltb (uniform env) EPSILON
      then Done (Some first)
      else
        p <- rel db (Annotator.prev annotator) ;;
        c <- argmax (gain annotator p) applicants ;;
        Done (Some c)
  | [] => Done None
  end.

Definition perform_vote (uid : Z) (next_won : bool) (db : DB) : outcome DB :=
  annotator <- self db uid ;;
  winner <- rel db (if next_won then Annotator.next annotator
                    else Annotator.prev annotator) ;;
  loser <- rel db (if next_won then Annotator.prev annotator
                   else Annotator.next annotator) ;;
  let '(u_alpha, u_beta, u_winner_mu, u_winner_sigma_sq,
        u_loser_mu, u_loser_sigma_sq) :=
    update (Annotator.alpha annotator) (Annotator.beta annotator)
           (Applicant.mu winner) (Applicant.sigma_sq winner)
           (Applicant.mu loser) (Applicant.sigma_sq loser) in
  let w := Applicant.id winner in
  let l := Applicant.id loser in
  let db1 := on_annotator uid (Annotator.with_alpha u_alpha) db in
  let db2 := on_annotator uid (Annotator.with_beta u_beta) db1 in
  let db3 := on_applicant w (Applicant.with_mu u_winner_mu) db2 in
  let db4 := on_applicant w (Applicant.with_sigma_sq u_winner_sigma_sq) db3 in
  let db5 := on_applicant l (Applicant.with_mu u_loser_mu) db4 in
  Done (on_applicant l (Applicant.with_sigma_sq u_loser_sigma_sq) db5).

(* annotator.ignore.append(item) *)
Definition ignore_append (uid item : Z) (db : DB) : DB :=
  on_annotator uid
    (fun a => Annotator.with_ignore (rel_append item (Annotator.ignore a)) a) db.

(* the row of [item] with the annotator added to its viewed list *)
Definition mark_viewed (item uid : Z) (db : DB) : DB :=
  on_applicant item
    (fun a => Applicant.with_viewed (rel_append uid (Applicant.viewed a)) a) db.

(* item.viewed.append(annotator) *)
Definition viewed_append (item uid : Z) (db : DB) : outcome DB :=
  _ <- rel db (Some item) ;;
  Done (mark_viewed item uid db).

(* the body of tx in vote() once the claimed ids have matched *)
Definition vote_matched (uid p n : Z) (action : string) (env : Env) (db : DB)
  : outcome DB :=
  db1 <-
    (if String.eqb action "Skip"
     then Done (ignore_append uid n db)
     else
       prev_row <- rel db (Some p) ;;
       both <- (if Applicant.active prev_row
                then next_row <- rel db (Some n) ;;
                     Done (Applicant.active next_row)
                else Done false) ;;
       db_voted <-
         (if both : bool
          then
            if String.eqb action "Previous"
            then db' <- perform_vote uid false db ;;
                 Done (add_decision (Decision.mk uid p n) db')
            else if String.eqb action "Current"
            then db' <- perform_vote uid true db ;;
                 Done (add_decision (Decision.mk uid n p) db')
            else Raise UnboundLocalError
          else Done db) ;;
       db_viewed <- viewed_append n uid db_voted ;;
       let db_prev := on_annotator uid (Annotator.with_prev (Some n)) db_viewed in
       Done (ignore_append uid n db_prev)) ;;
  chosen <- choose_next uid env db1 ;;
  Done (update_next uid chosen (clock_assign env) db1).

Definition vote (session : option Z) (form : VoteForm) (env : Env) (db : DB)
  : outcome DB :=
  match get_current_annotator session db with
  | None => Raise AttributeError
  | Some annotator =>
      match Annotator.prev annotator with
      | None => Raise AttributeError
      | Some p =>
          if p =? vf_prev_id form
          then
            match Annotator.next annotator with
            | None => Raise AttributeError
            | Some n =>
                if n =? vf_next_id form
                then vote_matched (Annotator.id annotator) p n
                                  (vf_action form) env db
                else Done db
            end
          else Done db
      end
  end.

Definition begin (session : option Z) (form : BeginForm) (env : Env) (db : DB)
  : outcome DB :=
  match get_current_annotator session db with
  | None => Raise AttributeError
  | Some annotator =>
      let uid := Annotator.id annotator in
      match Annotator.next annotator with
      | None => Raise AttributeError
      | Some n =>
          if n =? bf_applicant_id form
          then
            let db1 := ignore_append uid n db in
            if String.eqb (bf_action form) "Continue"
            then
              db2 <- viewed_append n uid db1 ;;
              let db3 := on_annotator uid (Annotator.with_prev (Some n)) db2 in
              chosen <- choose_next uid env db3 ;;
              Done (update_next uid chosen (clock_assign env) db3)
            else if String.eqb (bf_action form) "Skip"
            then Done (on_annotator uid (Annotator.with_next None) db1)
            else Done db1
          else Done db
      end
  end.

Definition maybe_init_annotator (session : option Z) (env : Env) (db : DB)
  : outcome DB :=
  match get_current_annotator session db with
  | None => Raise AttributeError
  | Some annotator =>
      match Annotator.next annotator with
      | None =>
          let applicants :=
            preferred_applicants db (clock_query env) annotator in
          if nonempty applicants
          then
            match choice (draws env) applicants with
            | Some c => Done (update_next (Annotator.id annotator) (Some c)
                                          (clock_assign env) db)
            | None => Raise ValueError
            end
          else Done db
      | Some _ => Done db
      end
  end.

(** *** The candidate pool, step by step

    A second reading of the pool, one definition per numbered step of
    the specification.  [judges] is the list of judges whose assignment
    makes an item busy. *)

(* step 1: active and not ignored by the judge *)
Definition pool_start (db : DB) (J : Annotator.t) : list Applicant.t :=
  filter (fun a => Applicant.active a
                   && negb (mem (Applicant.id a) (Annotator.ignore J)))
         (applicants db).

(* step 2: only the prioritized items, when there is one *)
Definition pool_prioritized (s : list Applicant.t) : list Applicant.t :=
  if existsb Applicant.prioritized s
  then filter Applicant.prioritized s else s.

(* item [i] is the next of an active judge that was assigned recently *)
Definition busy (now : Z) (judges : list Annotator.t) (i : Z) : bool :=
  existsb (fun a => Annotator.active a
                    && match Annotator.next a with
                       | Some n => n =? i
                       | None => false
                       end
                    && recent now a) judges.

(* step 3: drop the busy items unless that leaves nothing *)
Definition pool_nonbusy (now : Z) (judges : list Annotator.t)
           (s : list Applicant.t) : list Applicant.t :=
  let r := filter (fun a => negb (busy now judges (Applicant.id a))) s in
  if nonempty r then r else s.

(* step 4: the items seen by fewer than MIN_VIEWS judges, when there is one *)
Definition pool_less_seen (s : list Applicant.t) : list Applicant.t :=
  let r := filter (fun a => Z.of_nat (List.length (Applicant.viewed a))
                            <? MIN_VIEWS) s in
  if nonempty r then r else s.

Definition pipeline (db : DB) (now : Z) (judges : list Annotator.t)
           (J : Annotator.t) : list Applicant.t :=
  pool_less_seen
    (pool_nonbusy now judges (pool_prioritized (pool_start db J))).

(* the judges other than [J] *)
Definition other_judges (db : DB) (J : Annotator.t) : list Annotator.t :=
  filter (fun a => negb (Annotator.id a =? Annotator.id J)) (annotators db).

(* the pool with "busy" read as assigned to some other judge *)
Definition spec_pool (db : DB) (now : Z) (J : Annotator.t)
  : list Applicant.t :=
  pipeline db now (other_judges db J) J.

(* the pool with "busy" read as assigned to any judge *)
Definition candidate_pool (db : DB) (now : Z) (J : Annotator.t)
  : list Applicant.t :=
  pipeline db now (annotators db) J.

(** *** The pages and the guarded routes *)

Definition is_closed (site : Site) : bool :=
  match setting_closed site with
  | Some v => String.eqb v SETTING_TRUE
  | None => false
  end.

(* the decorator requires_open *)
Definition requires_open (redirect_to : string)
           (f : Site -> outcome (response * Site)) (site : Site)
  : outcome (response * Site) :=
  if is_closed site then Done (Redirect redirect_to, site) else f site.

(* the decorator requires_active_annotator *)
Definition requires_active_annotator (redirect_to : string)
           (session : option Z) (f : Site -> outcome (response * Site))
           (site : Site) : outcome (response * Site) :=
  match get_current_annotator session (site_db site) with
  | None => Done (Redirect redirect_to, site)
  | Some annotator =>
      if negb (Annotator.active annotator)
      then Done (Redirect redirect_to, site)
      else f site
  end.

(* POST /vote *)
Definition vote_view (session : option Z) (form : VoteForm) (env : Env)
  : Site -> outcome (response * Site) :=
  requires_open "index"
    (requires_active_annotator "index" session
       (fun site =>
          db' <- vote session form env (site_db site) ;;
          Done (Redirect "index", commit site db'))).

(* POST /begin *)
Definition begin_view (session : option Z) (form : BeginForm) (env : Env)
  : Site -> outcome (response * Site) :=
  requires_open "index"
    (requires_active_annotator "index" session
       (fun site =>
          db' <- begin session form env (site_db site) ;;
          Done (Redirect "index", commit site db'))).

(* POST /welcome/done *)
Definition welcome_done (session : option Z) (action : string)
  : Site -> outcome (response * Site) :=
  requires_open "index"
    (requires_active_annotator "index" session
       (fun site =>
          if String.eqb action "Continue"
          then
            match get_current_annotator session (site_db site) with
            | None => Raise AttributeError
            | Some annotator =>
                Done (Redirect "index",
                      mkSite (site_db site) (setting_closed site)
                             (Annotator.id annotator :: welcomed site))
            end
          else Done (Redirect "index", site))).

(* the first lines of index(): a verified Firebase user replaces the
   annotator of the session.  [firebase_user] is the result of
   verify_hackpsu_session(), which catches every exception and returns
   None then.  [sync] is sync_annotator_from_auth_server: it returns the
   id of an annotator or None, may write the site, and raises on claims
   of the wrong shape ([TypeError], [AttributeError]); index() calls it
   outside any try, so what it raises leaves index(). *)
Definition index_session {U : Type} (firebase_user : option U)
           (sync : U -> Site -> outcome (option Z * Site))
           (session : option Z) (site : Site) : outcome (option Z * Site) :=
  match firebase_user with
  | Some u =>
      r <- sync u site ;;
      match r with
      | (Some aid, site1) => Done (Some aid, site1)
      | (None, site1) => Done (session, site1)
      end
  | None => Done (session, site)
  end.

(* the lines of index() after the session is settled *)
Definition index_page (session : option Z) (env : Env) (site : Site)
  : outcome (response * option Z * Site) :=
  match get_current_annotator session (site_db site) with
  | None => Done (LoggedOut, session, site)
  | Some annotator =>
      if is_closed site then Done (ClosedPage, session, site)
      else if negb (Annotator.active annotator)
      then Done (DisabledPage, session, site)
      else if negb (mem (Annotator.id annotator) (welcomed site))
      then Done (Redirect "welcome", session, site)
      else
        db' <- maybe_init_annotator session env (site_db site) ;;
        annotator' <- self db' (Annotator.id annotator) ;;
        Done (match Annotator.next annotator' with
              | None => WaitPage
              | Some n =>
                  match Annotator.prev annotator' with
                  | None => BeginPage n
                  | Some p => VotePage p n
                  end
              end, session, commit site db')
  end.

(* GET / *)
Definition index {U : Type} (firebase_user : option U)
           (sync : U -> Site -> outcome (option Z * Site))
           (session : option Z) (env : Env) (site : Site)
  : outcome (response * option Z * Site) :=
  s <- index_session firebase_user sync session site ;;
  index_page (fst s) env (snd s).

(** *** Runs of the judge transactions *)

Inductive step (db db' : DB) : Prop :=
| step_vote (session : option Z) (form : VoteForm) (env : Env) :
    vote session form env db = Done db' -> step db db'
| step_begin (session : option Z) (form : BeginForm) (env : Env) :
    begin session form env db = Done db' -> step db db'
| step_init (session : option Z) (env : Env) :
    maybe_init_annotator session env db = Done db' -> step db db'.

Inductive steps : DB -> DB -> Prop :=
| steps_refl (db : DB) : steps db db
| steps_cons (db db1 db2 : DB) : step db db1 -> steps db1 db2 -> steps db db2.

(* what update_next writes into the row of the judge *)
Definition assign (c : option Applicant.t) (now : Z) (a : Annotator.t)
  : Annotator.t :=
  match c with
  | Some n => Annotator.with_next (Some (Applicant.id n))
                (Annotator.with_updated (Some now) a)
  | None => Annotator.with_next None a
  end.

(* the applicant table has a row with id [k] *)
Definition has_applicant (rows : list Applicant.t) (k : Z) : Prop :=
  exists x, In x rows /\ Applicant.id x = k.

(* what a row of the applicant table may become in a transaction *)
Definition applicant_kept (x x' : Applicant.t) : Prop :=
  Applicant.id x' = Applicant.id x
  /\ Applicant.active x' = Applicant.active x
  /\ extends (Applicant.viewed x) (Applicant.viewed x').

(* how a viewed list may grow in a transaction of the judge [uid] whose
   ignore list becomes [ign] *)
Definition viewed_by (uid : Z) (ign : list Z) (x x' : Applicant.t) : Prop :=
  Applicant.id x' = Applicant.id x
  /\ forall j, In j (Applicant.viewed x') ->
               In j (Applicant.viewed x)
               \/ (j = uid /\ In (Applicant.id x) ign).

(* the footprint of one transaction of the judge [uid] *)
Definition judge_act (uid : Z) (J : Annotator.t) (db db' : DB) : Prop :=
  exists F : Annotator.t -> Annotator.t,
    annotators db' = set_row Annotator.id uid F (annotators db)
    /\ (forall a,
          Annotator.id (F a) = Annotator.id a
          /\ Annotator.active (F a) = Annotator.active a
          /\ extends (Annotator.ignore a) (Annotator.ignore (F a)))
    /\ (forall a,
          Annotator.prev (F a) = Annotator.prev a
          \/ exists n, Annotator.prev (F a) = Some n
                       /\ In n (Annotator.ignore (F a))
                       /\ has_applicant (applicants db) n)
    /\ (forall a,
          Annotator.next (F a) = Annotator.next a
          \/ Annotator.next (F a) = None
          \/ exists c, Annotator.next (F a) = Some c
                       /\ has_applicant (applicants db) c)
    /\ (Annotator.next (F J) = Annotator.next J
        \/ Annotator.next (F J) = None
        \/ exists x, Annotator.next (F J) = Some (Applicant.id x)
                     /\ In x (applicants db)
                     /\ Applicant.active x = true
                     /\ ~ In (Applicant.id x) (Annotator.ignore (F J)))
    /\ Forall2 applicant_kept (applicants db) (applicants db')
    /\ (decisions db' = decisions db
        \/ exists w l, decisions db' = decisions db ++ [Decision.mk uid w l])
    /\ Forall2 (viewed_by uid (Annotator.ignore (F J)))
               (applicants db) (applicants db').

(* the six attribute writes at the end of perform_vote *)
Definition write_beliefs (uid w l : Z) (out : Q * Q * Q * Q * Q * Q) (db : DB)
  : DB :=
  let '(u_alpha, u_beta, u_winner_mu, u_winner_sigma_sq,
        u_loser_mu, u_loser_sigma_sq) := out in
  let db1 := on_annotator uid (Annotator.with_alpha u_alpha) db in
  let db2 := on_annotator uid (Annotator.with_beta u_beta) db1 in
  let db3 := on_applicant w (Applicant.with_mu u_winner_mu) db2 in
  let db4 := on_applicant w (Applicant.with_sigma_sq u_winner_sigma_sq) db3 in
  let db5 := on_applicant l (Applicant.with_mu u_loser_mu) db4 in
  on_applicant l (Applicant.with_sigma_sq u_loser_sigma_sq) db5.


(* every judge with a previous item ignores it *)
Definition prev_ignored (db : DB) : Prop :=
  forall a p, In a (annotators db) ->
              Annotator.prev a = Some p -> In p (Annotator.ignore a).

(* whoever has viewed an applicant ignores it *)
Definition viewed_ignored (db : DB) : Prop :=
  forall x j J, In x (applicants db) ->
                In j (Applicant.viewed x) ->
                annotator_by_id db (Some j) = Some J ->
                In (Applicant.id x) (Annotator.ignore J).

(* the assignments point to rows of the applicant table *)
Definition assignments_exist (db : DB) : Prop :=
  forall a k, In a (annotators db) ->
              Annotator.next a = Some k \/ Annotator.prev a = Some k ->
              exists x, applicant_by_id db k = Some x.

(** ** Lists and rows *)

Lemma nonempty_filter {A : Type} (p : A -> bool) (l : list A) :
  nonempty (filter p l) = existsb p l.
Proof.
  induction l as [|x l IH]; simpl; [reflexivity|].
  destruct (p x); simpl; [reflexivity | exact IH].
Qed.

Lemma nonempty_false {A : Type} (l : list A) :
  nonempty l = false <-> l = [].
Proof.
  destruct l; simpl; split; intro H; try reflexivity; discriminate.
Qed.

Lemma mem_In (x : Z) (s : list Z) : mem x s = true <-> In x s.
Proof.
  unfold mem. rewrite existsb_exists. split.
  - intros [y [Hy He]]. apply Z.eqb_eq in He. subst. exact Hy.
  - intro H. exists x. split; [exact H | apply Z.eqb_refl].
Qed.

Lemma mem_app (x : Z) (s t : list Z) : mem x (s ++ t) = mem x s || mem x t.
Proof. unfold mem. apply existsb_app. Qed.

Lemma In_rel_append (x : Z) (l : list Z) : In x (rel_append x l).
Proof.
  unfold rel_append. destruct (mem x l) eqn:E.
  - apply mem_In. exact E.
  - apply in_or_app. right. left. reflexivity.
Qed.

Lemma rel_append_In (x y : Z) (l : list Z) :
  In y (rel_append x l) <-> In y l \/ y = x.
Proof.
  unfold rel_append. destruct (mem x l) eqn:E.
  - split; [intro H; left; exact H|].
    intros [H | ->]; [exact H | apply mem_In; exact E].
  - rewrite in_app_iff. cbn. split.
    + intros [H | [<- | []]]; [left; exact H | right; reflexivity].
    + intros [H | ->]; [left; exact H | right; left; reflexivity].
Qed.

Lemma rel_append_new (x : Z) (l : list Z) :
  ~ In x l -> rel_append x l = l ++ [x].
Proof.
  intro H. unfold rel_append. destruct (mem x l) eqn:E; [|reflexivity].
  apply mem_In in E. contradiction.
Qed.

Lemma rel_append_old (x : Z) (l : list Z) :
  In x l -> rel_append x l = l.
Proof.
  intro H. unfold rel_append. apply mem_In in H. rewrite H. reflexivity.
Qed.

Lemma rel_append_NoDup (x : Z) (l : list Z) :
  NoDup l -> NoDup (rel_append x l).
Proof.
  intro H. unfold rel_append. destruct (mem x l) eqn:E; [exact H|].
  apply NoDup_app; [exact H | repeat constructor; intros [] |].
  intros a Ha [<- | []]. apply mem_In in Ha. congruence.
Qed.

Lemma recent_updated (now : Z) (a : Annotator.t) :
  recent now a = true -> is_some (Annotator.updated a) = true.
Proof.
  unfold recent. destruct (Annotator.updated a); simpl; congruence.
Qed.

Lemma mem_busy_ids (now : Z) (rows : list Annotator.t) (i : Z) :
  mem i (busy_ids now
           (filter (fun a => Annotator.active a
                             && is_some (Annotator.next a)
                             && is_some (Annotator.updated a)) rows))
  = busy now rows i.
Proof.
  induction rows as [|a rows IH]; [reflexivity|].
  cbn [filter busy existsb]. fold (busy now rows i). rewrite <- IH. clear IH.
  destruct (Annotator.active a); cbn [andb].
  - destruct (Annotator.next a) as [n|] eqn:Hn; cbn [is_some andb].
    + destruct (recent now a) eqn:Hr.
      * rewrite (recent_updated _ _ Hr). cbn [busy_ids flat_map].
        rewrite Hn, Hr. rewrite mem_app. cbn [mem existsb].
        rewrite (Z.eqb_sym i n). rewrite !andb_true_r, orb_false_r.
        reflexivity.
      * rewrite andb_false_r. cbn [orb].
        destruct (is_some (Annotator.updated a)); [|reflexivity].
        cbn [busy_ids flat_map]. rewrite Hn, Hr. reflexivity.
    + reflexivity.
  - reflexivity.
Qed.

Lemma available_start (db : DB) (J : Annotator.t) :
  (if nonempty (Annotator.ignore J)
   then filter (fun a => Applicant.active a
                         && negb (mem (Applicant.id a) (Annotator.ignore J)))
               (applicants db)
   else filter (fun a => Applicant.active a) (applicants db))
  = pool_start db J.
Proof.
  unfold pool_start. destruct (Annotator.ignore J) as [|x s]; cbn [nonempty].
  - apply filter_ext. intro a. cbn. rewrite andb_true_r. reflexivity.
  - reflexivity.
Qed.

Lemma preferred_pipeline (db : DB) (now : Z) (J : Annotator.t) :
  preferred_applicants db now J = pipeline db now (annotators db) J.
Proof.
  unfold preferred_applicants, pipeline, pool_less_seen, pool_nonbusy,
    pool_prioritized.
  cbv zeta. rewrite available_start.
  rewrite <- (nonempty_filter Applicant.prioritized (pool_start db J)).
  set (s := if nonempty (filter Applicant.prioritized (pool_start db J))
            then filter Applicant.prioritized (pool_start db J)
            else pool_start db J).
  assert (E : filter (fun a => negb (mem (Applicant.id a)
                        (busy_ids now
                           (filter (fun a0 => Annotator.active a0
                                      && is_some (Annotator.next a0)
                                      && is_some (Annotator.updated a0))
                                   (annotators db))))) s
              = filter (fun a => negb (busy now (annotators db)
                                            (Applicant.id a))) s).
  { apply filter_ext. intro a. rewrite mem_busy_ids. reflexivity. }
  rewrite E. reflexivity.
Qed.

Lemma get_row_key {A : Type} (key : A -> Z) (k : Z) (rows : list A) (r : A) :
  get_row key k rows = Some r -> key r = k /\ In r rows.
Proof.
  unfold get_row. intro H. apply find_some in H. destruct H as [Hin He].
  apply Z.eqb_eq in He. split; assumption.
Qed.

Lemma get_row_set_row {A : Type} (key : A -> Z) (f : A -> A)
      (Hf : forall r, key (f r) = key r) (k k' : Z) (rows : list A) :
  get_row key k' (set_row key k f rows)
  = if k =? k' then option_map f (get_row key k' rows)
    else get_row key k' rows.
Proof.
  unfold get_row, set_row.
  induction rows as [|r rows IH]; cbn [map find option_map].
  - destruct (k =? k'); reflexivity.
  - destruct (key r =? k) eqn:E1.
    + rewrite Hf. apply Z.eqb_eq in E1.
      destruct (key r =? k') eqn:E2.
      * apply Z.eqb_eq in E2.
        replace (k =? k') with true by (symmetry; apply Z.eqb_eq; lia).
        reflexivity.
      * exact IH.
    + destruct (key r =? k') eqn:E2.
      * apply Z.eqb_eq in E2. apply Z.eqb_neq in E1.
        replace (k =? k') with false by (symmetry; apply Z.eqb_neq; lia).
        reflexivity.
      * exact IH.
Qed.

Lemma get_row_set_row_same {A : Type} (key : A -> Z) (f : A -> A)
      (Hf : forall r, key (f r) = key r) (k : Z) (rows : list A) :
  get_row key k (set_row key k f rows) = option_map f (get_row key k rows).
Proof. rewrite get_row_set_row by exact Hf. rewrite Z.eqb_refl. reflexivity. Qed.

Lemma map_set_row {A B : Type} (key : A -> Z) (f : A -> A) (g : A -> B)
      (Hg : forall r, g (f r) = g r) (k : Z) (rows : list A) :
  map g (set_row key k f rows) = map g rows.
Proof.
  unfold set_row. rewrite map_map. apply map_ext. intro r.
  destruct (key r =? k); [apply Hg | reflexivity].
Qed.

(** ** The candidate pool *)

Lemma prefer_incl {A : Type} (p : A -> bool) (s : list A) (a : A) :
  In a (if nonempty (filter p s) then filter p s else s) -> In a s.
Proof.
  destruct (nonempty (filter p s)); [|exact (fun H => H)].
  intro H. apply filter_In in H. exact (proj1 H).
Qed.

Lemma prefer_nil {A : Type} (p : A -> bool) (s : list A) :
  (if nonempty (filter p s) then filter p s else s) = [] <-> s = [].
Proof.
  destruct (nonempty (filter p s)) eqn:E.
  - split; intro H.
    + rewrite H in E. discriminate.
    + subst s. discriminate.
  - split; intro H; exact H.
Qed.

Lemma pool_prioritized_prefer (s : list Applicant.t) :
  pool_prioritized s
  = if nonempty (filter Applicant.prioritized s)
    then filter Applicant.prioritized s else s.
Proof. unfold pool_prioritized. rewrite nonempty_filter. reflexivity. Qed.

Lemma pipeline_incl (db : DB) (now : Z) (judges : list Annotator.t)
      (J : Annotator.t) (a : Applicant.t) :
  In a (pipeline db now judges J) -> In a (pool_start db J).
Proof.
  unfold pipeline, pool_less_seen, pool_nonbusy. cbv zeta. intro H.
  apply prefer_incl in H. apply prefer_incl in H.
  rewrite pool_prioritized_prefer in H. apply prefer_incl in H. exact H.
Qed.

Lemma pipeline_nil (db : DB) (now : Z) (judges : list Annotator.t)
      (J : Annotator.t) :
  pipeline db now judges J = [] <-> pool_start db J = [].
Proof.
  unfold pipeline, pool_less_seen, pool_nonbusy. cbv zeta.
  rewrite prefer_nil, prefer_nil, pool_prioritized_prefer, prefer_nil.
  split; intro H; exact H.
Qed.

Lemma pool_start_In (db : DB) (J : Annotator.t) (a : Applicant.t) :
  In a (pool_start db J) <->
  In a (applicants db) /\ Applicant.active a = true
  /\ ~ In (Applicant.id a) (Annotator.ignore J).
Proof.
  unfold pool_start. rewrite filter_In, andb_true_iff, negb_true_iff.
  rewrite <- mem_In. split.
  - intros (Hin & Hact & Hm). split; [exact Hin|]. split; [exact Hact|].
    rewrite Hm. discriminate.
  - intros (Hin & Hact & Hm). split; [exact Hin|]. split; [exact Hact|].
    destruct (mem (Applicant.id a) (Annotator.ignore J));
      [exfalso; apply Hm|]; reflexivity.
Qed.

Lemma preferred_nil_clock (db : DB) (now now' : Z) (J : Annotator.t) :
  preferred_applicants db now J = [] ->
  preferred_applicants db now' J = [].
Proof.
  rewrite !preferred_pipeline, !pipeline_nil. exact (fun H => H).
Qed.

(** ** The shuffle is a permutation *)

Lemma set_nth_perm {A : Type} (l : list A) (i : nat) (a b : A) :
  nth_error l i = Some a ->
  Permutation (a :: set_nth l i b) (b :: l).
Proof.
  revert i. induction l as [|y l IH]; intros [|i] H; cbn in H; try discriminate.
  - injection H as ->. cbn. apply perm_swap.
  - cbn [set_nth].
    apply Permutation_trans with (y :: a :: set_nth l i b); [apply perm_swap|].
    apply Permutation_trans with (y :: b :: l); [|apply perm_swap].
    apply perm_skip. apply IH. exact H.
Qed.

Lemma nth_error_set_nth_same {A : Type} (l : list A) (i : nat) (a b : A) :
  nth_error l i = Some a -> nth_error (set_nth l i b) i = Some b.
Proof.
  revert i. induction l as [|y l IH]; intros [|i] H; cbn in H; try discriminate.
  - reflexivity.
  - cbn. apply IH. exact H.
Qed.

Lemma nth_error_set_nth_other {A : Type} (l : list A) (i j : nat) (b : A) :
  i <> j -> nth_error (set_nth l i b) j = nth_error l j.
Proof.
  revert i j. induction l as [|y l IH]; intros [|i] [|j] H; cbn;
    try reflexivity; try congruence.
  apply IH. congruence.
Qed.

Lemma swap_perm {A : Type} (l : list A) (i j : nat) :
  Permutation (swap l i j) l.
Proof.
  unfold swap.
  destruct (nth_error l i) as [a|] eqn:Hi; [|apply Permutation_refl].
  destruct (nth_error l j) as [b|] eqn:Hj; [|apply Permutation_refl].
  assert (Hj' : nth_error (set_nth l i b) j = Some b).
  { destruct (Nat.eq_dec i j) as [->|Hne].
    - apply nth_error_set_nth_same with (a := a). exact Hi.
    - rewrite nth_error_set_nth_other by exact Hne. exact Hj. }
  apply Permutation_cons_inv with (a := b).
  apply Permutation_trans with (a :: set_nth l i b).
  - apply set_nth_perm. exact Hj'.
  - apply set_nth_perm. exact Hi.
Qed.

Lemma shuffle_from_perm {A : Type} (d : nat -> nat) (i k : nat) (l : list A) :
  Permutation (shuffle_from d k i l) l.
Proof.
  revert k l. induction i as [|i IH]; intros k l; cbn [shuffle_from].
  - apply Permutation_refl.
  - eapply Permutation_trans; [apply IH | apply swap_perm].
Qed.

Lemma shuffle_perm {A : Type} (d : nat -> nat) (l : list A) :
  Permutation (shuffle d l) l.
Proof. apply shuffle_from_perm. Qed.

Lemma shuffle_nil {A : Type} (d : nat -> nat) (l : list A) :
  shuffle d l = [] <-> l = [].
Proof.
  split; intro H.
  - apply Permutation_nil. rewrite <- H. apply shuffle_perm.
  - subst l. reflexivity.
Qed.

Lemma choice_In {A : Type} (d : nat -> nat) (l : list A) :
  l <> [] -> exists c, choice d l = Some c /\ In c l.
Proof.
  intro Hne. unfold choice.
  destruct (nth_error l (Nat.modulo (d O) (List.length l))) as [c|] eqn:E.
  - exists c. split; [reflexivity | eapply nth_error_In; exact E].
  - apply nth_error_None in E.
    assert (List.length l <> 0%nat) by (destruct l; cbn; congruence).
    pose proof (Nat.mod_upper_bound (d O) (List.length l) H). lia.
Qed.

(** ** The argmax *)

Lemma Qltb_lt (x y : Q) : Qltb x y = true <-> (x < y)%Q.
Proof.
  unfold Qltb. rewrite negb_true_iff. split; intro H.
  - apply Qnot_le_lt. intro L. apply Qle_bool_iff in L. congruence.
  - destruct (Qle_bool y x) eqn:E; [|reflexivity].
    apply Qle_bool_iff in E. exfalso. exact (Qlt_not_le _ _ H E).
Qed.

Lemma Qltb_ge (x y : Q) : Qltb x y = false <-> (y <= x)%Q.
Proof.
  unfold Qltb. rewrite negb_false_iff. apply Qle_bool_iff.
Qed.

Lemma argmax_from_earliest {A : Type} (f : A -> Q) (xs : list A) (best : A) :
  earliest_max f (best :: xs) (argmax_from f best xs).
Proof.
  revert best. induction xs as [|x r IH]; intro best; cbn [argmax_from].
  - exists [], []. split; [reflexivity|]. split; intros x [].
  - destruct (Qltb (f best) (f x)) eqn:E.
    + apply Qltb_lt in E.
      destruct (IH x) as (l1 & l2 & Heq & H1 & H2).
      set (c := argmax_from f x r) in *.
      exists (best :: l1), l2. split; [cbn; congruence|].
      split; [|exact H2].
      intros y [<-|Hy]; [|apply H1; exact Hy].
      destruct l1 as [|z l1]; cbn in Heq; injection Heq as Hz Hr.
      * rewrite <- Hz. exact E.
      * subst z. eapply Qlt_trans; [exact E | apply H1; left; reflexivity].
    + apply Qltb_ge in E.
      destruct (IH best) as (l1 & l2 & Heq & H1 & H2).
      set (c := argmax_from f best r) in *.
      destruct l1 as [|z l1]; cbn in Heq; injection Heq as Hz Hr.
      * exists [], (x :: l2). split; [cbn; congruence|].
        split; [intros y []|].
        intros y [<-|Hy]; [rewrite <- Hz; exact E|].
        apply H2. exact Hy.
      * subst z. exists (best :: x :: l1), l2.
        split; [cbn; congruence|].
        split; [|exact H2].
        assert (Hb : (f best < f c)%Q) by (apply H1; left; reflexivity).
        intros y [<-|[<-|Hy]].
        -- exact Hb.
        -- eapply Qle_lt_trans; [exact E | exact Hb].
        -- apply H1. right. exact Hy.
Qed.

Lemma earliest_max_In {A : Type} (f : A -> Q) (l : list A) (c : A) :
  earliest_max f l c -> In c l /\ forall x, In x l -> (f x <= f c)%Q.
Proof.
  intros (l1 & l2 & -> & H1 & H2). split.
  - apply in_or_app. right. left. reflexivity.
  - intros x Hx. apply in_app_or in Hx. destruct Hx as [Hx|[<-|Hx]].
    + apply Qlt_le_weak, H1, Hx.
    + apply Qle_refl.
    + apply H2, Hx.
Qed.

(** ** Reading the session after a write *)

Lemma annotator_on_annotator (uid : Z) (f : Annotator.t -> Annotator.t)
      (Hf : forall a, Annotator.id (f a) = Annotator.id a) (db : DB) :
  annotator_by_id (on_annotator uid f db) (Some uid)
  = option_map f (annotator_by_id db (Some uid)).
Proof. cbn. apply get_row_set_row_same. exact Hf. Qed.

Lemma annotator_on_applicant (k : Z) (f : Applicant.t -> Applicant.t)
      (db : DB) (u : option Z) :
  annotator_by_id (on_applicant k f db) u = annotator_by_id db u.
Proof. reflexivity. Qed.

Lemma applicant_on_annotator (uid : Z) (f : Annotator.t -> Annotator.t)
      (db : DB) (k : Z) :
  applicant_by_id (on_annotator uid f db) k = applicant_by_id db k.
Proof. reflexivity. Qed.

Lemma applicant_on_applicant (k : Z) (f : Applicant.t -> Applicant.t)
      (Hf : forall a, Applicant.id (f a) = Applicant.id a) (db : DB) (k' : Z) :
  applicant_by_id (on_applicant k f db) k'
  = if k =? k' then option_map f (applicant_by_id db k')
    else applicant_by_id db k'.
Proof. cbn. apply get_row_set_row. exact Hf. Qed.

Lemma current_annotator_id (session : option Z) (db : DB) (J : Annotator.t) :
  get_current_annotator session db = Some J ->
  session = Some (Annotator.id J)
  /\ annotator_by_id db (Some (Annotator.id J)) = Some J.
Proof.
  unfold get_current_annotator, annotator_by_id.
  destruct session as [u|]; [|discriminate].
  intro H. destruct (get_row_key _ _ _ _ H) as [Hk _]. subst u.
  split; [reflexivity | exact H].
Qed.

(* what update_next leaves of a row of either table *)
Lemma update_next_annotator (uid : Z) (c : option Applicant.t) (now : Z)
      (db : DB) (J : Annotator.t) :
  annotator_by_id db (Some uid) = Some J ->
  annotator_by_id (update_next uid c now db) (Some uid)
  = Some (match c with
          | Some n => Annotator.with_next (Some (Applicant.id n))
                        (Annotator.with_updated (Some now) J)
          | None => Annotator.with_next None J
          end).
Proof.
  intro H. destruct c as [n|]; unfold update_next; cbv zeta.
  - rewrite !annotator_on_annotator by reflexivity.
    rewrite annotator_on_applicant, H. reflexivity.
  - rewrite annotator_on_annotator by reflexivity. rewrite H. reflexivity.
Qed.

Lemma update_next_applicant (uid : Z) (c : option Applicant.t) (now : Z)
      (db : DB) (k : Z) (X : Applicant.t) :
  applicant_by_id db k = Some X ->
  exists X', applicant_by_id (update_next uid c now db) k = Some X'
             /\ Applicant.id X' = Applicant.id X
             /\ Applicant.active X' = Applicant.active X
             /\ Applicant.viewed X' = Applicant.viewed X
             /\ Applicant.mu X' = Applicant.mu X
             /\ Applicant.sigma_sq X' = Applicant.sigma_sq X.
Proof.
  intro H. destruct c as [n|]; unfold update_next; cbv zeta.
  - rewrite !applicant_on_annotator.
    rewrite applicant_on_applicant by reflexivity. rewrite H.
    destruct (Applicant.id n =? k).
    + eexists. split; [reflexivity|]. repeat split.
    + exists X. repeat split.
  - rewrite applicant_on_annotator. exists X. repeat split; exact H.
Qed.

Lemma update_next_decisions (uid : Z) (c : option Applicant.t) (now : Z)
      (db : DB) :
  decisions (update_next uid c now db) = decisions db.
Proof. destruct c; reflexivity. Qed.

Lemma update_next_beliefs (uid : Z) (c : option Applicant.t) (now : Z)
      (db : DB) :
  map (fun a => (Applicant.id a, Applicant.mu a, Applicant.sigma_sq a))
      (applicants (update_next uid c now db))
  = map (fun a => (Applicant.id a, Applicant.mu a, Applicant.sigma_sq a))
        (applicants db)
  /\ map (fun a => (Annotator.id a, Annotator.alpha a, Annotator.beta a))
         (annotators (update_next uid c now db))
     = map (fun a => (Annotator.id a, Annotator.alpha a, Annotator.beta a))
           (annotators db).
Proof.
  destruct c as [n|]; unfold update_next; cbv zeta; cbn [applicants annotators
    on_annotator on_applicant]; split;
    rewrite ?map_set_row by reflexivity; reflexivity.
Qed.

(** ** choose_next with a reference item *)

Lemma choose_next_cases (uid : Z) (env : Env) (db : DB)
      (J : Annotator.t) (p : Applicant.t) :
  annotator_by_id db (Some uid) = Some J ->
  rel db (Annotator.prev J) = Done p ->
  let sh := shuffle (draws env)
                    (preferred_applicants db (clock_query env) J) in
  match sh with
  | [] => choose_next uid env db = Done None
  | first :: _ =>
      if Qltb (uniform env) EPSILON
      then choose_next uid env db = Done (Some first)
      else choose_next uid env db
           = Done (Some (argmax_from (gain J p) first (tl sh)))
  end.
Proof.
  intros HJ Hp sh. unfold choose_next, self. rewrite HJ. cbn [bind].
  fold sh. destruct sh as [|first rest]; [reflexivity|].
  destruct (Qltb (uniform env) EPSILON); [reflexivity|].
  rewrite Hp. reflexivity.
Qed.

Lemma choose_next_total (uid : Z) (env : Env) (db : DB)
      (J : Annotator.t) (p : Applicant.t) :
  annotator_by_id db (Some uid) = Some J ->
  rel db (Annotator.prev J) = Done p ->
  exists chosen,
    choose_next uid env db = Done chosen
    /\ match chosen with
       | Some c => In c (preferred_applicants db (clock_query env) J)
       | None => preferred_applicants db (clock_query env) J = []
       end.
Proof.
  intros HJ Hp. pose proof (choose_next_cases uid env db J p HJ Hp) as H.
  cbv zeta in H.
  pose proof (shuffle_perm (draws env)
                (preferred_applicants db (clock_query env) J)) as HP.
  destruct (shuffle (draws env)
              (preferred_applicants db (clock_query env) J))
    as [|first rest] eqn:E.
  - exists None. split; [exact H|]. apply shuffle_nil in E. exact E.
  - destruct (Qltb (uniform env) EPSILON).
    + exists (Some first). split; [exact H|].
      eapply Permutation_in; [exact HP | left; reflexivity].
    + eexists. split; [exact H|].
      eapply Permutation_in; [exact HP|].
      apply (earliest_max_In (gain J p)).
      apply argmax_from_earliest.
Qed.

(** ** Properties of the controller *)

(** C9. [Annotator.update_next] with an item clears the item's
    [prioritized] flag, stamps the judge's [updated] with the current
    time and stores the item as [next]; with [None] it only clears
    [next]: no flag of any applicant and no timestamp of any judge
    changes. *)
Theorem update_next_flag_and_time (uid now : Z) (db : DB) (J : Annotator.t) :
  annotator_by_id db (Some uid) = Some J ->
  (forall n X,
      applicant_by_id db (Applicant.id n) = Some X ->
      applicant_by_id (update_next uid (Some n) now db) (Applicant.id n)
      = Some (Applicant.with_prioritized false X)
      /\ exists J',
          annotator_by_id (update_next uid (Some n) now db) (Some uid)
          = Some J'
          /\ Annotator.updated J' = Some now
          /\ Annotator.next J' = Some (Applicant.id n))
  /\ applicants (update_next uid None now db) = applicants db
  /\ map Annotator.updated (annotators (update_next uid None now db))
     = map Annotator.updated (annotators db)
  /\ exists J',
      annotator_by_id (update_next uid None now db) (Some uid) = Some J'
      /\ Annotator.next J' = None
      /\ Annotator.updated J' = Annotator.updated J.
Proof.
  intro HJ. split; [|split; [|split]].
  - intros n X HX. split.
    + unfold update_next. cbv zeta. rewrite !applicant_on_annotator.
      rewrite applicant_on_applicant by reflexivity.
      rewrite Z.eqb_refl, HX. reflexivity.
    + rewrite (update_next_annotator uid (Some n) now db J HJ).
      eexists. split; [reflexivity|]. split; reflexivity.
  - reflexivity.
  - cbn [update_next on_annotator annotators].
    apply map_set_row. reflexivity.
  - rewrite (update_next_annotator uid None now db J HJ).
    eexists. split; [reflexivity|]. split; reflexivity.
Qed.

(** C1. A vote of a judge who has both [prev] and [next] and whose form
    does not carry exactly these two ids leaves the whole database as it
    was: no decision, no belief value, no [prev], [next], [ignore] or
    [viewed] row changes. *)
Theorem vote_stale_is_noop (session : option Z) (form : VoteForm)
        (env : Env) (db : DB) (J : Annotator.t) (p n : Z) :
  get_current_annotator session db = Some J ->
  Annotator.prev J = Some p ->
  Annotator.next J = Some n ->
  ~ (vf_prev_id form = p /\ vf_next_id form = n) ->
  vote session form env db = Done db.
Proof.
  intros HJ Hp Hn Hne. unfold vote. rewrite HJ, Hp, Hn.
  destruct (p =? vf_prev_id form) eqn:E1; [|reflexivity].
  destruct (n =? vf_next_id form) eqn:E2; [|reflexivity].
  apply Z.eqb_eq in E1, E2. exfalso. apply Hne. split; congruence.
Qed.

(** C10. Every item of the candidate pool is a row of the applicant
    table that is active and that the judge does not ignore, whichever
    fallbacks were taken. *)
Theorem preferred_active_not_ignored (db : DB) (now : Z) (J : Annotator.t)
        (a : Applicant.t) :
  In a (preferred_applicants db now J) ->
  In a (applicants db)
  /\ Applicant.active a = true
  /\ ~ In (Applicant.id a) (Annotator.ignore J).
Proof.
  rewrite preferred_pipeline. intro H.
  apply pool_start_In. eapply pipeline_incl. exact H.
Qed.

(** With "busy" read as assigned to some other judge, the pool of the
    code is the pool of the specification whenever the judge's own
    [next] is unset or ignored, which is the case at every call. *)
Lemma busy_without_self (db : DB) (now : Z) (J : Annotator.t) (i : Z) :
  (forall a, In a (annotators db) ->
             Annotator.id a = Annotator.id J -> a = J) ->
  match Annotator.next J with
  | Some n => n <> i
  | None => True
  end ->
  busy now (annotators db) i = busy now (other_judges db J) i.
Proof.
  intros Hkey Hself. unfold other_judges, busy.
  induction (annotators db) as [|a rows IH]; [reflexivity|].
  cbn [existsb filter].
  rewrite IH by (intros b Hb; apply Hkey; right; exact Hb). clear IH.
  destruct (Annotator.id a =? Annotator.id J) eqn:E; cbn [negb existsb].
  - apply Z.eqb_eq in E. rewrite (Hkey a (or_introl eq_refl) E).
    destruct (Annotator.next J) as [n|].
    + replace (n =? i) with false by (symmetry; apply Z.eqb_neq; exact Hself).
      rewrite andb_false_r. reflexivity.
    + rewrite andb_false_r. reflexivity.
  - reflexivity.
Qed.

Lemma preferred_spec_pool (db : DB) (now : Z) (J : Annotator.t) :
  (forall a, In a (annotators db) ->
             Annotator.id a = Annotator.id J -> a = J) ->
  match Annotator.next J with
  | Some n => In n (Annotator.ignore J)
  | None => True
  end ->
  preferred_applicants db now J = spec_pool db now J.
Proof.
  intros Hkey Hself. rewrite preferred_pipeline.
  unfold spec_pool, pipeline, pool_nonbusy. cbv zeta.
  assert (E : filter (fun a => negb (busy now (annotators db) (Applicant.id a)))
                     (pool_prioritized (pool_start db J))
              = filter (fun a => negb (busy now (other_judges db J)
                                            (Applicant.id a)))
                       (pool_prioritized (pool_start db J))).
  { apply filter_ext_in. intros a Ha. f_equal.
    apply busy_without_self; [exact Hkey|].
    rewrite pool_prioritized_prefer in Ha. apply prefer_incl in Ha.
    apply pool_start_In in Ha. destruct Ha as (_ & _ & Hni).
    destruct (Annotator.next J) as [n|]; [|exact I].
    intro Hn. apply Hni. rewrite <- Hn. exact Hself. }
  rewrite E. reflexivity.
Qed.

(** C2. For the judge asking, the candidate pool is the four steps in
    this order: the active items the judge does not ignore; only the
    prioritized ones when there is one; without the items that are the
    [next] of some other active judge assigned less than TIMEOUT minutes
    ago, unless none would be left; only the items viewed fewer than
    MIN_VIEWS times when there is one.  The judge is the row under its
    id and has no [next] or ignores it, as at every call of the pool:
    maybe_init_annotator() asks only for a judge without [next], and
    vote() and begin() put [next] on the ignore list before they ask. *)
Theorem preferred_is_pipeline (db : DB) (now : Z) (J : Annotator.t) :
  (forall a, In a (annotators db) ->
             Annotator.id a = Annotator.id J -> a = J) ->
  match Annotator.next J with
  | Some n => In n (Annotator.ignore J)
  | None => True
  end ->
  let s1 := pool_start db J in
  let s2 := pool_prioritized s1 in
  let s3 := pool_nonbusy now (other_judges db J) s2 in
  preferred_applicants db now J = pool_less_seen s3.
Proof.
  intros Hkey Hself. cbv zeta.
  rewrite (preferred_spec_pool db now J Hkey Hself). reflexivity.
Qed.

(** C4. With a reference item, [choose_next] shuffles the candidate
    pool; an empty pool gives none; otherwise a uniform draw below
    EPSILON gives the first shuffled candidate, and any other draw gives
    the candidate of largest expected information gain against the
    reference, the earliest such candidate in shuffled order. *)
Theorem choose_next_epsilon_greedy (uid : Z) (env : Env) (db : DB)
        (J : Annotator.t) (p : Applicant.t) :
  annotator_by_id db (Some uid) = Some J ->
  rel db (Annotator.prev J) = Done p ->
  let pool := preferred_applicants db (clock_query env) J in
  let sh := shuffle (draws env) pool in
  Permutation sh pool
  /\ (pool = [] -> choose_next uid env db = Done None)
  /\ (forall first rest,
         sh = first :: rest ->
         ((uniform env < EPSILON)%Q ->
          choose_next uid env db = Done (Some first))
         /\ (~ (uniform env < EPSILON)%Q ->
             exists c, choose_next uid env db = Done (Some c)
                       /\ earliest_max (gain J p) sh c)).
Proof.
  intros HJ Hp pool sh.
  pose proof (choose_next_cases uid env db J p HJ Hp) as H.
  cbv zeta in H. fold pool in H. fold sh in H.
  split; [apply shuffle_perm|]. split.
  - intro E. assert (Es : sh = []) by (apply shuffle_nil; exact E).
    rewrite Es in H. exact H.
  - intros first rest Es. rewrite Es in H. cbn [tl] in H.
    destruct (Qltb (uniform env) EPSILON) eqn:Eu; split; intro Hu.
    + exact H.
    + exfalso. apply Hu. apply Qltb_lt. exact Eu.
    + apply Qltb_lt in Hu. congruence.
    + eexists. split; [exact H|]. rewrite Es. apply argmax_from_earliest.
Qed.

(** C5. A judge without a reference item ([prev] unset) is given its
    item by [maybe_init_annotator]; vote() stops at its id test for such
    a judge, and begin() makes the item at hand the reference before it
    selects.  With [next] unset and a pool that is not empty, the pool
    member at the drawn index becomes [next]: no score is computed, the
    transaction returns whatever the draws, the uniform value and the
    clocks are, and every member of the pool is the choice of some
    draw. *)
Theorem selection_without_reference (session : option Z) (env : Env)
        (db : DB) (J : Annotator.t) :
  get_current_annotator session db = Some J ->
  Annotator.prev J = None ->
  Annotator.next J = None ->
  let pool := preferred_applicants db (clock_query env) J in
  pool <> [] ->
  (exists c,
     choice (draws env) pool = Some c
     /\ In c pool
     /\ maybe_init_annotator session env db
        = Done (update_next (Annotator.id J) (Some c) (clock_assign env) db))
  /\ (forall c, In c pool ->
                exists d,
                  maybe_init_annotator
                    session
                    (mkEnv d (uniform env) (clock_query env) (clock_assign env))
                    db
                  = Done (update_next (Annotator.id J) (Some c)
                                      (clock_assign env) db)).
Proof.
  intros HJ Hprev Hnext pool Hne.
  assert (Hrun : forall d c,
             choice d pool = Some c ->
             maybe_init_annotator
               session
               (mkEnv d (uniform env) (clock_query env) (clock_assign env)) db
             = Done (update_next (Annotator.id J) (Some c)
                                 (clock_assign env) db)).
  { intros d c Hc. unfold maybe_init_annotator. rewrite HJ, Hnext.
    cbn [clock_query clock_assign draws]. fold pool.
    destruct pool as [|x r]; [contradiction|]. cbn [nonempty].
    rewrite Hc. reflexivity. }
  split.
  - destruct (choice_In (draws env) pool Hne) as (c & Hc & Hin).
    exists c. split; [exact Hc|]. split; [exact Hin|].
    rewrite <- (Hrun (draws env) c Hc). destruct env; reflexivity.
  - intros c Hin. apply In_nth_error in Hin. destruct Hin as [i Hi].
    exists (fun _ => i). apply Hrun. unfold choice.
    rewrite Nat.mod_small; [exact Hi|].
    apply nth_error_Some. rewrite Hi. discriminate.
Qed.

(** ** The transactions past the id check *)

Lemma rel_Some (db : DB) (k : Z) (X : Applicant.t) :
  applicant_by_id db k = Some X -> rel db (Some k) = Done X.
Proof. intro H. unfold rel. rewrite H. reflexivity. Qed.

Lemma applicant_mark_viewed (item uid : Z) (db : DB) (X : Applicant.t) :
  applicant_by_id db item = Some X ->
  applicant_by_id (mark_viewed item uid db) item
  = Some (Applicant.with_viewed (rel_append uid (Applicant.viewed X)) X).
Proof.
  intro H. unfold mark_viewed.
  rewrite applicant_on_applicant by reflexivity.
  rewrite Z.eqb_refl, H. reflexivity.
Qed.

Lemma vote_matched_inactive (uid p n : Z) (action : string) (env : Env)
      (db : DB) (X Y : Applicant.t) :
  String.eqb action "Skip" = false ->
  applicant_by_id db p = Some X ->
  applicant_by_id db n = Some Y ->
  Applicant.active X && Applicant.active Y = false ->
  let db1 := ignore_append uid n
               (on_annotator uid (Annotator.with_prev (Some n))
                  (mark_viewed n uid db)) in
  vote_matched uid p n action env db
  = (chosen <- choose_next uid env db1 ;;
     Done (update_next uid chosen (clock_assign env) db1)).
Proof.
  intros Ha HX HY Hoff db1. unfold vote_matched. rewrite Ha.
  rewrite (rel_Some db p X HX). cbn [bind].
  assert (Hboth : (if Applicant.active X
                   then next_row <- rel db (Some n) ;;
                        Done (Applicant.active next_row)
                   else Done false) = Done false).
  { destruct (Applicant.active X); [|reflexivity].
    rewrite (rel_Some db n Y HY). cbn [bind]. cbn [andb] in Hoff.
    rewrite Hoff. reflexivity. }
  rewrite Hboth. cbn [bind]. unfold viewed_append.
  rewrite (rel_Some db n Y HY). cbn [bind]. reflexivity.
Qed.

(** C3. A Previous or Current vote with matching ids while [prev] or
    [next] is inactive records no decision and changes no belief value
    ([mu], [sigma_sq], [alpha], [beta]); the old [next] gets the judge in
    its viewed list, becomes [prev] and enters the ignore list (an entry
    that is already there is not written twice: [rel_append]), and the
    new [next] is what [choose_next] returns for the judge whose [prev]
    is the old [next]. *)
Theorem vote_inactive_pair (session : option Z) (form : VoteForm)
        (env : Env) (db : DB) (J : Annotator.t) (p n : Z)
        (X Y : Applicant.t) :
  get_current_annotator session db = Some J ->
  Annotator.prev J = Some p ->
  Annotator.next J = Some n ->
  vf_prev_id form = p ->
  vf_next_id form = n ->
  vf_action form = "Previous"%string \/ vf_action form = "Current"%string ->
  applicant_by_id db p = Some X ->
  applicant_by_id db n = Some Y ->
  Applicant.active X = false \/ Applicant.active Y = false ->
  let uid := Annotator.id J in
  let db1 := ignore_append uid n
               (on_annotator uid (Annotator.with_prev (Some n))
                  (mark_viewed n uid db)) in
  exists chosen J1 db',
    annotator_by_id db1 (Some uid) = Some J1
    /\ Annotator.prev J1 = Some n
    /\ choose_next uid env db1 = Done chosen
    /\ match chosen with
       | Some c => In c (preferred_applicants db1 (clock_query env) J1)
       | None => preferred_applicants db1 (clock_query env) J1 = []
       end
    /\ vote session form env db = Done db'
    /\ db' = update_next uid chosen (clock_assign env) db1
    /\ decisions db' = decisions db
    /\ map (fun a => (Applicant.id a, Applicant.mu a, Applicant.sigma_sq a))
           (applicants db')
       = map (fun a => (Applicant.id a, Applicant.mu a, Applicant.sigma_sq a))
             (applicants db)
    /\ map (fun a => (Annotator.id a, Annotator.alpha a, Annotator.beta a))
           (annotators db')
       = map (fun a => (Annotator.id a, Annotator.alpha a, Annotator.beta a))
             (annotators db)
    /\ (exists Y', applicant_by_id db' n = Some Y'
                   /\ Applicant.viewed Y' = rel_append uid (Applicant.viewed Y))
    /\ (exists J', annotator_by_id db' (Some uid) = Some J'
                   /\ Annotator.prev J' = Some n
                   /\ Annotator.ignore J' = rel_append n (Annotator.ignore J)
                   /\ Annotator.next J' = option_map Applicant.id chosen).
Proof.
  intros HJ Hp Hn Hfp Hfn Hact HX HY Hoff uid db1.
  destruct (current_annotator_id _ _ _ HJ) as [_ HJ']. fold uid in HJ'.
  set (J1 := Annotator.with_ignore (rel_append n (Annotator.ignore J))
               (Annotator.with_prev (Some n) J)).
  assert (HJ1 : annotator_by_id db1 (Some uid) = Some J1).
  { unfold db1, ignore_append. rewrite !annotator_on_annotator by reflexivity.
    unfold mark_viewed. rewrite annotator_on_applicant, HJ'. reflexivity. }
  assert (HY1 : applicant_by_id db1 n
                = Some (Applicant.with_viewed (rel_append uid (Applicant.viewed Y)) Y)).
  { unfold db1, ignore_append. rewrite !applicant_on_annotator.
    apply applicant_mark_viewed. exact HY. }
  destruct (choose_next_total uid env db1 J1 _ HJ1 (rel_Some _ _ _ HY1))
    as (chosen & Hch & Hpool).
  exists chosen, J1, (update_next uid chosen (clock_assign env) db1).
  split; [exact HJ1|]. split; [reflexivity|]. split; [exact Hch|].
  split; [exact Hpool|]. split.
  - unfold vote. rewrite HJ, Hp, Hn, Hfp, Hfn, !Z.eqb_refl. fold uid.
    rewrite (vote_matched_inactive uid p n (vf_action form) env db X Y).
    + fold db1. rewrite Hch. reflexivity.
    + destruct Hact as [-> | ->]; reflexivity.
    + exact HX.
    + exact HY.
    + destruct Hoff as [-> | ->]; [reflexivity | apply andb_false_r].
  - split; [reflexivity|].
    destruct (update_next_beliefs uid chosen (clock_assign env) db1)
      as [Hb1 Hb2].
    split; [rewrite update_next_decisions; reflexivity|].
    split; [rewrite Hb1; unfold db1, ignore_append, mark_viewed;
            cbn [applicants on_annotator on_applicant];
            apply map_set_row; reflexivity|].
    split; [rewrite Hb2; unfold db1, ignore_append, mark_viewed;
            cbn [annotators on_annotator on_applicant];
            rewrite !map_set_row by reflexivity; reflexivity|].
    split.
    + destruct (update_next_applicant uid chosen (clock_assign env) db1 n _ HY1)
        as (Y' & HY' & _ & _ & Hv & _).
      exists Y'. split; [exact HY' | exact Hv].
    + rewrite (update_next_annotator uid chosen (clock_assign env) db1 J1 HJ1).
      eexists. split; [reflexivity|].
      destruct chosen; repeat split.
Qed.

(** C6. In [begin] with the form carrying the id of the judge's [next]
    item X: Continue adds the judge to the viewed list of X, makes X the
    [prev], puts X on the ignore list and stores as [next] what
    [choose_next] returns for the judge whose [prev] is X, an item of the
    pool computed with X ignored (so not X) or none when that pool is
    empty; Skip puts X on the ignore list and unsets [next], touching
    nothing else.  An entry that is already in the ignore or the viewed
    list is not written twice ([rel_append]). *)
Theorem begin_continue_and_skip (session : option Z) (form : BeginForm)
        (env : Env) (db : DB) (J : Annotator.t) (n : Z) (X : Applicant.t) :
  get_current_annotator session db = Some J ->
  Annotator.next J = Some n ->
  bf_applicant_id form = n ->
  applicant_by_id db n = Some X ->
  let uid := Annotator.id J in
  (bf_action form = "Continue"%string ->
   let db3 := on_annotator uid (Annotator.with_prev (Some n))
                (mark_viewed n uid (ignore_append uid n db)) in
   exists chosen J3 db',
     annotator_by_id db3 (Some uid) = Some J3
     /\ Annotator.prev J3 = Some n
     /\ Annotator.ignore J3 = rel_append n (Annotator.ignore J)
     /\ choose_next uid env db3 = Done chosen
     /\ match chosen with
        | Some c => In c (preferred_applicants db3 (clock_query env) J3)
                    /\ Applicant.id c <> n
        | None => preferred_applicants db3 (clock_query env) J3 = []
        end
     /\ begin session form env db = Done db'
     /\ db' = update_next uid chosen (clock_assign env) db3
     /\ (exists X', applicant_by_id db' n = Some X'
                    /\ Applicant.viewed X' = rel_append uid (Applicant.viewed X))
     /\ (exists J', annotator_by_id db' (Some uid) = Some J'
                    /\ Annotator.prev J' = Some n
                    /\ Annotator.ignore J' = rel_append n (Annotator.ignore J)
                    /\ Annotator.next J' = option_map Applicant.id chosen))
  /\ (bf_action form = "Skip"%string ->
      exists db' J',
        begin session form env db = Done db'
        /\ annotator_by_id db' (Some uid) = Some J'
        /\ Annotator.ignore J' = rel_append n (Annotator.ignore J)
        /\ Annotator.next J' = None
        /\ Annotator.prev J' = Annotator.prev J
        /\ applicants db' = applicants db
        /\ decisions db' = decisions db).
Proof.
  intros HJ Hn Hf HX uid.
  destruct (current_annotator_id _ _ _ HJ) as [_ HJ']. fold uid in HJ'.
  split.
  - intros Hact db3.
    set (J3 := Annotator.with_prev (Some n)
                 (Annotator.with_ignore (rel_append n (Annotator.ignore J)) J)).
    assert (HJ3 : annotator_by_id db3 (Some uid) = Some J3).
    { unfold db3, mark_viewed, ignore_append.
      rewrite annotator_on_annotator by reflexivity.
      rewrite annotator_on_applicant.
      rewrite annotator_on_annotator by reflexivity.
      rewrite HJ'. reflexivity. }
    assert (HX3 : applicant_by_id db3 n
                  = Some (Applicant.with_viewed
                            (rel_append uid (Applicant.viewed X)) X)).
    { unfold db3. rewrite applicant_on_annotator.
      apply applicant_mark_viewed. exact HX. }
    destruct (choose_next_total uid env db3 J3 _ HJ3 (rel_Some _ _ _ HX3))
      as (chosen & Hch & Hpool).
    exists chosen, J3, (update_next uid chosen (clock_assign env) db3).
    split; [exact HJ3|]. split; [reflexivity|]. split; [reflexivity|].
    split; [exact Hch|]. split.
    { destruct chosen as [c|]; [|exact Hpool]. split; [exact Hpool|].
      rewrite preferred_pipeline in Hpool. apply pipeline_incl in Hpool.
      apply pool_start_In in Hpool. destruct Hpool as (_ & _ & Hni).
      intro Hc. apply Hni. cbn. rewrite Hc. apply In_rel_append. }
    split.
    { unfold begin. rewrite HJ. cbv zeta. fold uid.
      rewrite Hn, Hf, Z.eqb_refl, Hact.
      change (String.eqb "Continue" "Continue") with true. cbv iota.
      unfold viewed_append.
      rewrite (rel_Some (ignore_append uid n db) n X HX). cbn [bind].
      fold db3. rewrite Hch. reflexivity. }
    split; [reflexivity|]. split.
    + destruct (update_next_applicant uid chosen (clock_assign env) db3 n _ HX3)
        as (X' & HX' & _ & _ & Hv & _).
      exists X'. split; [exact HX' | exact Hv].
    + rewrite (update_next_annotator uid chosen (clock_assign env) db3 J3 HJ3).
      eexists. split; [reflexivity|].
      destruct chosen; repeat split.
  - intro Hact.
    exists (on_annotator uid (Annotator.with_next None)
              (ignore_append uid n db)).
    exists (Annotator.with_next None
              (Annotator.with_ignore (rel_append n (Annotator.ignore J)) J)).
    split.
    { unfold begin. rewrite HJ. cbv zeta. fold uid.
      rewrite Hn, Hf, Z.eqb_refl, Hact. reflexivity. }
    split.
    { unfold ignore_append. rewrite !annotator_on_annotator by reflexivity.
      rewrite HJ'. reflexivity. }
    repeat split.
Qed.

(** C7. [maybe_init_annotator] always returns for an existing judge,
    and running it again on its result changes nothing, whatever the
    clock and the draws of the second run.  When [next] is already set
    the database is left as it was; when [next] is unset and the pool is
    not empty, [next] becomes a member of that pool. *)
Theorem maybe_init_idempotent (session : option Z) (env env' : Env)
        (db : DB) (J : Annotator.t) :
  get_current_annotator session db = Some J ->
  exists db',
    maybe_init_annotator session env db = Done db'
    /\ maybe_init_annotator session env' db' = Done db'
    /\ (Annotator.next J <> None -> db' = db)
    /\ (Annotator.next J = None ->
        preferred_applicants db (clock_query env) J <> [] ->
        exists c J',
          In c (preferred_applicants db (clock_query env) J)
          /\ get_current_annotator session db' = Some J'
          /\ Annotator.next J' = Some (Applicant.id c)).
Proof.
  intro HJ.
  destruct (current_annotator_id _ _ _ HJ) as [Hs HJ'].
  destruct (Annotator.next J) as [n|] eqn:Hn.
  - exists db.
    assert (H : forall e, maybe_init_annotator session e db = Done db).
    { intro e. unfold maybe_init_annotator. rewrite HJ, Hn. reflexivity. }
    split; [apply H|]. split; [apply H|].
    split; [reflexivity|]. intro C. discriminate.
  - destruct (preferred_applicants db (clock_query env) J) as [|x r] eqn:Ep.
    + exists db.
      assert (H : forall e, maybe_init_annotator session e db = Done db).
      { intro e. unfold maybe_init_annotator. rewrite HJ, Hn.
        rewrite (preferred_nil_clock db (clock_query env) (clock_query e) J Ep).
        reflexivity. }
      split; [apply H|]. split; [apply H|].
      split; [reflexivity|]. intros _ C. contradiction.
    + assert (Hne : x :: r <> []) by discriminate.
      destruct (choice_In (draws env) (x :: r) Hne) as (c & Hc & Hin).
      set (db' := update_next (Annotator.id J) (Some c) (clock_assign env) db).
      assert (HJn : get_current_annotator session db'
                    = Some (Annotator.with_next (Some (Applicant.id c))
                              (Annotator.with_updated
                                 (Some (clock_assign env)) J))).
      { rewrite Hs. unfold get_current_annotator, db'.
        apply (update_next_annotator (Annotator.id J) (Some c)). exact HJ'. }
      exists db'. split.
      { unfold maybe_init_annotator. rewrite HJ, Hn, Ep. cbn [nonempty].
        rewrite Hc. reflexivity. }
      split.
      { unfold maybe_init_annotator. rewrite HJn. reflexivity. }
      split; [intro C; contradiction|].
      intros _ _. eexists c, _. split; [exact Hin|].
      split; [exact HJn | reflexivity].
Qed.

(** ** Outcomes *)

Lemma bind_Done {A B : Type} (m : outcome A) (k : A -> outcome B) (y : B) :
  bind m k = Done y -> exists x, m = Done x /\ k x = Done y.
Proof.
  destruct m as [x|e]; cbn; intro H; [|discriminate].
  exists x. split; [reflexivity | exact H].
Qed.

Lemma rel_Done (db : DB) (fk : option Z) (X : Applicant.t) :
  rel db fk = Done X ->
  exists k, fk = Some k /\ applicant_by_id db k = Some X
            /\ Applicant.id X = k /\ In X (applicants db).
Proof.
  unfold rel. destruct fk as [k|]; [|discriminate].
  destruct (applicant_by_id db k) as [x|] eqn:E; [|discriminate].
  intro H. injection H as ->. exists k.
  destruct (get_row_key _ _ _ _ E) as [Hk Hin].
  repeat split; assumption.
Qed.

Lemma self_Done (db : DB) (uid : Z) (J : Annotator.t) :
  self db uid = Done J <-> annotator_by_id db (Some uid) = Some J.
Proof.
  unfold self. destruct (annotator_by_id db (Some uid)) as [a|]; split;
    intro H; try discriminate; injection H as ->; reflexivity.
Qed.

(** ** Tables row by row *)

Lemma extends_refl {A : Type} (l : list A) : extends l l.
Proof. exists []. symmetry. apply app_nil_r. Qed.

Lemma extends_trans {A : Type} (l1 l2 l3 : list A) :
  extends l1 l2 -> extends l2 l3 -> extends l1 l3.
Proof.
  intros [t1 H1] [t2 H2]. exists (t1 ++ t2). subst. symmetry. apply app_assoc.
Qed.

Lemma extends_app {A : Type} (l t : list A) : extends l (l ++ t).
Proof. exists t. reflexivity. Qed.

Lemma extends_rel_append (x : Z) (l : list Z) : extends l (rel_append x l).
Proof.
  unfold rel_append. destruct (mem x l); [exists []; symmetry; apply app_nil_r|].
  exists [x]. reflexivity.
Qed.

Lemma extends_In {A : Type} (l l' : list A) (x : A) :
  extends l l' -> In x l -> In x l'.
Proof. intros [t ->] H. apply in_or_app. left. exact H. Qed.

Lemma set_row_compose {A : Type} (key : A -> Z) (f g : A -> A)
      (Hg : forall r, key (g r) = key r) (k : Z) (rows : list A) :
  set_row key k f (set_row key k g rows)
  = set_row key k (fun r => f (g r)) rows.
Proof.
  unfold set_row. rewrite map_map. apply map_ext. intro r.
  destruct (key r =? k) eqn:E.
  - rewrite Hg, E. reflexivity.
  - rewrite E. reflexivity.
Qed.

Lemma set_row_same {A : Type} (key : A -> Z) (k : Z) (rows : list A) :
  set_row key k (fun r => r) rows = rows.
Proof.
  unfold set_row. rewrite <- (map_id rows) at 2. apply map_ext. intro r.
  destruct (key r =? k); reflexivity.
Qed.

Lemma Forall2_same {A : Type} (R : A -> A -> Prop) (l : list A) :
  (forall x, R x x) -> Forall2 R l l.
Proof. intro H. induction l; constructor; auto. Qed.

Lemma Forall2_compose {A : Type} (R : A -> A -> Prop) (l1 l2 l3 : list A) :
  (forall x y z, R x y -> R y z -> R x z) ->
  Forall2 R l1 l2 -> Forall2 R l2 l3 -> Forall2 R l1 l3.
Proof.
  intros HR H12. revert l3. induction H12 as [|x y l1 l2 Hxy H12 IH];
    intros l3 H23; inversion H23; subst; constructor.
  - eapply HR; eassumption.
  - apply IH. assumption.
Qed.

Lemma Forall2_set_row {A : Type} (key : A -> Z) (R : A -> A -> Prop)
      (f : A -> A) (k : Z) (rows : list A) :
  (forall x, R x x) -> (forall x, key x = k -> R x (f x)) ->
  Forall2 R rows (set_row key k f rows).
Proof.
  intros Hr Hf. unfold set_row. induction rows as [|r rows IH]; cbn;
    constructor; [|exact IH].
  destruct (key r =? k) eqn:E; [|apply Hr].
  apply Hf. apply Z.eqb_eq. exact E.
Qed.

Lemma Forall2_In_l {A : Type} (R : A -> A -> Prop) (l l' : list A) (x : A) :
  Forall2 R l l' -> In x l -> exists y, In y l' /\ R x y.
Proof.
  induction 1 as [|a b l l' Hab H IH]; intros Hin; [contradiction|].
  destruct Hin as [<-|Hin].
  - exists b. split; [left; reflexivity | exact Hab].
  - destruct (IH Hin) as (y & Hy & Hxy). exists y. split; [right|]; assumption.
Qed.

Lemma Forall2_In_r {A : Type} (R : A -> A -> Prop) (l l' : list A) (y : A) :
  Forall2 R l l' -> In y l' -> exists x, In x l /\ R x y.
Proof.
  induction 1 as [|a b l l' Hab H IH]; intros Hin; [contradiction|].
  destruct Hin as [<-|Hin].
  - exists a. split; [left; reflexivity | exact Hab].
  - destruct (IH Hin) as (x & Hx & Hxy). exists x. split; [right|]; assumption.
Qed.

Lemma Forall2_get_row {A : Type} (key : A -> Z) (R : A -> A -> Prop)
      (l l' : list A) (k : Z) :
  (forall x y, R x y -> key y = key x) ->
  Forall2 R l l' ->
  match get_row key k l, get_row key k l' with
  | Some x, Some y => R x y
  | None, None => True
  | _, _ => False
  end.
Proof.
  intros Hk H. unfold get_row. induction H as [|a b l l' Hab H IH]; cbn.
  - exact I.
  - rewrite (Hk a b Hab). destruct (key a =? k); [exact Hab | exact IH].
Qed.

Lemma get_row_has {A : Type} (key : A -> Z) (k : Z) (rows : list A) :
  (exists x, get_row key k rows = Some x)
  <-> (exists x, In x rows /\ key x = k).
Proof.
  split.
  - intros [x H]. exists x. destruct (get_row_key _ _ _ _ H) as [Hk Hin].
    split; assumption.
  - intros (x & Hin & Hk). unfold get_row.
    destruct (find (fun r => key r =? k) rows) as [y|] eqn:E.
    + exists y. reflexivity.
    + exfalso. pose proof (find_none _ _ E x Hin) as Hn. cbn in Hn.
      apply Z.eqb_neq in Hn. contradiction.
Qed.

Lemma In_set_row {A : Type} (key : A -> Z) (f : A -> A) (k : Z)
      (rows : list A) (y : A) :
  In y (set_row key k f rows) ->
  exists x, In x rows /\ ((key x = k /\ y = f x) \/ (key x <> k /\ y = x)).
Proof.
  unfold set_row. intro H. apply in_map_iff in H. destruct H as (x & Hy & Hin).
  exists x. split; [exact Hin|].
  destruct (key x =? k) eqn:E.
  - left. split; [apply Z.eqb_eq; exact E | symmetry; exact Hy].
  - right. split; [apply Z.eqb_neq; exact E | symmetry; exact Hy].
Qed.

Lemma applicant_kept_refl (x : Applicant.t) : applicant_kept x x.
Proof. repeat split. apply extends_refl. Qed.

Lemma applicant_kept_trans (x y z : Applicant.t) :
  applicant_kept x y -> applicant_kept y z -> applicant_kept x z.
Proof.
  intros (H1 & H2 & H3) (H4 & H5 & H6). split; [congruence|].
  split; [congruence|]. eapply extends_trans; eassumption.
Qed.

Lemma kept_on_applicant (k : Z) (f : Applicant.t -> Applicant.t) (db : DB) :
  (forall x, applicant_kept x (f x)) ->
  Forall2 applicant_kept (applicants db) (applicants (on_applicant k f db)).
Proof.
  intro Hf. cbn. apply Forall2_set_row.
  - apply applicant_kept_refl.
  - intros x _. apply Hf.
Qed.

Lemma kept_has_applicant (rows rows' : list Applicant.t) (k : Z) :
  Forall2 applicant_kept rows rows' ->
  has_applicant rows k <-> has_applicant rows' k.
Proof.
  intro H. split.
  - intros (x & Hin & Hk). destruct (Forall2_In_l _ _ _ _ H Hin) as (y & Hy & Hxy).
    exists y. split; [exact Hy|]. destruct Hxy as (E & _). congruence.
  - intros (y & Hin & Hk). destruct (Forall2_In_r _ _ _ _ H Hin) as (x & Hx & Hxy).
    exists x. split; [exact Hx|]. destruct Hxy as (E & _). congruence.
Qed.

(** ** The footprint of the transactions *)

Lemma update_next_annotators (uid : Z) (c : option Applicant.t) (now : Z)
      (db : DB) :
  annotators (update_next uid c now db)
  = set_row Annotator.id uid (assign c now) (annotators db).
Proof.
  destruct c as [n|]; cbn [update_next on_annotator on_applicant annotators];
    [|reflexivity].
  rewrite set_row_compose by reflexivity. reflexivity.
Qed.

Lemma update_next_kept (uid : Z) (c : option Applicant.t) (now : Z) (db : DB) :
  Forall2 applicant_kept (applicants db) (applicants (update_next uid c now db)).
Proof.
  destruct c as [n|]; cbn.
  - apply Forall2_set_row; [apply applicant_kept_refl|].
    intros x _. repeat split. apply extends_refl.
  - apply Forall2_same. apply applicant_kept_refl.
Qed.

Lemma choose_next_Done (uid : Z) (env : Env) (db : DB) (J : Annotator.t)
      (r : option Applicant.t) :
  annotator_by_id db (Some uid) = Some J ->
  choose_next uid env db = Done r ->
  match r with
  | Some c => In c (preferred_applicants db (clock_query env) J)
  | None => preferred_applicants db (clock_query env) J = []
  end.
Proof.
  intros HJ H. unfold choose_next, self in H. rewrite HJ in H. cbn [bind] in H.
  pose proof (shuffle_perm (draws env)
                (preferred_applicants db (clock_query env) J)) as HP.
  destruct (shuffle (draws env)
              (preferred_applicants db (clock_query env) J))
    as [|first rest] eqn:E.
  - injection H as <-. apply shuffle_nil in E. exact E.
  - destruct (Qltb (uniform env) EPSILON).
    + injection H as <-. eapply Permutation_in; [exact HP | left; reflexivity].
    + apply bind_Done in H. destruct H as (pr & _ & H).
      cbn [argmax bind] in H. injection H as <-.
      eapply Permutation_in; [exact HP|].
      apply (earliest_max_In (gain J pr)). apply argmax_from_earliest.
Qed.

Lemma preferred_In (db : DB) (now : Z) (J : Annotator.t) (c : Applicant.t) :
  In c (preferred_applicants db now J) ->
  In c (applicants db) /\ Applicant.active c = true
  /\ ~ In (Applicant.id c) (Annotator.ignore J).
Proof.
  rewrite preferred_pipeline. intro H.
  apply pool_start_In. eapply pipeline_incl. exact H.
Qed.

Lemma assign_fields (c : option Applicant.t) (now : Z) (a : Annotator.t) :
  Annotator.id (assign c now a) = Annotator.id a
  /\ Annotator.active (assign c now a) = Annotator.active a
  /\ Annotator.ignore (assign c now a) = Annotator.ignore a
  /\ Annotator.prev (assign c now a) = Annotator.prev a
  /\ Annotator.next (assign c now a) = option_map Applicant.id c.
Proof. destruct c; repeat split. Qed.

Lemma Forall2_compose2 {A : Type} (R S T : A -> A -> Prop)
      (l1 l2 l3 : list A) :
  (forall x y z, R x y -> S y z -> T x z) ->
  Forall2 R l1 l2 -> Forall2 S l2 l3 -> Forall2 T l1 l3.
Proof.
  intros HR H12. revert l3. induction H12 as [|x y l1 l2 Hxy H12 IH];
    intros l3 H23; inversion H23; subst; constructor.
  - eapply HR; eassumption.
  - apply IH. assumption.
Qed.

Lemma same_viewed (l l' : list Applicant.t) :
  map (fun a => (Applicant.id a, Applicant.viewed a)) l'
  = map (fun a => (Applicant.id a, Applicant.viewed a)) l ->
  Forall2 (fun x x' => Applicant.id x' = Applicant.id x
                       /\ Applicant.viewed x' = Applicant.viewed x) l l'.
Proof.
  revert l'. induction l as [|x l IH]; intros [|y l'] H; cbn in H;
    try discriminate; constructor.
  - injection H as E1 E2 _. split; assumption.
  - apply IH. injection H as _ _ E. exact E.
Qed.

Lemma update_next_viewed (uid : Z) (c : option Applicant.t) (now : Z)
      (db : DB) :
  map (fun a => (Applicant.id a, Applicant.viewed a))
      (applicants (update_next uid c now db))
  = map (fun a => (Applicant.id a, Applicant.viewed a)) (applicants db).
Proof.
  destruct c as [n|]; cbn [update_next applicants on_annotator on_applicant];
    [|reflexivity].
  apply map_set_row. reflexivity.
Qed.

Lemma perform_vote_viewed (uid : Z) (next_won : bool) (db db' : DB) :
  perform_vote uid next_won db = Done db' ->
  map (fun a => (Applicant.id a, Applicant.viewed a)) (applicants db')
  = map (fun a => (Applicant.id a, Applicant.viewed a)) (applicants db).
Proof.
  unfold perform_vote. intro H.
  apply bind_Done in H. destruct H as (J & _ & H).
  apply bind_Done in H. destruct H as (winner & _ & H).
  apply bind_Done in H. destruct H as (loser & _ & H).
  destruct (update (Annotator.alpha J) (Annotator.beta J)
                   (Applicant.mu winner) (Applicant.sigma_sq winner)
                   (Applicant.mu loser) (Applicant.sigma_sq loser))
    as [[[[[ua ub] wm] ws] lm] ls].
  injection H as <-. cbn [applicants on_applicant on_annotator].
  rewrite !map_set_row by reflexivity. reflexivity.
Qed.

Lemma viewed_by_same (uid : Z) (ign : list Z) (l : list Applicant.t) :
  Forall2 (viewed_by uid ign) l l.
Proof.
  apply Forall2_same. intro x. split; [reflexivity|].
  intros j Hj. left. exact Hj.
Qed.

(* the viewed mark on the rows of [n], an item the judge ignores *)
Lemma viewed_by_mark (uid n : Z) (ign : list Z) (l l1 : list Applicant.t) :
  In n ign ->
  map (fun a => (Applicant.id a, Applicant.viewed a)) l1
  = map (fun a => (Applicant.id a, Applicant.viewed a)) l ->
  Forall2 (viewed_by uid ign) l
          (set_row Applicant.id n
                   (fun a => Applicant.with_viewed (rel_append uid (Applicant.viewed a)) a)
                   l1).
Proof.
  intros Hn Hm.
  apply (Forall2_compose2
           (fun x x' => Applicant.id x' = Applicant.id x
                        /\ Applicant.viewed x' = Applicant.viewed x)
           (fun y z => (Applicant.id y = n /\ Applicant.id z = n
                        /\ Applicant.viewed z = rel_append uid (Applicant.viewed y))
                       \/ z = y)
           (viewed_by uid ign) l l1).
  - intros x y z (E1 & E2) [(E3 & E5 & E4) | ->].
    + split; [congruence|]. intros j Hj.
      rewrite E4, E2 in Hj. apply rel_append_In in Hj.
      destruct Hj as [Hj | ->]; [left; exact Hj|].
      right. split; [reflexivity|]. rewrite <- E1, E3. exact Hn.
    + split; [exact E1|]. intros j Hj. left. rewrite <- E2. exact Hj.
  - apply same_viewed. exact Hm.
  - apply Forall2_set_row.
    + intro x. right. reflexivity.
    + intros x Hx. left. split; [exact Hx|]. split; [exact Hx | reflexivity].
Qed.

(* the marks of a transaction followed by the assignment of [chosen] *)
Lemma act_assign (uid : Z) (J : Annotator.t) (db db1 : DB)
      (F0 : Annotator.t -> Annotator.t) (chosen : option Applicant.t)
      (clk now : Z) :
  annotator_by_id db (Some uid) = Some J ->
  annotators db1 = set_row Annotator.id uid F0 (annotators db) ->
  (forall a,
      Annotator.id (F0 a) = Annotator.id a
      /\ Annotator.active (F0 a) = Annotator.active a
      /\ extends (Annotator.ignore a) (Annotator.ignore (F0 a))) ->
  (forall a,
      Annotator.prev (F0 a) = Annotator.prev a
      \/ exists n, Annotator.prev (F0 a) = Some n
                   /\ In n (Annotator.ignore (F0 a))
                   /\ has_applicant (applicants db) n) ->
  Forall2 applicant_kept (applicants db) (applicants db1) ->
  (decisions db1 = decisions db
   \/ exists w l, decisions db1 = decisions db ++ [Decision.mk uid w l]) ->
  Forall2 (viewed_by uid (Annotator.ignore (F0 J)))
          (applicants db) (applicants db1) ->
  match chosen with
  | Some c => In c (preferred_applicants db1 clk (F0 J))
  | None => True
  end ->
  judge_act uid J db (update_next uid chosen now db1).
Proof.
  intros HJ Hann HF0 Hprev Hkept Hdec HV Hch.
  exists (fun a => assign chosen now (F0 a)).
  split.
  { rewrite update_next_annotators, Hann. apply set_row_compose.
    intro r. apply HF0. }
  split.
  { intro a. destruct (assign_fields chosen now (F0 a)) as (E1 & E2 & E3 & _).
    destruct (HF0 a) as (G1 & G2 & G3).
    split; [congruence|]. split; [congruence|]. rewrite E3. exact G3. }
  split.
  { intro a. destruct (assign_fields chosen now (F0 a)) as (_ & _ & E3 & E4 & _).
    rewrite E3, E4. apply Hprev. }
  assert (Hrow : forall c, chosen = Some c ->
                           exists x, In x (applicants db)
                                     /\ Applicant.id x = Applicant.id c
                                     /\ Applicant.active x = true
                                     /\ ~ In (Applicant.id c)
                                            (Annotator.ignore (F0 J))).
  { intros c ->. apply preferred_In in Hch. destruct Hch as (Hin & Hact & Hni).
    destruct (Forall2_In_r _ _ _ _ Hkept Hin) as (x & Hx & (E1 & E2 & _)).
    exists x. split; [exact Hx|]. split; [congruence|].
    split; [congruence | exact Hni]. }
  split.
  { intro a. destruct (assign_fields chosen now (F0 a)) as (_ & _ & _ & _ & E5).
    rewrite E5. destruct chosen as [c|]; [|right; left; reflexivity].
    right. right. exists (Applicant.id c). split; [reflexivity|].
    destruct (Hrow c eq_refl) as (x & Hx & Hid & _). exists x.
    split; assumption. }
  split.
  { destruct (assign_fields chosen now (F0 J)) as (_ & _ & E3 & _ & E5).
    rewrite E5, E3. destruct chosen as [c|]; [|right; left; reflexivity].
    right. right. destruct (Hrow c eq_refl) as (x & Hx & Hid & Hact & Hni).
    exists x. cbn. rewrite Hid. repeat split; assumption. }
  split.
  { eapply Forall2_compose; [exact applicant_kept_trans | exact Hkept |].
    apply update_next_kept. }
  split; [rewrite update_next_decisions; exact Hdec|].
  destruct (assign_fields chosen now (F0 J)) as (_ & _ & E3 & _).
  rewrite E3.
  apply (Forall2_compose2
           (viewed_by uid (Annotator.ignore (F0 J)))
           (fun x x' => Applicant.id x' = Applicant.id x
                        /\ Applicant.viewed x' = Applicant.viewed x)
           (viewed_by uid (Annotator.ignore (F0 J)))
           (applicants db) (applicants db1)).
  - intros x y z (Hid & Hxy) (E0 & E). split; [congruence|].
    intros j Hj. rewrite E in Hj. apply Hxy. exact Hj.
  - exact HV.
  - apply same_viewed. apply update_next_viewed.
Qed.

Lemma perform_vote_Done (uid : Z) (next_won : bool) (db db' : DB) :
  perform_vote uid next_won db = Done db' ->
  exists ua ub,
    annotators db'
    = set_row Annotator.id uid
              (fun a => Annotator.with_beta ub (Annotator.with_alpha ua a))
              (annotators db)
    /\ Forall2 applicant_kept (applicants db) (applicants db')
    /\ decisions db' = decisions db.
Proof.
  unfold perform_vote. intro H.
  apply bind_Done in H. destruct H as (J & _ & H).
  apply bind_Done in H. destruct H as (winner & _ & H).
  apply bind_Done in H. destruct H as (loser & _ & H).
  destruct (update (Annotator.alpha J) (Annotator.beta J)
                   (Applicant.mu winner) (Applicant.sigma_sq winner)
                   (Applicant.mu loser) (Applicant.sigma_sq loser))
    as [[[[[ua ub] wm] ws] lm] ls].
  injection H as <-. exists ua, ub. split.
  { cbn. apply set_row_compose. reflexivity. }
  split; [|reflexivity].
  cbn [applicants on_applicant on_annotator].
  repeat (eapply Forall2_compose;
          [exact applicant_kept_trans | |
           apply Forall2_set_row;
           [apply applicant_kept_refl
           | intros x _; repeat split; apply extends_refl]]).
  apply Forall2_same. apply applicant_kept_refl.
Qed.

Lemma act_same (uid : Z) (J : Annotator.t) (db : DB) : judge_act uid J db db.
Proof.
  exists (fun a => a). split; [symmetry; apply set_row_same|].
  split; [intro a; repeat split; apply extends_refl|].
  split; [intro a; left; reflexivity|].
  split; [intro a; left; reflexivity|].
  split; [left; reflexivity|].
  split; [apply Forall2_same; apply applicant_kept_refl|].
  split; [left; reflexivity | apply viewed_by_same].
Qed.

Lemma lookup_set_row (uid : Z) (J : Annotator.t) (db db1 : DB)
      (F0 : Annotator.t -> Annotator.t) :
  annotator_by_id db (Some uid) = Some J ->
  annotators db1 = set_row Annotator.id uid F0 (annotators db) ->
  (forall a, Annotator.id (F0 a) = Annotator.id a) ->
  annotator_by_id db1 (Some uid) = Some (F0 J).
Proof.
  intros HJ Hann Hid. cbn in *. rewrite Hann.
  rewrite get_row_set_row_same by exact Hid. rewrite HJ. reflexivity.
Qed.

(* the marks of a transaction followed by update_next(choose_next(...)) *)
Lemma act_choose (uid : Z) (J : Annotator.t) (db db1 : DB)
      (F0 : Annotator.t -> Annotator.t) (chosen : option Applicant.t)
      (env : Env) :
  annotator_by_id db (Some uid) = Some J ->
  annotators db1 = set_row Annotator.id uid F0 (annotators db) ->
  (forall a,
      Annotator.id (F0 a) = Annotator.id a
      /\ Annotator.active (F0 a) = Annotator.active a
      /\ extends (Annotator.ignore a) (Annotator.ignore (F0 a))) ->
  (forall a,
      Annotator.prev (F0 a) = Annotator.prev a
      \/ exists n, Annotator.prev (F0 a) = Some n
                   /\ In n (Annotator.ignore (F0 a))
                   /\ has_applicant (applicants db) n) ->
  Forall2 applicant_kept (applicants db) (applicants db1) ->
  (decisions db1 = decisions db
   \/ exists w l, decisions db1 = decisions db ++ [Decision.mk uid w l]) ->
  Forall2 (viewed_by uid (Annotator.ignore (F0 J)))
          (applicants db) (applicants db1) ->
  choose_next uid env db1 = Done chosen ->
  judge_act uid J db (update_next uid chosen (clock_assign env) db1).
Proof.
  intros HJ Hann HF0 Hprev Hkept Hdec HV Hch.
  apply (act_assign uid J db db1 F0 chosen (clock_query env)); try assumption.
  assert (HJ1 : annotator_by_id db1 (Some uid) = Some (F0 J)).
  { apply (lookup_set_row uid J db); [exact HJ | exact Hann|].
    intro a. apply HF0. }
  pose proof (choose_next_Done uid env db1 (F0 J) chosen HJ1 Hch) as H.
  destruct chosen; [exact H | exact I].
Qed.

Lemma vote_matched_act (uid p n : Z) (action : string) (env : Env)
      (db db' : DB) (J : Annotator.t) :
  annotator_by_id db (Some uid) = Some J ->
  vote_matched uid p n action env db = Done db' ->
  judge_act uid J db db'.
Proof.
  intros HJ H. unfold vote_matched in H.
  apply bind_Done in H. destruct H as (db1 & H1 & H).
  apply bind_Done in H. destruct H as (chosen & Hch & H).
  injection H as <-.
  destruct (String.eqb action "Skip").
  - injection H1 as <-.
    apply (act_choose uid J db _
             (fun a => Annotator.with_ignore (rel_append n (Annotator.ignore a)) a)
             chosen env); try assumption.
    + reflexivity.
    + intro a. repeat split. apply extends_rel_append.
    + intro a. left. reflexivity.
    + apply Forall2_same. apply applicant_kept_refl.
    + left. reflexivity.
    + apply viewed_by_same.
  - apply bind_Done in H1. destruct H1 as (prev_row & _ & H1).
    apply bind_Done in H1. destruct H1 as (both & _ & H1).
    apply bind_Done in H1. destruct H1 as (db_voted & Hv & H1).
    apply bind_Done in H1. destruct H1 as (db_viewed & Hw & H1).
    injection H1 as <-.
    assert (Hvoted :
              exists Fv,
                annotators db_voted
                = set_row Annotator.id uid Fv (annotators db)
                /\ (forall a,
                      Annotator.id (Fv a) = Annotator.id a
                      /\ Annotator.active (Fv a) = Annotator.active a
                      /\ Annotator.ignore (Fv a) = Annotator.ignore a)
                /\ Forall2 applicant_kept (applicants db) (applicants db_voted)
                /\ (decisions db_voted = decisions db
                    \/ exists w l, decisions db_voted
                                   = decisions db ++ [Decision.mk uid w l])).
    { assert (Hpv : forall nw d dbv,
                 perform_vote uid nw db = Done dbv ->
                 exists Fv,
                   annotators (add_decision d dbv)
                   = set_row Annotator.id uid Fv (annotators db)
                   /\ (forall a,
                         Annotator.id (Fv a) = Annotator.id a
                         /\ Annotator.active (Fv a) = Annotator.active a
                         /\ Annotator.ignore (Fv a) = Annotator.ignore a)
                   /\ Forall2 applicant_kept (applicants db)
                              (applicants (add_decision d dbv))
                   /\ decisions (add_decision d dbv) = decisions dbv ++ [d]).
      { intros nw d dbv Hp.
        destruct (perform_vote_Done uid nw db dbv Hp) as (ua & ub & E1 & E2 & _).
        eexists. split; [exact E1|]. split; [intro a; repeat split|].
        split; [exact E2 | reflexivity]. }
      destruct both.
      - destruct (String.eqb action "Previous").
        + apply bind_Done in Hv. destruct Hv as (dbv & Hp & Hv).
          injection Hv as <-.
          destruct (Hpv false (Decision.mk uid p n) dbv Hp)
            as (Fv & E1 & E2 & E3 & E4).
          exists Fv. split; [exact E1|]. split; [exact E2|].
          split; [exact E3|]. right. exists p, n. rewrite E4.
          destruct (perform_vote_Done uid false db dbv Hp) as (_ & _ & _ & _ & E5).
          rewrite E5. reflexivity.
        + destruct (String.eqb action "Current"); [|discriminate].
          apply bind_Done in Hv. destruct Hv as (dbv & Hp & Hv).
          injection Hv as <-.
          destruct (Hpv true (Decision.mk uid n p) dbv Hp)
            as (Fv & E1 & E2 & E3 & E4).
          exists Fv. split; [exact E1|]. split; [exact E2|].
          split; [exact E3|]. right. exists n, p. rewrite E4.
          destruct (perform_vote_Done uid true db dbv Hp) as (_ & _ & _ & _ & E5).
          rewrite E5. reflexivity.
      - injection Hv as <-. exists (fun a => a).
        split; [symmetry; apply set_row_same|].
        split; [intro a; repeat split|].
        split; [apply Forall2_same; apply applicant_kept_refl|].
        left. reflexivity. }
    destruct Hvoted as (Fv & E1 & E2 & E3 & E4).
    unfold viewed_append in Hw.
    apply bind_Done in Hw. destruct Hw as (Y & HY & Hw). injection Hw as <-.
    apply rel_Done in HY. destruct HY as (k & Hk & _ & HidY & HinY).
    injection Hk as <-.
    assert (Hn : has_applicant (applicants db) n).
    { apply (kept_has_applicant _ _ n E3). exists Y. split; assumption. }
    apply (act_choose uid J db _
             (fun a => Annotator.with_ignore
                         (rel_append n (Annotator.ignore (Fv a)))
                         (Annotator.with_prev (Some n) (Fv a)))
             chosen env); try assumption.
    + cbn [annotators ignore_append on_annotator mark_viewed on_applicant].
      rewrite E1.
      rewrite set_row_compose by reflexivity.
      rewrite set_row_compose by (intro r; apply E2).
      reflexivity.
    + intro a. destruct (E2 a) as (G1 & G2 & G3).
      split; [exact G1|]. split; [exact G2|]. cbn. rewrite G3.
      apply extends_rel_append.
    + intro a. right. exists n. split; [reflexivity|].
      split; [cbn; apply In_rel_append | exact Hn].
    + cbn [applicants ignore_append on_annotator].
      eapply Forall2_compose; [exact applicant_kept_trans | exact E3 |].
      apply kept_on_applicant. intro x. repeat split. apply extends_rel_append.
    + cbn [applicants ignore_append mark_viewed on_annotator on_applicant
           Annotator.ignore Annotator.with_ignore].
      apply viewed_by_mark; [apply In_rel_append|].
      destruct both.
      * destruct (String.eqb action "Previous").
        -- apply bind_Done in Hv. destruct Hv as (dbv & Hp & Hv).
           injection Hv as <-.
           exact (perform_vote_viewed uid false db dbv Hp).
        -- destruct (String.eqb action "Current"); [|discriminate].
           apply bind_Done in Hv. destruct Hv as (dbv & Hp & Hv).
           injection Hv as <-.
           exact (perform_vote_viewed uid true db dbv Hp).
      * injection Hv as <-. reflexivity.
Qed.

Lemma begin_act (session : option Z) (form : BeginForm) (env : Env)
      (db db' : DB) (J : Annotator.t) :
  get_current_annotator session db = Some J ->
  begin session form env db = Done db' ->
  judge_act (Annotator.id J) J db db'.
Proof.
  intros HJ H. destruct (current_annotator_id _ _ _ HJ) as [_ HJ'].
  unfold begin in H. rewrite HJ in H. cbv zeta in H.
  set (uid := Annotator.id J) in *.
  destruct (Annotator.next J) as [n|]; [|discriminate].
  destruct (n =? bf_applicant_id form);
    [|injection H as <-; apply act_same].
  destruct (String.eqb (bf_action form) "Continue").
  - apply bind_Done in H. destruct H as (db2 & Hw & H).
    apply bind_Done in H. destruct H as (chosen & Hch & H).
    injection H as <-.
    unfold viewed_append in Hw.
    apply bind_Done in Hw. destruct Hw as (X & HX & Hw). injection Hw as <-.
    apply rel_Done in HX. destruct HX as (k & Hk & _ & HidX & HinX).
    injection Hk as <-.
    apply (act_choose uid J db _
             (fun a => Annotator.with_prev (Some n)
                         (Annotator.with_ignore (rel_append n (Annotator.ignore a)) a))
             chosen env); try assumption.
    + cbn [annotators ignore_append on_annotator mark_viewed on_applicant].
      rewrite set_row_compose by reflexivity. reflexivity.
    + intro a. repeat split. apply extends_rel_append.
    + intro a. right. exists n. split; [reflexivity|].
      split; [cbn; apply In_rel_append|].
      exists X. split; [exact HinX | exact HidX].
    + apply (kept_on_applicant n _ (ignore_append uid n db)).
      intro x. repeat split. apply extends_rel_append.
    + left. reflexivity.
    + cbn [applicants ignore_append mark_viewed on_annotator on_applicant
           Annotator.ignore Annotator.with_ignore Annotator.with_prev].
      apply viewed_by_mark; [apply In_rel_append|].
      reflexivity.
  - assert (Hmark : forall c : option Applicant.t,
               c = None ->
               judge_act uid J db
                 (update_next uid c 0 (ignore_append uid n db))).
    { intros c ->.
      apply (act_assign uid J db _
               (fun a => Annotator.with_ignore (rel_append n (Annotator.ignore a)) a)
               None 0 0); try assumption.
      - reflexivity.
      - intro a. repeat split. apply extends_rel_append.
      - intro a. left. reflexivity.
      - apply Forall2_same. apply applicant_kept_refl.
      - left. reflexivity.
      - apply viewed_by_same.
      - exact I. }
    destruct (String.eqb (bf_action form) "Skip"); injection H as <-.
    + exact (Hmark None eq_refl).
    + exists (fun a => Annotator.with_ignore (rel_append n (Annotator.ignore a)) a).
      split; [reflexivity|].
      split; [intro a; repeat split; apply extends_rel_append|].
      split; [intro a; left; reflexivity|].
      split; [intro a; left; reflexivity|].
      split; [left; reflexivity|].
      split; [apply Forall2_same; apply applicant_kept_refl|].
      split; [left; reflexivity | apply viewed_by_same].
Qed.

Lemma maybe_init_act (session : option Z) (env : Env) (db db' : DB)
      (J : Annotator.t) :
  get_current_annotator session db = Some J ->
  maybe_init_annotator session env db = Done db' ->
  judge_act (Annotator.id J) J db db'.
Proof.
  intros HJ H. destruct (current_annotator_id _ _ _ HJ) as [_ HJ'].
  unfold maybe_init_annotator in H. rewrite HJ in H.
  destruct (Annotator.next J); [injection H as <-; apply act_same|].
  destruct (preferred_applicants db (clock_query env) J) as [|x r] eqn:Ep;
    cbn [nonempty] in H; [injection H as <-; apply act_same|].
  destruct (choice (draws env) (x :: r)) as [c|] eqn:Ec; [|discriminate].
  injection H as <-.
  apply (act_assign (Annotator.id J) J db db (fun a => a) (Some c)
                    (clock_query env)).
  - exact HJ'.
  - symmetry. apply set_row_same.
  - intro a. repeat split. apply extends_refl.
  - intro a. left. reflexivity.
  - apply Forall2_same. apply applicant_kept_refl.
  - left. reflexivity.
  - apply viewed_by_same.
  - rewrite Ep. unfold choice in Ec. eapply nth_error_In. exact Ec.
Qed.

Lemma step_act (db db' : DB) :
  step db db' ->
  exists J, annotator_by_id db (Some (Annotator.id J)) = Some J
            /\ judge_act (Annotator.id J) J db db'.
Proof.
  intros [session form env H | session form env H | session env H].
  - unfold vote in H.
    destruct (get_current_annotator session db) as [J|] eqn:HJ; [|discriminate].
    destruct (current_annotator_id _ _ _ HJ) as [_ HJ'].
    exists J. split; [exact HJ'|].
    destruct (Annotator.prev J) as [p|]; [|discriminate].
    destruct (p =? vf_prev_id form); [|injection H as <-; apply act_same].
    destruct (Annotator.next J) as [n|]; [|discriminate].
    destruct (n =? vf_next_id form); [|injection H as <-; apply act_same].
    eapply vote_matched_act; eassumption.
  - destruct (get_current_annotator session db) as [J|] eqn:HJ.
    + destruct (current_annotator_id _ _ _ HJ) as [_ HJ'].
      exists J. split; [exact HJ'|].
      exact (begin_act session form env db db' J HJ H).
    + unfold begin in H. rewrite HJ in H. discriminate.
  - destruct (get_current_annotator session db) as [J|] eqn:HJ.
    + destruct (current_annotator_id _ _ _ HJ) as [_ HJ'].
      exists J. split; [exact HJ'|].
      exact (maybe_init_act session env db db' J HJ H).
    + unfold maybe_init_annotator in H. rewrite HJ in H. discriminate.
Qed.

(* what a step leaves of the row found under an id *)
Lemma act_lookup (uid : Z) (J : Annotator.t) (db db' : DB) (k : Z)
      (K : Annotator.t) :
  judge_act uid J db db' ->
  annotator_by_id db (Some uid) = Some J ->
  annotator_by_id db (Some k) = Some K ->
  exists K',
    annotator_by_id db' (Some k) = Some K'
    /\ Annotator.id K' = Annotator.id K
    /\ Annotator.active K' = Annotator.active K
    /\ extends (Annotator.ignore K) (Annotator.ignore K')
    /\ (k <> uid -> K' = K)
    /\ (Annotator.next K' = Annotator.next K
        \/ Annotator.next K' = None
        \/ exists x, Annotator.next K' = Some (Applicant.id x)
                     /\ In x (applicants db)
                     /\ Applicant.active x = true
                     /\ ~ In (Applicant.id x) (Annotator.ignore K')).
Proof.
  intros (F & Hann & HF & _ & _ & HnJ & _) HJ HK.
  cbn in HJ, HK |- *. rewrite Hann.
  rewrite get_row_set_row by (intro r; apply HF).
  destruct (uid =? k) eqn:E.
  - apply Z.eqb_eq in E. subst k. rewrite HK. cbn.
    assert (K = J) by congruence. subst K.
    exists (F J). destruct (HF J) as (G1 & G2 & G3).
    split; [reflexivity|]. split; [exact G1|]. split; [exact G2|].
    split; [exact G3|]. split; [intro C; contradiction | exact HnJ].
  - apply Z.eqb_neq in E. exists K. split; [exact HK|].
    split; [reflexivity|]. split; [reflexivity|].
    split; [apply extends_refl|]. split; [reflexivity|]. left. reflexivity.
Qed.

Lemma act_prev_ignored (uid : Z) (J : Annotator.t) (db db' : DB) :
  judge_act uid J db db' -> prev_ignored db -> prev_ignored db'.
Proof.
  intros (F & Hann & HF & Hprev & _) Hinv a p Hin Hp.
  rewrite Hann in Hin. apply In_set_row in Hin.
  destruct Hin as (b & Hb & [[_ ->] | [_ ->]]).
  - destruct (Hprev b) as [E | (n & E & Hn & _)].
    + destruct (HF b) as (_ & _ & G). eapply extends_In; [exact G|].
      apply Hinv; [exact Hb | congruence].
    + congruence.
  - apply Hinv; assumption.
Qed.

Lemma act_assignments_exist (uid : Z) (J : Annotator.t) (db db' : DB) :
  judge_act uid J db db' -> assignments_exist db -> assignments_exist db'.
Proof.
  intros (F & Hann & HF & Hprev & Hnext & _ & Hkept & _) Hinv a k Hin Hk.
  apply get_row_has. apply (kept_has_applicant _ _ k Hkept).
  assert (Hold : forall b, In b (annotators db) ->
                           Annotator.next b = Some k \/ Annotator.prev b = Some k ->
                           has_applicant (applicants db) k).
  { intros b Hb Hbk. apply get_row_has. eapply Hinv; eassumption. }
  rewrite Hann in Hin. apply In_set_row in Hin.
  destruct Hin as (b & Hb & [[_ ->] | [_ ->]]); [|eapply Hold; eassumption].
  destruct Hk as [Hk | Hk].
  - destruct (Hnext b) as [E | [E | (c & E & Hc)]].
    + apply (Hold b Hb). left. congruence.
    + congruence.
    + assert (c = k) by congruence. subst c. exact Hc.
  - destruct (Hprev b) as [E | (n & E & _ & Hn)].
    + apply (Hold b Hb). right. congruence.
    + assert (n = k) by congruence. subst n. exact Hn.
Qed.

Lemma act_viewed_ignored (uid : Z) (J : Annotator.t) (db db' : DB) :
  judge_act uid J db db' ->
  annotator_by_id db (Some uid) = Some J ->
  viewed_ignored db -> viewed_ignored db'.
Proof.
  intros (F & Hann & HF & _ & _ & _ & _ & _ & HV) HJ Hinv x' j K' Hx' Hj HK'.
  destruct (Forall2_In_r _ _ _ x' HV Hx') as (x & Hx & Hid & Hview).
  rewrite Hid. cbn in HJ, HK'. rewrite Hann in HK'.
  rewrite get_row_set_row in HK' by (intro r; apply HF).
  destruct (Hview j Hj) as [Hold | (-> & Hnew)].
  - destruct (get_row Annotator.id j (annotators db)) as [K|] eqn:HK.
    + assert (HinK : In (Applicant.id x) (Annotator.ignore K)).
      { apply (Hinv x j K Hx Hold). exact HK. }
      destruct (uid =? j); cbn in HK'; injection HK' as <-; [|exact HinK].
      destruct (HF K) as (_ & _ & G). eapply extends_In; eassumption.
    + destruct (uid =? j); discriminate.
  - rewrite Z.eqb_refl, HJ in HK'. injection HK' as <-. exact Hnew.
Qed.

Lemma act_tables (uid : Z) (J : Annotator.t) (db db' : DB) :
  judge_act uid J db db' ->
  Forall2 (fun a a' => Annotator.id a' = Annotator.id a
                       /\ Annotator.active a' = Annotator.active a
                       /\ extends (Annotator.ignore a) (Annotator.ignore a')
                       /\ (Annotator.id a <> uid -> a' = a))
          (annotators db) (annotators db')
  /\ Forall2 applicant_kept (applicants db) (applicants db')
  /\ (decisions db' = decisions db
      \/ exists w l, decisions db' = decisions db ++ [Decision.mk uid w l]).
Proof.
  intros (F & Hann & HF & _ & _ & _ & Hkept & Hdec & _).
  split; [|split; assumption].
  rewrite Hann. clear Hann. unfold set_row.
  generalize (annotators db). intro rows.
  induction rows as [|a rows IH]; cbn; constructor; [|exact IH].
  destruct (Annotator.id a =? uid) eqn:E.
  - destruct (HF a) as (G1 & G2 & G3). repeat split; try assumption.
    intro C. apply Z.eqb_eq in E. contradiction.
  - repeat split. apply extends_refl.
Qed.

Lemma steps_tables (db db' : DB) :
  steps db db' ->
  Forall2 (fun a a' => Annotator.id a' = Annotator.id a
                       /\ Annotator.active a' = Annotator.active a
                       /\ extends (Annotator.ignore a) (Annotator.ignore a'))
          (annotators db) (annotators db')
  /\ Forall2 applicant_kept (applicants db) (applicants db')
  /\ extends (decisions db) (decisions db').
Proof.
  induction 1 as [db | db db1 db2 Hs _ IH].
  - split; [apply Forall2_same; intro a; repeat split; apply extends_refl|].
    split; [apply Forall2_same; apply applicant_kept_refl | apply extends_refl].
  - destruct (step_act db db1 Hs) as (J & _ & Hact).
    destruct (act_tables _ _ _ _ Hact) as (A1 & A2 & A3).
    destruct IH as (B1 & B2 & B3). split; [|split].
    + eapply Forall2_compose; [| |exact B1].
      * intros x y z (E1 & E2 & E3) (E4 & E5 & E6).
        split; [congruence|]. split; [congruence|].
        eapply extends_trans; eassumption.
      * eapply Forall2_impl; [|exact A1].
        intros a b (E1 & E2 & E3 & _). repeat split; assumption.
    + eapply Forall2_compose; [exact applicant_kept_trans | exact A2 | exact B2].
    + eapply extends_trans; [|exact B3].
      destruct A3 as [-> | (w & l & ->)]; [apply extends_refl | apply extends_app].
Qed.

Lemma steps_lookup (db db' : DB) (k : Z) (K : Annotator.t) :
  steps db db' ->
  annotator_by_id db (Some k) = Some K ->
  exists K', annotator_by_id db' (Some k) = Some K'
             /\ Annotator.active K' = Annotator.active K
             /\ extends (Annotator.ignore K) (Annotator.ignore K').
Proof.
  intros Hs HK. destruct (steps_tables db db' Hs) as (H & _ & _).
  pose proof (Forall2_get_row Annotator.id _ _ _ k
                (fun x y (E : Annotator.id y = Annotator.id x /\ _) => proj1 E)
                H) as G.
  cbn in HK |- *. rewrite HK in G.
  destruct (get_row Annotator.id k (annotators db')) as [K'|]; [|contradiction].
  exists K'. destruct G as (_ & G2 & G3). repeat split; assumption.
Qed.

(** ** What a run of the judges keeps *)

(** X1. A transaction that returns is the act of one judge of the
    table: no row of either table is created or deleted and no id or
    [active] flag changes, every other judge's row is left exactly as it
    was, and the decision table is unchanged or one decision of that
    judge longer. *)
Theorem step_is_one_judge (db db' : DB) :
  step db db' ->
  exists J,
    annotator_by_id db (Some (Annotator.id J)) = Some J
    /\ Forall2 (fun a a' => Annotator.id a' = Annotator.id a
                            /\ Annotator.active a' = Annotator.active a
                            /\ (Annotator.id a <> Annotator.id J -> a' = a))
               (annotators db) (annotators db')
    /\ Forall2 (fun x x' => Applicant.id x' = Applicant.id x
                            /\ Applicant.active x' = Applicant.active x)
               (applicants db) (applicants db')
    /\ (decisions db' = decisions db
        \/ exists w l, decisions db'
                       = decisions db ++ [Decision.mk (Annotator.id J) w l]).
Proof.
  intro Hs. destruct (step_act db db' Hs) as (J & HJ & Hact).
  destruct (act_tables _ _ _ _ Hact) as (A1 & A2 & A3).
  exists J. split; [exact HJ|]. split; [|split; [|exact A3]].
  - eapply Forall2_impl; [|exact A1].
    intros a b (E1 & E2 & _ & E4). repeat split; assumption.
  - eapply Forall2_impl; [|exact A2].
    intros a b (E1 & E2 & _). split; assumption.
Qed.

(** X2. Along any run of votes, begins and initialisations the decision
    table, every judge's ignore list and every applicant's viewed list
    only grow at the end, while every row stays under its id with its
    [active] flag. *)
Theorem steps_append_only (db db' : DB) :
  steps db db' ->
  extends (decisions db) (decisions db')
  /\ (forall k K, annotator_by_id db (Some k) = Some K ->
                  exists K', annotator_by_id db' (Some k) = Some K'
                             /\ Annotator.active K' = Annotator.active K
                             /\ extends (Annotator.ignore K)
                                        (Annotator.ignore K'))
  /\ (forall k X, applicant_by_id db k = Some X ->
                  exists X', applicant_by_id db' k = Some X'
                             /\ Applicant.active X' = Applicant.active X
                             /\ extends (Applicant.viewed X)
                                        (Applicant.viewed X'))
  /\ map Annotator.id (annotators db') = map Annotator.id (annotators db)
  /\ map Applicant.id (applicants db') = map Applicant.id (applicants db).
Proof.
  intro Hs. destruct (steps_tables db db' Hs) as (A1 & A2 & A3).
  split; [exact A3|]. split; [|split; [|split]].
  - intros k K HK. exact (steps_lookup db db' k K Hs HK).
  - intros k X HX.
    pose proof (Forall2_get_row Applicant.id _ _ _ k
                  (fun x y (E : applicant_kept x y) => proj1 E) A2) as G.
    unfold applicant_by_id in *. rewrite HX in G.
    destruct (get_row Applicant.id k (applicants db')) as [X'|]; [|contradiction].
    exists X'. destruct G as (_ & G2 & G3). repeat split; assumption.
  - clear A2 A3. induction A1 as [|a b l l' (E & _) _ IH]; cbn;
      [reflexivity | rewrite E, IH; reflexivity].
  - clear A1 A3. induction A2 as [|a b l l' (E & _) _ IH]; cbn;
      [reflexivity | rewrite E, IH; reflexivity].
Qed.

(** X3. If every judge ignores its previous item, so it is after any run
    of votes, begins and initialisations: [prev] is only ever set to an
    item that enters the ignore list in the same transaction. *)
Theorem steps_prev_ignored (db db' : DB) :
  prev_ignored db -> steps db db' -> prev_ignored db'.
Proof.
  intros Hinv Hs. induction Hs as [db | db db1 db2 Hs _ IH]; [exact Hinv|].
  apply IH. destruct (step_act db db1 Hs) as (J & _ & Hact).
  exact (act_prev_ignored _ _ _ _ Hact Hinv).
Qed.

(** X22. If every judge recorded in an applicant's viewed list has that
    applicant on its ignore list, so it is after any run of votes, begins
    and initialisations: a judge is appended to a viewed list only in a
    transaction that appends the applicant to the judge's ignore list,
    and ignore lists never shrink. *)
Theorem steps_viewed_ignored (db db' : DB) :
  viewed_ignored db -> steps db db' -> viewed_ignored db'.
Proof.
  intros Hinv Hs. induction Hs as [db | db db1 db2 Hs _ IH]; [exact Hinv|].
  apply IH. destruct (step_act db db1 Hs) as (J & HJ & Hact).
  exact (act_viewed_ignored _ _ _ _ Hact HJ Hinv).
Qed.

(** X4. If every [next] and [prev] of the annotator table is the id of
    a row of the applicant table, so it is after any run of votes,
    begins and initialisations. *)
Theorem steps_assignments_exist (db db' : DB) :
  assignments_exist db -> steps db db' -> assignments_exist db'.
Proof.
  intros Hinv Hs. induction Hs as [db | db db1 db2 Hs _ IH]; [exact Hinv|].
  apply IH. destruct (step_act db db1 Hs) as (J & _ & Hact).
  exact (act_assignments_exist _ _ _ _ Hact Hinv).
Qed.

(** X5. When a transaction changes the [next] of a judge to an item,
    that item is an active applicant outside the judge's ignore list;
    and when every judge ignored its previous item before, the new
    [next] differs from the judge's [prev]. *)
Theorem fresh_assignment (db db' : DB) (k c : Z) (K K' : Annotator.t) :
  step db db' ->
  annotator_by_id db (Some k) = Some K ->
  annotator_by_id db' (Some k) = Some K' ->
  Annotator.next K' = Some c ->
  Annotator.next K' <> Annotator.next K ->
  ~ In c (Annotator.ignore K')
  /\ (exists x, In x (applicants db) /\ Applicant.id x = c
                /\ Applicant.active x = true)
  /\ (prev_ignored db -> Annotator.prev K' <> Some c).
Proof.
  intros Hs HK HK' Hc Hne.
  destruct (step_act db db' Hs) as (J & HJ & Hact).
  destruct (act_lookup _ _ _ _ k K Hact HJ HK)
    as (K2 & E & _ & _ & _ & _ & Hn).
  assert (K2 = K') by congruence. subst K2.
  destruct Hn as [Hn | [Hn | (x & Hx & Hin & Hact' & Hni)]];
    [contradiction | congruence |].
  assert (Applicant.id x = c) by congruence. subst c.
  split; [exact Hni|]. split; [exists x; repeat split; assumption|].
  intros Hinv Hp. apply Hni.
  apply (act_prev_ignored _ _ _ _ Hact Hinv K').
  - cbn in HK'. destruct (get_row_key _ _ _ _ HK') as [_ Hin']. exact Hin'.
  - exact Hp.
Qed.

(** X6. An applicant on a judge's ignore list stays there along any
    run, and no later transaction makes it that judge's [next]: if it is
    the [next] after a step it was the [next] before. *)
Theorem ignored_never_assigned (db db1 db2 : DB) (k x : Z)
        (K K1 K2 : Annotator.t) :
  steps db db1 ->
  step db1 db2 ->
  annotator_by_id db (Some k) = Some K ->
  annotator_by_id db1 (Some k) = Some K1 ->
  annotator_by_id db2 (Some k) = Some K2 ->
  In x (Annotator.ignore K) ->
  In x (Annotator.ignore K1)
  /\ In x (Annotator.ignore K2)
  /\ (Annotator.next K2 = Some x -> Annotator.next K1 = Some x).
Proof.
  intros Hss Hs HK HK1 HK2 Hx.
  destruct (steps_lookup db db1 k K Hss HK) as (K1' & E1 & _ & G1).
  assert (K1' = K1) by congruence. subst K1'.
  assert (Hx1 : In x (Annotator.ignore K1)) by (eapply extends_In; eassumption).
  destruct (step_act db1 db2 Hs) as (J & HJ & Hact).
  destruct (act_lookup _ _ _ _ k K1 Hact HJ HK1)
    as (K2' & E2 & _ & _ & G2 & _ & Hn).
  assert (K2' = K2) by congruence. subst K2'.
  assert (Hx2 : In x (Annotator.ignore K2)) by (eapply extends_In; eassumption).
  split; [exact Hx1|]. split; [exact Hx2|]. intro Hnx.
  destruct Hn as [Hn | [Hn | (y & Hy & _ & _ & Hni)]]; [congruence | congruence |].
  exfalso. apply Hni. assert (Applicant.id y = x) by congruence.
  subst x. exact Hx2.
Qed.

(** ** The branches of a vote *)

Lemma perform_vote_run (uid : Z) (next_won : bool) (db : DB)
      (J : Annotator.t) (W L : Applicant.t) :
  annotator_by_id db (Some uid) = Some J ->
  rel db (if next_won then Annotator.next J else Annotator.prev J) = Done W ->
  rel db (if next_won then Annotator.prev J else Annotator.next J) = Done L ->
  perform_vote uid next_won db
  = Done (write_beliefs uid (Applicant.id W) (Applicant.id L)
            (update (Annotator.alpha J) (Annotator.beta J)
                    (Applicant.mu W) (Applicant.sigma_sq W)
                    (Applicant.mu L) (Applicant.sigma_sq L)) db).
Proof.
  intros HJ HW HL. unfold perform_vote, self. rewrite HJ. cbn [bind].
  rewrite HW. cbn [bind]. rewrite HL. cbn [bind]. unfold write_beliefs.
  destruct (update (Annotator.alpha J) (Annotator.beta J)
                   (Applicant.mu W) (Applicant.sigma_sq W)
                   (Applicant.mu L) (Applicant.sigma_sq L))
    as [[[[[ua ub] wm] ws] lm] ls].
  reflexivity.
Qed.

Lemma write_beliefs_annotator (uid w l : Z) (ua ub wm ws lm ls : Q) (db : DB) :
  annotator_by_id (write_beliefs uid w l (ua, ub, wm, ws, lm, ls) db) (Some uid)
  = option_map (fun a => Annotator.with_beta ub (Annotator.with_alpha ua a))
               (annotator_by_id db (Some uid)).
Proof.
  unfold write_beliefs. cbv zeta. rewrite !annotator_on_applicant.
  rewrite !annotator_on_annotator by reflexivity.
  destruct (annotator_by_id db (Some uid)); reflexivity.
Qed.

Lemma write_beliefs_applicant (uid w l : Z) (ua ub wm ws lm ls : Q) (db : DB)
      (k : Z) :
  w <> l ->
  applicant_by_id (write_beliefs uid w l (ua, ub, wm, ws, lm, ls) db) k
  = if k =? w
    then option_map (fun a => Applicant.with_sigma_sq ws (Applicant.with_mu wm a))
                    (applicant_by_id db k)
    else if k =? l
         then option_map
                (fun a => Applicant.with_sigma_sq ls (Applicant.with_mu lm a))
                (applicant_by_id db k)
         else applicant_by_id db k.
Proof.
  intro Hwl. unfold write_beliefs. cbv zeta.
  rewrite !applicant_on_applicant by reflexivity.
  rewrite !applicant_on_annotator.
  rewrite (Z.eqb_sym l k), (Z.eqb_sym w k).
  destruct (k =? w) eqn:Ew; destruct (k =? l) eqn:El.
  - apply Z.eqb_eq in Ew, El. exfalso. apply Hwl. congruence.
  - destruct (applicant_by_id db k); reflexivity.
  - destruct (applicant_by_id db k); reflexivity.
  - reflexivity.
Qed.

Lemma vote_matched_skip (uid p n : Z) (env : Env) (db : DB)
      (J : Annotator.t) (X : Applicant.t) :
  annotator_by_id db (Some uid) = Some J ->
  Annotator.prev J = Some p ->
  applicant_by_id db p = Some X ->
  let J1 := Annotator.with_ignore (rel_append n (Annotator.ignore J)) J in
  annotator_by_id (ignore_append uid n db) (Some uid) = Some J1
  /\ exists chosen,
      choose_next uid env (ignore_append uid n db) = Done chosen
      /\ match chosen with
         | Some c => In c (preferred_applicants (ignore_append uid n db)
                                                (clock_query env) J1)
         | None => preferred_applicants (ignore_append uid n db)
                                        (clock_query env) J1 = []
         end
      /\ vote_matched uid p n "Skip" env db
         = Done (update_next uid chosen (clock_assign env)
                             (ignore_append uid n db)).
Proof.
  intros HJ Hp HX J1.
  assert (HJ1 : annotator_by_id (ignore_append uid n db) (Some uid) = Some J1).
  { unfold ignore_append. rewrite annotator_on_annotator by reflexivity.
    rewrite HJ. reflexivity. }
  split; [exact HJ1|].
  assert (Hrel : rel (ignore_append uid n db) (Annotator.prev J1) = Done X).
  { change (Annotator.prev J1) with (Annotator.prev J). rewrite Hp.
    apply rel_Some. exact HX. }
  destruct (choose_next_total uid env _ J1 X HJ1 Hrel) as (chosen & Hch & Hpool).
  exists chosen. split; [exact Hch|]. split; [exact Hpool|].
  unfold vote_matched. change (String.eqb "Skip" "Skip") with true. cbv iota.
  cbn [bind]. rewrite Hch. reflexivity.
Qed.

Lemma vote_matched_voted (uid p n : Z) (next_won : bool) (env : Env) (db : DB)
      (J : Annotator.t) (X Y : Applicant.t) (ua ub wm ws lm ls : Q) :
  annotator_by_id db (Some uid) = Some J ->
  Annotator.prev J = Some p ->
  Annotator.next J = Some n ->
  p <> n ->
  applicant_by_id db p = Some X ->
  applicant_by_id db n = Some Y ->
  Applicant.active X = true ->
  Applicant.active Y = true ->
  update (Annotator.alpha J) (Annotator.beta J)
         (Applicant.mu (if next_won then Y else X))
         (Applicant.sigma_sq (if next_won then Y else X))
         (Applicant.mu (if next_won then X else Y))
         (Applicant.sigma_sq (if next_won then X else Y))
  = (ua, ub, wm, ws, lm, ls) ->
  let w := if next_won then n else p in
  let l := if next_won then p else n in
  let db1 :=
    ignore_append uid n
      (on_annotator uid (Annotator.with_prev (Some n))
         (mark_viewed n uid
            (add_decision (Decision.mk uid w l)
               (write_beliefs uid w l (ua, ub, wm, ws, lm, ls) db)))) in
  let J1 := Annotator.with_ignore (rel_append n (Annotator.ignore J))
              (Annotator.with_prev (Some n)
                 (Annotator.with_beta ub (Annotator.with_alpha ua J))) in
  annotator_by_id db1 (Some uid) = Some J1
  /\ (forall k,
         applicant_by_id db1 k
         = option_map
             (fun a => if k =? n
                       then Applicant.with_viewed (rel_append uid (Applicant.viewed a)) a
                       else a)
             (if k =? w
              then option_map (fun a => Applicant.with_sigma_sq ws
                                          (Applicant.with_mu wm a))
                              (applicant_by_id db k)
              else if k =? l
                   then option_map (fun a => Applicant.with_sigma_sq ls
                                               (Applicant.with_mu lm a))
                                   (applicant_by_id db k)
                   else applicant_by_id db k))
  /\ decisions db1 = decisions db ++ [Decision.mk uid w l]
  /\ exists chosen,
      choose_next uid env db1 = Done chosen
      /\ match chosen with
         | Some c => In c (preferred_applicants db1 (clock_query env) J1)
         | None => preferred_applicants db1 (clock_query env) J1 = []
         end
      /\ vote_matched uid p n (if next_won then "Current" else "Previous")
                      env db
         = Done (update_next uid chosen (clock_assign env) db1).
Proof.
  intros HJ Hp Hn Hpn HX HY HaX HaY Hup w l db1 J1.
  assert (Hwl : w <> l) by (unfold w, l; destruct next_won; congruence).
  assert (HidX : Applicant.id X = p)
    by (destruct (get_row_key _ _ _ _ HX); assumption).
  assert (HidY : Applicant.id Y = n)
    by (destruct (get_row_key _ _ _ _ HY); assumption).
  assert (Hpv : perform_vote uid next_won db
                = Done (write_beliefs uid w l (ua, ub, wm, ws, lm, ls) db)).
  { rewrite (perform_vote_run uid next_won db J
               (if next_won then Y else X) (if next_won then X else Y) HJ).
    - rewrite Hup. unfold w, l. destruct next_won; rewrite HidX, HidY; reflexivity.
    - destruct next_won; [rewrite Hn | rewrite Hp]; apply rel_Some; assumption.
    - destruct next_won; [rewrite Hp | rewrite Hn]; apply rel_Some; assumption. }
  assert (HJ1 : annotator_by_id db1 (Some uid) = Some J1).
  { unfold db1, ignore_append, mark_viewed.
    rewrite !annotator_on_annotator by reflexivity.
    rewrite annotator_on_applicant.
    change (annotator_by_id (add_decision ?d ?x) ?u) with (annotator_by_id x u).
    rewrite write_beliefs_annotator, HJ. reflexivity. }
  assert (Hrows : forall k,
             applicant_by_id db1 k
             = option_map
                 (fun a => if k =? n
                           then Applicant.with_viewed
                                  (rel_append uid (Applicant.viewed a)) a
                           else a)
                 (applicant_by_id
                    (write_beliefs uid w l (ua, ub, wm, ws, lm, ls) db) k)).
  { intro k. unfold db1, ignore_append, mark_viewed.
    rewrite !applicant_on_annotator.
    rewrite applicant_on_applicant by reflexivity.
    change (applicant_by_id (add_decision ?d ?x) ?u) with (applicant_by_id x u).
    rewrite (Z.eqb_sym n k).
    destruct (k =? n);
      destruct (applicant_by_id
                  (write_beliefs uid w l (ua, ub, wm, ws, lm, ls) db) k);
      reflexivity. }
  split; [exact HJ1|]. split.
  { intro k. rewrite Hrows, write_beliefs_applicant by exact Hwl. reflexivity. }
  split; [reflexivity|].
  assert (Hexn : exists Y1, applicant_by_id db1 n = Some Y1).
  { rewrite Hrows, write_beliefs_applicant by exact Hwl. rewrite HY.
    destruct (n =? w); [|destruct (n =? l)]; eexists; reflexivity. }
  destruct Hexn as (Y1 & HY1).
  destruct (choose_next_total uid env db1 J1 Y1 HJ1 (rel_Some _ _ _ HY1))
    as (chosen & Hch & Hpool).
  exists chosen. split; [exact Hch|]. split; [exact Hpool|].
  unfold vote_matched.
  replace (String.eqb (if next_won then "Current" else "Previous") "Skip")
    with false by (destruct next_won; reflexivity).
  rewrite (rel_Some db p X HX). cbn [bind]. rewrite HaX.
  rewrite (rel_Some db n Y HY). cbn [bind]. rewrite HaY.
  assert (Hdbv :
            (if String.eqb (if next_won then "Current" else "Previous") "Previous"
             then db' <- perform_vote uid false db ;;
                  Done (add_decision (Decision.mk uid p n) db')
             else if String.eqb (if next_won then "Current" else "Previous")
                                "Current"
                  then db' <- perform_vote uid true db ;;
                       Done (add_decision (Decision.mk uid n p) db')
                  else Raise UnboundLocalError)
            = Done (add_decision (Decision.mk uid w l)
                      (write_beliefs uid w l (ua, ub, wm, ws, lm, ls) db))).
  { unfold w, l in *. destruct next_won.
    - change (String.eqb "Current" "Previous") with false.
      change (String.eqb "Current" "Current") with true. cbv iota.
      rewrite Hpv. reflexivity.
    - change (String.eqb "Previous" "Previous") with true. cbv iota.
      rewrite Hpv. reflexivity. }
  rewrite Hdbv. cbn [bind]. unfold viewed_append.
  assert (Hex2 : exists Y2,
             applicant_by_id
               (add_decision (Decision.mk uid w l)
                  (write_beliefs uid w l (ua, ub, wm, ws, lm, ls) db)) n
             = Some Y2).
  { change (applicant_by_id (add_decision ?d ?x) ?u) with (applicant_by_id x u).
    rewrite write_beliefs_applicant by exact Hwl. rewrite HY.
    destruct (n =? w); [|destruct (n =? l)]; eexists; reflexivity. }
  destruct Hex2 as (Y2 & HY2). rewrite (rel_Some _ _ _ HY2). cbn [bind].
  fold db1. rewrite Hch. reflexivity.
Qed.





(** ** Votes *)

(** X7. A Skip with matching ids records no decision and changes no
    belief value and no viewed list; it puts the skipped item on the
    judge's ignore list (appended unless it is already there), keeps
    [prev], and stores as [next] what [choose_next] returns for the judge
    with that ignore list: an item of that judge's pool, never the
    skipped one, or none when the pool is empty. *)
Theorem vote_skip (session : option Z) (form : VoteForm) (env : Env)
        (db : DB) (J : Annotator.t) (p n : Z) (X : Applicant.t) :
  get_current_annotator session db = Some J ->
  Annotator.prev J = Some p ->
  Annotator.next J = Some n ->
  vf_prev_id form = p ->
  vf_next_id form = n ->
  vf_action form = "Skip"%string ->
  applicant_by_id db p = Some X ->
  let uid := Annotator.id J in
  let db1 := ignore_append uid n db in
  let J1 := Annotator.with_ignore (rel_append n (Annotator.ignore J)) J in
  exists chosen db',
    choose_next uid env db1 = Done chosen
    /\ match chosen with
       | Some c => In c (preferred_applicants db1 (clock_query env) J1)
                   /\ Applicant.id c <> n
       | None => preferred_applicants db1 (clock_query env) J1 = []
       end
    /\ vote session form env db = Done db'
    /\ decisions db' = decisions db
    /\ map (fun a => (Applicant.id a, Applicant.mu a, Applicant.sigma_sq a,
                      Applicant.viewed a)) (applicants db')
       = map (fun a => (Applicant.id a, Applicant.mu a, Applicant.sigma_sq a,
                        Applicant.viewed a)) (applicants db)
    /\ map (fun a => (Annotator.id a, Annotator.alpha a, Annotator.beta a))
           (annotators db')
       = map (fun a => (Annotator.id a, Annotator.alpha a, Annotator.beta a))
             (annotators db)
    /\ exists J', annotator_by_id db' (Some uid) = Some J'
                  /\ Annotator.prev J' = Some p
                  /\ Annotator.ignore J' = rel_append n (Annotator.ignore J)
                  /\ Annotator.next J' = option_map Applicant.id chosen.
Proof.
  intros HJ Hp Hn Hfp Hfn Hact HX uid db1 J1.
  destruct (current_annotator_id _ _ _ HJ) as [_ HJ']. fold uid in HJ'.
  destruct (vote_matched_skip uid p n env db J X HJ' Hp HX)
    as (HJ1 & chosen & Hch & Hpool & Hv).
  fold db1 in HJ1, Hch, Hpool, Hv. fold J1 in HJ1, Hpool.
  exists chosen, (update_next uid chosen (clock_assign env) db1).
  split; [exact Hch|]. split.
  { destruct chosen as [c|]; [|exact Hpool]. split; [exact Hpool|].
    apply preferred_In in Hpool. destruct Hpool as (_ & _ & Hni).
    intro Hc. apply Hni. cbn. rewrite Hc. apply In_rel_append. }
  split.
  { unfold vote. rewrite HJ, Hp, Hn, Hfp, Hfn, !Z.eqb_refl, Hact. fold uid.
    exact Hv. }
  split; [rewrite update_next_decisions; reflexivity|].
  split.
  { destruct chosen as [c|]; cbn [update_next applicants on_annotator
      on_applicant ignore_append db1]; [|reflexivity].
    apply map_set_row. reflexivity. }
  split.
  { destruct (update_next_beliefs uid chosen (clock_assign env) db1) as [_ Hb].
    rewrite Hb. unfold db1, ignore_append. cbn [annotators on_annotator].
    apply map_set_row. reflexivity. }
  rewrite (update_next_annotator uid chosen (clock_assign env) db1 J1 HJ1).
  eexists. split; [reflexivity|]. destruct chosen; repeat split; exact Hp.
Qed.

(** X8. A Previous or Current vote with matching ids on two different
    active items appends exactly the decision of the judge with the
    winner and loser the action names, stores the six values that
    [crowd_bt.update] returns for the judge and the pair in [alpha],
    [beta] and the winner's and loser's [mu] and [sigma_sq], adds the
    judge to the viewed list of the old [next], moves the old [next]
    to [prev] and the ignore list (an entry that is already in either
    list is not written twice), and leaves the belief and the viewed
    list of every other applicant as they were. *)
Theorem vote_records_decision (session : option Z) (form : VoteForm)
        (env : Env) (db : DB) (J : Annotator.t) (p n : Z)
        (X Y : Applicant.t) (next_won : bool) (ua ub wm ws lm ls : Q) :
  get_current_annotator session db = Some J ->
  Annotator.prev J = Some p ->
  Annotator.next J = Some n ->
  vf_prev_id form = p ->
  vf_next_id form = n ->
  vf_action form = (if next_won then "Current" else "Previous")%string ->
  p <> n ->
  applicant_by_id db p = Some X ->
  applicant_by_id db n = Some Y ->
  Applicant.active X = true ->
  Applicant.active Y = true ->
  update (Annotator.alpha J) (Annotator.beta J)
         (Applicant.mu (if next_won then Y else X))
         (Applicant.sigma_sq (if next_won then Y else X))
         (Applicant.mu (if next_won then X else Y))
         (Applicant.sigma_sq (if next_won then X else Y))
  = (ua, ub, wm, ws, lm, ls) ->
  let uid := Annotator.id J in
  let w := if next_won then n else p in
  let l := if next_won then p else n in
  exists chosen db',
    vote session form env db = Done db'
    /\ decisions db' = decisions db ++ [Decision.mk uid w l]
    /\ (exists J', annotator_by_id db' (Some uid) = Some J'
                   /\ Annotator.alpha J' = ua
                   /\ Annotator.beta J' = ub
                   /\ Annotator.prev J' = Some n
                   /\ Annotator.ignore J' = rel_append n (Annotator.ignore J)
                   /\ Annotator.next J' = option_map Applicant.id chosen)
    /\ (exists W', applicant_by_id db' w = Some W'
                   /\ Applicant.mu W' = wm
                   /\ Applicant.sigma_sq W' = ws)
    /\ (exists L', applicant_by_id db' l = Some L'
                   /\ Applicant.mu L' = lm
                   /\ Applicant.sigma_sq L' = ls)
    /\ (exists Y', applicant_by_id db' n = Some Y'
                   /\ Applicant.viewed Y' = rel_append uid (Applicant.viewed Y))
    /\ (forall k Z0,
           k <> p -> k <> n ->
           applicant_by_id db k = Some Z0 ->
           exists Z', applicant_by_id db' k = Some Z'
                      /\ Applicant.mu Z' = Applicant.mu Z0
                      /\ Applicant.sigma_sq Z' = Applicant.sigma_sq Z0
                      /\ Applicant.viewed Z' = Applicant.viewed Z0).
Proof.
  intros HJ Hp Hn Hfp Hfn Hact Hpn HX HY HaX HaY Hup uid w l.
  destruct (current_annotator_id _ _ _ HJ) as [_ HJ']. fold uid in HJ'.
  destruct (vote_matched_voted uid p n next_won env db J X Y ua ub wm ws lm ls
              HJ' Hp Hn Hpn HX HY HaX HaY Hup)
    as (HJ1 & Hrows & Hdec & chosen & Hch & _ & Hv).
  fold w in HJ1, Hrows, Hdec, Hch, Hv. fold l in HJ1, Hrows, Hdec, Hch, Hv.
  set (db1 := ignore_append uid n
                (on_annotator uid (Annotator.with_prev (Some n))
                   (mark_viewed n uid
                      (add_decision (Decision.mk uid w l)
                         (write_beliefs uid w l (ua, ub, wm, ws, lm, ls) db)))))
    in *.
  assert (Hrow : forall k R,
             applicant_by_id db1 k = Some R ->
             exists R', applicant_by_id
                          (update_next uid chosen (clock_assign env) db1) k
                        = Some R'
                        /\ Applicant.mu R' = Applicant.mu R
                        /\ Applicant.sigma_sq R' = Applicant.sigma_sq R
                        /\ Applicant.viewed R' = Applicant.viewed R).
  { intros k R HR.
    destruct (update_next_applicant uid chosen (clock_assign env) db1 k R HR)
      as (R' & E & _ & _ & Ev & Em & Es).
    exists R'. repeat split; assumption. }
  exists chosen, (update_next uid chosen (clock_assign env) db1).
  split.
  { unfold vote. rewrite HJ, Hp, Hn, Hfp, Hfn, !Z.eqb_refl, Hact. fold uid.
    exact Hv. }
  split; [rewrite update_next_decisions; exact Hdec|].
  split.
  { rewrite (update_next_annotator uid chosen (clock_assign env) db1 _ HJ1).
    eexists. split; [reflexivity|]. destruct chosen; repeat split. }
  assert (Hw : exists W1, applicant_by_id db1 w = Some W1
                          /\ Applicant.mu W1 = wm
                          /\ Applicant.sigma_sq W1 = ws).
  { rewrite Hrows, Z.eqb_refl.
    assert (exists W0, applicant_by_id db w = Some W0) as (W0 & HW0)
        by (unfold w; destruct next_won; eauto).
    rewrite HW0. cbn [option_map]. eexists. split; [reflexivity|].
    destruct (w =? n); split; reflexivity. }
  assert (Hl : exists L1, applicant_by_id db1 l = Some L1
                          /\ Applicant.mu L1 = lm
                          /\ Applicant.sigma_sq L1 = ls).
  { rewrite Hrows.
    assert (E : (l =? w) = false).
    { apply Z.eqb_neq. unfold w, l. destruct next_won; congruence. }
    rewrite E, Z.eqb_refl.
    assert (exists L0, applicant_by_id db l = Some L0) as (L0 & HL0)
        by (unfold l; destruct next_won; eauto).
    rewrite HL0. cbn [option_map]. eexists. split; [reflexivity|].
    destruct (l =? n); split; reflexivity. }
  split.
  { destruct Hw as (W1 & HW1 & E1 & E2).
    destruct (Hrow w W1 HW1) as (W' & HW' & F1 & F2 & _).
    exists W'. split; [exact HW'|]. split; congruence. }
  split.
  { destruct Hl as (L1 & HL1 & E1 & E2).
    destruct (Hrow l L1 HL1) as (L' & HL' & F1 & F2 & _).
    exists L'. split; [exact HL'|]. split; congruence. }
  split.
  { assert (exists Y1, applicant_by_id db1 n = Some Y1
                       /\ Applicant.viewed Y1 = rel_append uid (Applicant.viewed Y))
      as (Y1 & HY1 & Ev).
    { rewrite Hrows, Z.eqb_refl, HY.
      destruct (n =? w); [|destruct (n =? l)]; cbn [option_map];
        eexists; (split; [reflexivity|]); reflexivity. }
    destruct (Hrow n Y1 HY1) as (Y' & HY' & _ & _ & F3).
    exists Y'. split; [exact HY'|]. congruence. }
  intros k Z0 Hkp Hkn HZ.
  assert (HZ1 : applicant_by_id db1 k = Some Z0).
  { rewrite Hrows.
    assert (E1 : (k =? w) = false).
    { apply Z.eqb_neq. unfold w. destruct next_won; assumption. }
    assert (E2 : (k =? l) = false).
    { apply Z.eqb_neq. unfold l. destruct next_won; assumption. }
    assert (E3 : (k =? n) = false) by (apply Z.eqb_neq; exact Hkn).
    rewrite E1, E2, E3, HZ. reflexivity. }
  exact (Hrow k Z0 HZ1).
Qed.


(** ** The pool and the choice *)

Lemma filter_nil_iff {A : Type} (f : A -> bool) (l : list A) :
  filter f l = [] <-> forall a, In a l -> f a = false.
Proof.
  induction l as [|x l IH]; cbn.
  - split; [intros _ a [] | reflexivity].
  - destruct (f x) eqn:E.
    + split; [discriminate|]. intro H.
      rewrite (H x (or_introl eq_refl)) in E. discriminate.
    + rewrite IH. split.
      * intros H a [<-|Ha]; [exact E | apply H; exact Ha].
      * intros H a Ha. apply H. right. exact Ha.
Qed.

Lemma prefer_pure {A : Type} (p : A -> bool) (s : list A) (c : A) :
  In c (if nonempty (filter p s) then filter p s else s) ->
  (exists a, In a s /\ p a = true) -> p c = true.
Proof.
  intros Hc (a & Ha & Hp).
  destruct (filter p s) as [|y r] eqn:E.
  - exfalso. pose proof (proj1 (filter_nil_iff p s) E a Ha) as C. congruence.
  - cbn [nonempty] in Hc. rewrite <- E in Hc. apply filter_In in Hc.
    exact (proj2 Hc).
Qed.

Lemma preferred_nil_iff (db : DB) (now : Z) (J : Annotator.t) :
  preferred_applicants db now J = []
  <-> forall a, In a (applicants db) -> Applicant.active a = true ->
                In (Applicant.id a) (Annotator.ignore J).
Proof.
  rewrite preferred_pipeline, pipeline_nil. unfold pool_start.
  rewrite filter_nil_iff. split.
  - intros H a Ha Hact. specialize (H a Ha). rewrite Hact in H. cbn in H.
    apply negb_false_iff in H. apply mem_In. exact H.
  - intros H a Ha. destruct (Applicant.active a) eqn:E; [|reflexivity].
    cbn. apply negb_false_iff. apply mem_In. apply H; assumption.
Qed.

(** X10. The candidate pool of a judge is empty exactly when every
    active applicant is on the judge's ignore list: neither the busy set
    nor the view counts nor the clock can empty it. *)
Theorem preferred_empty_iff (db : DB) (now : Z) (J : Annotator.t) :
  preferred_applicants db now J = []
  <-> forall a, In a (applicants db) -> Applicant.active a = true ->
                In (Applicant.id a) (Annotator.ignore J).
Proof. apply preferred_nil_iff. Qed.

(** X11. Every item of the candidate pool obeys each preference that
    some candidate of the stage before could satisfy: it is prioritized
    when an active, non-ignored applicant is; it is not the fresh
    assignment of an active judge when some candidate left by the
    priority step is not; and it has fewer than MIN_VIEWS views when
    some candidate left by the busy step has. *)
Theorem preferred_respects_preferences (db : DB) (now : Z) (J : Annotator.t)
        (c : Applicant.t) :
  In c (preferred_applicants db now J) ->
  let s1 := pool_start db J in
  let s2 := pool_prioritized s1 in
  let s3 := pool_nonbusy now (annotators db) s2 in
  ((exists a, In a s1 /\ Applicant.prioritized a = true) ->
   Applicant.prioritized c = true)
  /\ ((exists a, In a s2
                 /\ busy now (annotators db) (Applicant.id a) = false) ->
      busy now (annotators db) (Applicant.id c) = false)
  /\ ((exists a, In a s3
                 /\ Z.of_nat (List.length (Applicant.viewed a)) < MIN_VIEWS) ->
      Z.of_nat (List.length (Applicant.viewed c)) < MIN_VIEWS).
Proof.
  rewrite preferred_pipeline. unfold pipeline, pool_less_seen. cbv zeta.
  intros H3.
  pose proof (prefer_incl _ _ _ H3) as H2.
  unfold pool_nonbusy in H2. cbv zeta in H2.
  pose proof (prefer_incl _ _ _ H2) as H1.
  rewrite pool_prioritized_prefer in H1.
  split; [|split].
  - intro Hex. exact (prefer_pure _ _ _ H1 Hex).
  - intros (a & Ha & Hb). apply negb_true_iff.
    apply (prefer_pure _ _ _ H2). exists a. split; [exact Ha|].
    rewrite Hb. reflexivity.
  - intros (a & Ha & Hb). apply Z.ltb_lt.
    apply (prefer_pure _ _ _ H3). exists a. split; [exact Ha|].
    apply Z.ltb_lt. exact Hb.
Qed.

(** X12. For an existing judge [choose_next] returns none exactly when
    the candidate pool is empty, returns only members of the pool, and
    raises only [AttributeError], only when the pool is not empty, the
    uniform draw is not below EPSILON and the judge has no row for
    [prev]. *)
Theorem choose_next_outcome (uid : Z) (env : Env) (db : DB) (J : Annotator.t) :
  annotator_by_id db (Some uid) = Some J ->
  let pool := preferred_applicants db (clock_query env) J in
  (choose_next uid env db = Done None <-> pool = [])
  /\ (forall c, choose_next uid env db = Done (Some c) -> In c pool)
  /\ (forall e, choose_next uid env db = Raise e ->
                e = AttributeError
                /\ pool <> []
                /\ ~ (uniform env < EPSILON)%Q
                /\ rel db (Annotator.prev J) = Raise AttributeError).
Proof.
  intros HJ pool. split; [|split].
  - split.
    + intro H. exact (choose_next_Done uid env db J None HJ H).
    + intro H. unfold choose_next, self. rewrite HJ. cbn [bind].
      fold pool. rewrite H. reflexivity.
  - intros c H. exact (choose_next_Done uid env db J (Some c) HJ H).
  - intros e H. unfold choose_next, self in H. rewrite HJ in H.
    cbn [bind] in H. fold pool in H.
    destruct (shuffle (draws env) pool) as [|first rest] eqn:E; [discriminate|].
    destruct (Qltb (uniform env) EPSILON) eqn:Eu; [discriminate|].
    assert (Hrel : rel db (Annotator.prev J) = Raise AttributeError
                   /\ e = AttributeError).
    { unfold rel in *. destruct (Annotator.prev J) as [k|].
      - destruct (applicant_by_id db k); cbn [bind argmax] in H;
          [discriminate|]. injection H as <-. split; reflexivity.
      - cbn [bind] in H. injection H as <-. split; reflexivity. }
    destruct Hrel as [Hrel ->].
    split; [reflexivity|]. split.
    { intro C. apply shuffle_nil with (d := draws env) in C.
      rewrite C in E. discriminate. }
    split; [|exact Hrel].
    intro C. apply Qltb_lt in C. congruence.
Qed.

(** ** The pages *)

Lemma maybe_init_cases (session : option Z) (env : Env) (db : DB)
      (J : Annotator.t) :
  get_current_annotator session db = Some J ->
  match Annotator.next J with
  | Some _ => maybe_init_annotator session env db = Done db
  | None =>
      match preferred_applicants db (clock_query env) J with
      | [] => maybe_init_annotator session env db = Done db
      | _ :: _ =>
          exists c,
            In c (preferred_applicants db (clock_query env) J)
            /\ maybe_init_annotator session env db
               = Done (update_next (Annotator.id J) (Some c)
                                   (clock_assign env) db)
      end
  end.
Proof.
  intro HJ. unfold maybe_init_annotator. rewrite HJ.
  destruct (Annotator.next J); [reflexivity|].
  destruct (preferred_applicants db (clock_query env) J) as [|x r] eqn:Ep;
    [reflexivity|].
  cbn [nonempty].
  assert (Hne : x :: r <> []) by discriminate.
  destruct (choice_In (draws env) (x :: r) Hne) as (c & Hc & Hin).
  exists c. split; [exact Hin|]. rewrite Hc. reflexivity.
Qed.

(** X13. GET / never raises once the sync of the Firebase user has
    returned (or there is no such user), when the annotator of the
    session is an active judge who has read the welcome page and the
    site is open.  It shows the wait page exactly when the
    judge has no [next] and every active applicant is on the judge's
    ignore list; a judge who has a [next] gets the begin page or, with a
    [prev], the vote page for it and nothing is written; a judge without
    [next] and with a non-empty pool is assigned a member of the pool
    and is shown that item. *)
Theorem index_judging_page {U : Type} (firebase_user : option U)
        (sync : U -> Site -> outcome (option Z * Site))
        (session session1 : option Z)
        (env : Env) (site site1 : Site) (J : Annotator.t) :
  index_session firebase_user sync session site = Done (session1, site1) ->
  get_current_annotator session1 (site_db site1) = Some J ->
  is_closed site1 = false ->
  Annotator.active J = true ->
  mem (Annotator.id J) (welcomed site1) = true ->
  let db := site_db site1 in
  let shows n := match Annotator.prev J with
                 | None => BeginPage n
                 | Some p => VotePage p n
                 end in
  exists page db',
    index firebase_user sync session env site
    = Done (page, session1, commit site1 db')
    /\ (page = WaitPage
        <-> Annotator.next J = None
            /\ forall a, In a (applicants db) -> Applicant.active a = true ->
                         In (Applicant.id a) (Annotator.ignore J))
    /\ (forall n, Annotator.next J = Some n -> page = shows n /\ db' = db)
    /\ (Annotator.next J = None ->
        preferred_applicants db (clock_query env) J <> [] ->
        exists c, In c (preferred_applicants db (clock_query env) J)
                  /\ page = shows (Applicant.id c)
                  /\ db' = update_next (Annotator.id J) (Some c)
                                       (clock_assign env) db).
Proof.
  intros Hs HJ Hopen Hact Hwel db shows.
  destruct (current_annotator_id _ _ _ HJ) as [_ HJ']. fold db in HJ, HJ'.
  assert (Hshape : forall db' J',
             maybe_init_annotator session1 env db = Done db' ->
             annotator_by_id db' (Some (Annotator.id J)) = Some J' ->
             index firebase_user sync session env site
             = Done (match Annotator.next J' with
                     | None => WaitPage
                     | Some n =>
                         match Annotator.prev J' with
                         | None => BeginPage n
                         | Some p => VotePage p n
                         end
                     end, session1, commit site1 db')).
  { intros db' J' Hi HJ2. unfold index. rewrite Hs. cbn [bind fst snd].
    unfold index_page. fold db. rewrite HJ.
    rewrite Hopen, Hact, Hwel. cbn [negb]. rewrite Hi. cbn [bind].
    unfold self. rewrite HJ2. reflexivity. }
  pose proof (maybe_init_cases session1 env db J HJ) as Hc.
  pose proof (preferred_nil_iff db (clock_query env) J) as Hnil.
  destruct (Annotator.next J) as [n|] eqn:Hn.
  - exists (shows n), db. split.
    { rewrite (Hshape db J Hc HJ'). rewrite Hn. reflexivity. }
    split.
    { split; [|intros [C _]; discriminate].
      unfold shows. destruct (Annotator.prev J); discriminate. }
    split; [|intros C; discriminate].
    intros m Hm. injection Hm as <-. split; reflexivity.
  - destruct (preferred_applicants db (clock_query env) J) as [|x r] eqn:Ep.
    + exists WaitPage, db. split.
      { rewrite (Hshape db J Hc HJ'). rewrite Hn. reflexivity. }
      split.
      { split; [|reflexivity]. intros _. split; [reflexivity|].
        apply Hnil. reflexivity. }
      split; [intros m C; discriminate|].
      intros _ C. contradiction.
    + destruct Hc as (c & Hin & Hi).
      exists (shows (Applicant.id c)),
             (update_next (Annotator.id J) (Some c) (clock_assign env) db).
      split.
      { rewrite (Hshape _ _ Hi
                   (update_next_annotator (Annotator.id J) (Some c)
                      (clock_assign env) db J HJ')).
        reflexivity. }
      split.
      { split.
        - unfold shows. destruct (Annotator.prev J); discriminate.
        - intros [_ C]. apply Hnil in C. discriminate. }
      split; [intros m C; discriminate|].
      intros _ _. exists c. split; [exact Hin|]. split; reflexivity.
Qed.

(** X14. GET / raises exactly when the sync of the Firebase user
    raises, and then with that exception; nothing else in it can raise,
    whatever the session and the tables hold.  When the sync returns, or
    there is no Firebase user, it answers with a page, and that page is
    the logged-out page exactly when the session then names no row of
    the annotator table. *)
Theorem index_raises_only_in_sync {U : Type} (firebase_user : option U)
        (sync : U -> Site -> outcome (option Z * Site)) (session : option Z)
        (env : Env) (site : Site) :
  (forall e, index firebase_user sync session env site = Raise e
             <-> exists u, firebase_user = Some u /\ sync u site = Raise e)
  /\ (forall session1 site1,
        index_session firebase_user sync session site
        = Done (session1, site1) ->
        exists page site',
          index firebase_user sync session env site
          = Done (page, session1, site')
          /\ (page = LoggedOut
              <-> get_current_annotator session1 (site_db site1) = None))
  /\ (firebase_user = None ->
      exists page site',
        index firebase_user sync session env site = Done (page, session, site')).
Proof.
  assert (Hpage : forall session1 site1,
             exists page site',
               index_page session1 env site1 = Done (page, session1, site')
               /\ (page = LoggedOut
                   <-> get_current_annotator session1 (site_db site1) = None)).
  { intros session1 site1. unfold index_page.
    destruct (get_current_annotator session1 (site_db site1)) as [J|] eqn:HJ.
    2:{ eexists _, _. split; [reflexivity|]. split; reflexivity. }
    destruct (is_closed site1).
    { eexists _, _. split; [reflexivity|]. split; discriminate. }
    destruct (negb (Annotator.active J)).
    { eexists _, _. split; [reflexivity|]. split; discriminate. }
    destruct (negb (mem (Annotator.id J) (welcomed site1))).
    { eexists _, _. split; [reflexivity|]. split; discriminate. }
    destruct (current_annotator_id _ _ _ HJ) as [_ HJ'].
    assert (Hrow : exists db' J',
               maybe_init_annotator session1 env (site_db site1) = Done db'
               /\ annotator_by_id db' (Some (Annotator.id J)) = Some J').
    { pose proof (maybe_init_cases session1 env (site_db site1) J HJ) as Hc.
      destruct (Annotator.next J).
      - exists (site_db site1), J. split; assumption.
      - destruct (preferred_applicants (site_db site1) (clock_query env) J).
        + exists (site_db site1), J. split; assumption.
        + destruct Hc as (c & _ & Hi). eexists _, _. split; [exact Hi|].
          apply update_next_annotator. exact HJ'. }
    destruct Hrow as (db' & J' & Hi & HJ2).
    rewrite Hi. cbn [bind]. unfold self. rewrite HJ2. cbn [bind].
    eexists _, _. split; [reflexivity|].
    split; [|discriminate].
    destruct (Annotator.next J'); [destruct (Annotator.prev J')|]; discriminate. }
  split; [|split].
  - intro e. unfold index, index_session.
    destruct firebase_user as [u|].
    + destruct (sync u site) as [[[aid|] site1]|e'] eqn:Es; cbn [bind fst snd].
      * destruct (Hpage (Some aid) site1) as (page & site' & E & _).
        rewrite E. split; [discriminate|].
        intros (u' & Hu & Hr). injection Hu as <-. congruence.
      * destruct (Hpage session site1) as (page & site' & E & _).
        rewrite E. split; [discriminate|].
        intros (u' & Hu & Hr). injection Hu as <-. congruence.
      * split.
        -- intro H. injection H as ->. exists u. split; [reflexivity | exact Es].
        -- intros (u' & Hu & Hr). injection Hu as <-. congruence.
    + cbn [bind fst snd]. destruct (Hpage session site) as (page & site' & E & _).
      rewrite E. split; [discriminate|]. intros (u' & Hu & _). discriminate.
  - intros session1 site1 Hs. unfold index. rewrite Hs. cbn [bind fst snd].
    apply Hpage.
  - intros ->. unfold index, index_session. cbn [bind fst snd].
    destruct (Hpage session site) as (page & site' & E & _).
    exists page, site'. exact E.
Qed.

(** X15. The three POST routes of the judge do nothing but redirect to
    the index when the site is closed, when the session names no
    annotator, or when the annotator is not active: the site is returned
    unchanged and nothing raises. *)
Theorem guarded_routes_noop (session : option Z) (vform : VoteForm)
        (bform : BeginForm) (action : string) (env : Env) (site : Site) :
  is_closed site = true
  \/ get_current_annotator session (site_db site) = None
  \/ (exists J, get_current_annotator session (site_db site) = Some J
                /\ Annotator.active J = false) ->
  vote_view session vform env site = Done (Redirect "index", site)
  /\ begin_view session bform env site = Done (Redirect "index", site)
  /\ welcome_done session action site = Done (Redirect "index", site).
Proof.
  intro H. unfold vote_view, begin_view, welcome_done, requires_open,
             requires_active_annotator.
  destruct (is_closed site); [repeat split|].
  destruct H as [C | [H | (J & HJ & Ha)]]; [discriminate | |].
  - rewrite H. repeat split.
  - rewrite HJ, Ha. repeat split.
Qed.

(** X16. begin() with the id of the judge's [next] and an action that
    is neither Continue nor Skip still commits: the item enters the
    judge's ignore list unless it is already there (so a second such
    request changes nothing), while [next], [prev], the applicants and
    the decisions stay as they were.  Without a [next] begin() raises
    [AttributeError], and with another id it changes nothing. *)
Theorem begin_edge_cases (session : option Z) (form : BeginForm) (env : Env)
        (db : DB) (J : Annotator.t) :
  get_current_annotator session db = Some J ->
  (Annotator.next J = None -> begin session form env db = Raise AttributeError)
  /\ (forall n, Annotator.next J = Some n -> n <> bf_applicant_id form ->
                begin session form env db = Done db)
  /\ (forall n, Annotator.next J = Some n -> n = bf_applicant_id form ->
                String.eqb (bf_action form) "Continue" = false ->
                String.eqb (bf_action form) "Skip" = false ->
                exists db' J',
                  begin session form env db = Done db'
                  /\ annotator_by_id db' (Some (Annotator.id J)) = Some J'
                  /\ J' = Annotator.with_ignore
                            (rel_append n (Annotator.ignore J)) J
                  /\ (In n (Annotator.ignore J) -> J' = J)
                  /\ (~ In n (Annotator.ignore J) ->
                      Annotator.ignore J' = Annotator.ignore J ++ [n])
                  /\ applicants db' = applicants db
                  /\ decisions db' = decisions db).
Proof.
  intro HJ. destruct (current_annotator_id _ _ _ HJ) as [_ HJ'].
  unfold begin. rewrite HJ. cbv zeta. split; [|split].
  - intros ->. reflexivity.
  - intros n -> Hne. apply Z.eqb_neq in Hne. rewrite Hne. reflexivity.
  - intros n -> -> Ec Es. rewrite Z.eqb_refl, Ec, Es.
    eexists _, _. split; [reflexivity|]. split.
    { unfold ignore_append. rewrite annotator_on_annotator by reflexivity.
      rewrite HJ'. reflexivity. }
    split; [reflexivity|]. split.
    { intro Hin. rewrite (rel_append_old _ _ Hin). destruct J; reflexivity. }
    split.
    { intro Hni. cbn. apply rel_append_new. exact Hni. }
    split; reflexivity.
Qed.

(** ** The admin page *)

Lemma dict_get_set {V : Type} (d : list (Z * V)) (k k' : Z) (v default : V) :
  dict_get (dict_set d k v) k' default
  = if k =? k' then v else dict_get d k' default.
Proof.
  induction d as [|[k0 v0] r IH]; cbn; [reflexivity|].
  destruct (k0 =? k) eqn:E0; cbn.
  - apply Z.eqb_eq in E0. subst k0. destruct (k =? k'); reflexivity.
  - rewrite IH. destruct (k0 =? k') eqn:E1; [|reflexivity].
    apply Z.eqb_eq in E1. subst k'. rewrite Z.eqb_sym, E0. reflexivity.
Qed.

Lemma dict_has_set {V : Type} (d : list (Z * V)) (k k' : Z) (v : V) :
  dict_has (dict_set d k v) k' = (k =? k') || dict_has d k'.
Proof.
  unfold dict_has. induction d as [|[k0 v0] r IH]; cbn.
  - reflexivity.
  - destruct (k0 =? k) eqn:E0; cbn.
    + apply Z.eqb_eq in E0. subst k0. destruct (k =? k'); reflexivity.
    + rewrite IH. destruct (k0 =? k'), (k =? k'); reflexivity.
Qed.

Lemma admin_counts_fold (ds : list Decision.t) (c ac : list (Z * nat)) (k : Z) :
  dict_get (fst (fold_left admin_count_one ds (c, ac))) k 0%nat
  = (dict_get c k 0
     + List.length (filter (fun d => (Decision.annotator d =? k)%Z) ds))%nat
  /\ dict_get (snd (fold_left admin_count_one ds (c, ac))) k 0%nat
     = (dict_get ac k 0
        + List.length (filter (fun d => (Decision.winner d =? k)%Z) ds)
        + List.length (filter (fun d => (Decision.loser d =? k)%Z) ds))%nat.
Proof.
  revert c ac. induction ds as [|d ds IH]; intros c ac.
  - cbn. split; lia.
  - cbn [fold_left filter].
    destruct (admin_count_one (c, ac) d) as [c1 ac1] eqn:E.
    destruct (IH c1 ac1) as [E1 E2]. rewrite E1, E2.
    unfold admin_count_one in E. cbv zeta in E. injection E as <- <-.
    rewrite !dict_get_set. split.
    + destruct (Z.eqb_spec (Decision.annotator d) k) as [->|];
        cbn [List.length]; lia.
    + destruct (Z.eqb_spec (Decision.winner d) k) as [Hw|Hw];
        destruct (Z.eqb_spec (Decision.loser d) k) as [Hl|Hl];
        destruct (Z.eqb_spec (Decision.winner d) (Decision.loser d))
          as [Hwl|Hwl];
        cbn [List.length]; try congruence;
        try rewrite Hw; try rewrite Hl; lia.
Qed.

(** X17. The tallies of the admin page count the decisions: the entry
    of an annotator is the number of decisions it made, and the entry of
    an applicant is the number of decisions it won plus the number it
    lost (0 stands for a missing entry). *)
Theorem admin_counts_spec (ds : list Decision.t) (k : Z) :
  dict_get (fst (admin_counts ds)) k 0%nat
  = List.length (filter (fun d => (Decision.annotator d =? k)%Z) ds)
  /\ dict_get (snd (admin_counts ds)) k 0%nat
     = (List.length (filter (fun d => (Decision.winner d =? k)%Z) ds)
        + List.length (filter (fun d => (Decision.loser d =? k)%Z) ds))%nat.
Proof.
  unfold admin_counts. destruct (admin_counts_fold ds [] [] k) as [E1 E2].
  rewrite E1, E2. cbn. split; lia.
Qed.

Lemma find_app_r {A : Type} (f : A -> bool) (l1 l2 : list A) :
  find f (l1 ++ l2)
  = match find f l1 with
    | Some x => Some x
    | None => find f l2
    end.
Proof.
  induction l1 as [|x l1 IH]; cbn; [reflexivity|].
  destruct (f x); [reflexivity | exact IH].
Qed.

Lemma NoDup_key_inj {A : Type} (key : A -> Z) (l : list A) (x y : A) :
  NoDup (map key l) -> In x l -> In y l -> key x = key y -> x = y.
Proof.
  induction l as [|a l IH]; cbn; intros Hnd Hx Hy E; [contradiction|].
  inversion Hnd as [|? ? Hni Hnd']; subst.
  destruct Hx as [<-|Hx]; destruct Hy as [<-|Hy].
  - reflexivity.
  - exfalso. apply Hni. rewrite E. apply in_map. exact Hy.
  - exfalso. apply Hni. rewrite <- E. apply in_map. exact Hx.
  - apply IH; assumption.
Qed.

Lemma admin_viewed_fold (rows : list Applicant.t) (acc : list (Z * list Z))
      (k : Z) :
  dict_get (fold_left (fun d a => dict_set d (Applicant.id a)
                                           (Applicant.viewed a)) rows acc)
           k []
  = match find (fun a => Applicant.id a =? k) (rev rows) with
    | Some X => Applicant.viewed X
    | None => dict_get acc k []
    end
  /\ dict_has (fold_left (fun d a => dict_set d (Applicant.id a)
                                              (Applicant.viewed a)) rows acc)
              k
     = existsb (fun a => Applicant.id a =? k) rows || dict_has acc k.
Proof.
  revert acc. induction rows as [|a rows IH]; intro acc; cbn [fold_left rev].
  - split; reflexivity.
  - destruct (IH (dict_set acc (Applicant.id a) (Applicant.viewed a)))
      as [E1 E2].
    rewrite E1, E2, find_app_r, dict_get_set, dict_has_set. cbn [find existsb].
    split.
    + destruct (find (fun a0 => Applicant.id a0 =? k) (rev rows));
        [reflexivity|].
      destruct (Applicant.id a =? k); reflexivity.
    + destruct (existsb (fun a0 => Applicant.id a0 =? k) rows),
        (Applicant.id a =? k); reflexivity.
Qed.

Lemma admin_viewed_row (apps : list Applicant.t) (X : Applicant.t) :
  NoDup (map Applicant.id apps) -> In X apps ->
  dict_get (admin_viewed apps) (Applicant.id X) [] = Applicant.viewed X
  /\ dict_has (admin_viewed apps) (Applicant.id X) = true.
Proof.
  intros Hnd Hin. unfold admin_viewed.
  destruct (admin_viewed_fold apps [] (Applicant.id X)) as [E1 E2].
  rewrite E1, E2. split.
  - destruct (find (fun a => Applicant.id a =? Applicant.id X) (rev apps))
      as [X'|] eqn:E.
    + apply find_some in E. destruct E as [Hin' Hk].
      apply Z.eqb_eq in Hk. apply in_rev in Hin'.
      rewrite (NoDup_key_inj Applicant.id apps X' X Hnd Hin' Hin Hk).
      reflexivity.
    + exfalso. pose proof (find_none _ _ E X (proj1 (in_rev _ _) Hin)) as C.
      cbn in C. rewrite Z.eqb_refl in C. discriminate.
  - rewrite orb_false_r. apply existsb_exists. exists X.
    split; [exact Hin | apply Z.eqb_refl].
Qed.

Lemma admin_skip_fold (v : list (Z * list Z)) (j : Z) (ign : list Z)
      (sk : list (Z * nat)) (x : Z) :
  dict_get (fold_left (admin_skip_one v j) ign sk) x 0%nat
  = (dict_get sk x 0
     + if dict_has v x && negb (mem j (dict_get v x []))
       then count_occ Z.eq_dec ign x else 0)%nat.
Proof.
  revert sk. induction ign as [|a ign IH]; intro sk; cbn [fold_left count_occ].
  - destruct (dict_has v x && negb (mem j (dict_get v x []))); lia.
  - rewrite IH. unfold admin_skip_one.
    destruct (Z.eq_dec a x) as [->|Hne].
    + destruct (dict_has v x && negb (mem j (dict_get v x []))); [|lia].
      rewrite dict_get_set, Z.eqb_refl. lia.
    + destruct (dict_has v a && negb (mem j (dict_get v a [])));
        [rewrite dict_get_set;
         replace (a =? x)%Z with false by (symmetry; apply Z.eqb_neq; exact Hne)|];
        destruct (dict_has v x && negb (mem j (dict_get v x []))); lia.
Qed.

Lemma count_occ_NoDup_mem (l : list Z) (x : Z) :
  NoDup l -> count_occ Z.eq_dec l x = if mem x l then 1%nat else 0%nat.
Proof.
  intro Hnd. destruct (mem x l) eqn:E.
  - apply mem_In in E. apply (proj1 (NoDup_count_occ' Z.eq_dec l) Hnd x E).
  - apply count_occ_not_In. intro C. apply mem_In in C. congruence.
Qed.

Lemma length_filter_sum {A : Type} (p : A -> bool) (l : list A) :
  List.length (filter p l)
  = list_sum (map (fun a => if p a then 1%nat else 0%nat) l).
Proof.
  induction l as [|a l IH]; [reflexivity|].
  cbn [filter map].
  match goal with
  | |- context [list_sum (?y :: ?r)] =>
      change (list_sum (y :: r)) with (y + list_sum r)%nat
  end.
  destruct (p a); cbn [List.length]; rewrite IH; reflexivity.
Qed.

Lemma mem_nodup (x : Z) (l : list Z) : mem x (nodup Z.eq_dec l) = mem x l.
Proof.
  destruct (mem x l) eqn:E.
  - apply mem_In. apply nodup_In. apply mem_In. exact E.
  - apply not_true_is_false. intro C. apply mem_In in C.
    apply nodup_In in C. apply mem_In in C. congruence.
Qed.

Lemma count_occ_nodup_mem (l : list Z) (x : Z) :
  count_occ Z.eq_dec (nodup Z.eq_dec l) x = if mem x l then 1%nat else 0%nat.
Proof.
  rewrite (count_occ_NoDup_mem _ _ (NoDup_nodup Z.eq_dec l)).
  rewrite mem_nodup. reflexivity.
Qed.

Lemma admin_skipped_fold (v : list (Z * list Z)) (anns : list Annotator.t)
      (sk : list (Z * nat)) (x : Z) :
  dict_get (fold_left
              (fun skipped ann =>
                 fold_left (admin_skip_one v (Annotator.id ann))
                           (nodup Z.eq_dec (Annotator.ignore ann)) skipped)
              anns sk) x 0%nat
  = (dict_get sk x 0
     + list_sum
         (map (fun ann =>
                 if dict_has v x
                    && negb (mem (Annotator.id ann) (dict_get v x []))
                 then count_occ Z.eq_dec (nodup Z.eq_dec (Annotator.ignore ann)) x
                 else 0%nat) anns))%nat.
Proof.
  revert sk. induction anns as [|a anns IH]; intro sk; cbn [fold_left map].
  - change (list_sum []) with 0%nat. lia.
  - rewrite IH, admin_skip_fold.
    match goal with
    | |- context [list_sum (?y :: ?l)] =>
        change (list_sum (y :: l)) with (y + list_sum l)%nat
    end.
    lia.
Qed.

(** X18. With applicant ids that are unique, the skipped tally of the
    admin page gives for every applicant the number of judges that have
    it on their ignore list and are not in its viewed list; ids that are
    not in the applicant table get no entry. *)
Theorem admin_skipped_spec (apps : list Applicant.t) (anns : list Annotator.t) :
  NoDup (map Applicant.id apps) ->
  (forall X, In X apps ->
             dict_get (admin_skipped (admin_viewed apps) anns)
                      (Applicant.id X) 0%nat
             = List.length
                 (filter (fun ann =>
                            mem (Applicant.id X) (Annotator.ignore ann)
                            && negb (mem (Annotator.id ann)
                                         (Applicant.viewed X))) anns))
  /\ (forall x, ~ has_applicant apps x ->
                dict_has (admin_skipped (admin_viewed apps) anns) x = false).
Proof.
  intro Hnd. split.
  - intros X Hin. unfold admin_skipped. rewrite admin_skipped_fold.
    destruct (admin_viewed_row apps X Hnd Hin) as [E1 E2].
    rewrite E1, E2. cbn [dict_get andb]. rewrite Nat.add_0_l.
    rewrite length_filter_sum. f_equal. apply map_ext. intro ann.
    rewrite count_occ_nodup_mem.
    destruct (mem (Applicant.id X) (Annotator.ignore ann));
      destruct (mem (Annotator.id ann) (Applicant.viewed X)); reflexivity.
  - intros x Hx. unfold admin_skipped.
    assert (Hv : dict_has (admin_viewed apps) x = false).
    { unfold admin_viewed.
      destruct (admin_viewed_fold apps [] x) as [_ E]. rewrite E.
      rewrite orb_false_r. apply not_true_is_false. intro C.
      apply existsb_exists in C. destruct C as (a & Ha & Hk).
      apply Z.eqb_eq in Hk. apply Hx. exists a. split; assumption. }
    assert (Hone : forall j ign sk,
               dict_has sk x = false ->
               dict_has (fold_left (admin_skip_one (admin_viewed apps) j)
                                   ign sk) x = false).
    { intros j ign. induction ign as [|a ign IH]; intros sk Hsk;
        cbn [fold_left]; [exact Hsk|].
      apply IH. unfold admin_skip_one.
      destruct (dict_has (admin_viewed apps) a) eqn:Ea; cbn [andb];
        [|exact Hsk].
      destruct (negb (mem j (dict_get (admin_viewed apps) a [])));
        [|exact Hsk].
      rewrite dict_has_set, Hsk, orb_false_r. apply Z.eqb_neq.
      intros ->. congruence. }
    assert (Hall : forall sk, dict_has sk x = false ->
                              dict_has
                                (fold_left
                                   (fun skipped ann =>
                                      fold_left
                                        (admin_skip_one (admin_viewed apps)
                                                        (Annotator.id ann))
                                        (nodup Z.eq_dec
                                                  (Annotator.ignore ann))
                                        skipped)
                                   anns sk) x = false).
    { induction anns as [|a anns IH]; intros sk Hsk; cbn [fold_left];
        [exact Hsk|].
      apply IH. apply Hone. exact Hsk. }
    apply Hall. reflexivity.
Qed.

(** ** The admin flags and the pool *)

(** X19. Disable of an applicant from the admin page raises exactly
    when there is no such applicant; when it returns, no judge's pool
    contains an applicant with that id, at any time, and the annotators
    and the decisions are untouched. *)
Theorem disabled_never_offered (applicant_id : option Z) (db : DB) :
  (applicant_active_tx applicant_id false db = Raise AttributeError
   <-> match applicant_id with
       | Some k => applicant_by_id db k = None
       | None => True
       end)
  /\ (forall db',
         applicant_active_tx applicant_id false db = Done db' ->
         annotators db' = annotators db
         /\ decisions db' = decisions db
         /\ forall now J c,
             In c (preferred_applicants db' now J) ->
             Some (Applicant.id c) <> applicant_id).
Proof.
  unfold applicant_active_tx. destruct applicant_id as [k|].
  2:{ split; [split; reflexivity | discriminate]. }
  destruct (applicant_by_id db k) as [X|] eqn:E.
  - split; [split; discriminate|].
    intros db' H. injection H as <-. split; [reflexivity|].
    split; [reflexivity|]. intros now J c Hc Hk.
    apply preferred_In in Hc. destruct Hc as (Hin & Hact & _).
    cbn in Hin. apply In_set_row in Hin.
    destruct Hin as (x & _ & [[_ ->] | [Hne ->]]).
    + cbn in Hact. discriminate.
    + apply Hne. congruence.
  - split; [split; reflexivity | discriminate].
Qed.

(** X20. After Prioritize of an active applicant from the admin page,
    every judge that does not ignore that applicant has a non-empty pool
    made of prioritized applicants only, at any time. *)
Theorem prioritized_offered_first (k : Z) (db db' : DB) (X : Applicant.t)
        (now : Z) (J : Annotator.t) :
  prioritize_tx (Some k) true db = Done db' ->
  applicant_by_id db k = Some X ->
  Applicant.active X = true ->
  ~ In k (Annotator.ignore J) ->
  preferred_applicants db' now J <> []
  /\ forall c, In c (preferred_applicants db' now J) ->
               Applicant.prioritized c = true.
Proof.
  intros H HX Hact Hni. unfold prioritize_tx in H. rewrite HX in H.
  injection H as <-.
  set (db' := on_applicant k (Applicant.with_prioritized true) db).
  assert (HX' : applicant_by_id db' k
                = Some (Applicant.with_prioritized true X)).
  { unfold db'. rewrite applicant_on_applicant by reflexivity.
    rewrite Z.eqb_refl, HX. reflexivity. }
  destruct (get_row_key _ _ _ _ HX') as [Hk Hin].
  assert (Hs1 : In (Applicant.with_prioritized true X) (pool_start db' J)).
  { apply pool_start_In. split; [exact Hin|]. split; [exact Hact|].
    rewrite Hk. exact Hni. }
  split.
  - rewrite preferred_pipeline, pipeline_nil. intro C.
    rewrite C in Hs1. contradiction.
  - intros c Hc. rewrite preferred_pipeline in Hc.
    unfold pipeline, pool_less_seen, pool_nonbusy in Hc. cbv zeta in Hc.
    apply prefer_incl in Hc. apply prefer_incl in Hc.
    rewrite pool_prioritized_prefer in Hc.
    apply (prefer_pure _ _ _ Hc).
    exists (Applicant.with_prioritized true X). split; [exact Hs1 | reflexivity].
Qed.

(** X21. Disable of a judge from the admin page keeps the applicants
    and the decisions; afterwards an item is busy only through another
    judge that was already active with that fresh assignment, and the
    disabled judge's POST /vote and POST /begin only redirect, leaving
    the site as it is. *)
Theorem disabled_judge (annotator_id : option Z) (db : DB) (A : Annotator.t) :
  annotator_by_id db annotator_id = Some A ->
  exists db',
    annotator_active_tx annotator_id false db = Done db'
    /\ applicants db' = applicants db
    /\ decisions db' = decisions db
    /\ (forall now i,
          busy now (annotators db') i = true ->
          exists a, In a (annotators db)
                    /\ Annotator.id a <> Annotator.id A
                    /\ Annotator.active a = true
                    /\ Annotator.next a = Some i
                    /\ recent now a = true)
    /\ (forall closed welcome vform bform env,
          vote_view annotator_id vform env (mkSite db' closed welcome)
          = Done (Redirect "index", mkSite db' closed welcome)
          /\ begin_view annotator_id bform env (mkSite db' closed welcome)
             = Done (Redirect "index", mkSite db' closed welcome)).
Proof.
  intro HA. unfold annotator_active_tx. rewrite HA.
  eexists. split; [reflexivity|]. split; [reflexivity|].
  split; [reflexivity|]. split.
  - intros now i Hb. unfold busy in Hb. apply existsb_exists in Hb.
    destruct Hb as (a' & Hin & Hc).
    apply andb_true_iff in Hc. destruct Hc as [Hc Hr].
    apply andb_true_iff in Hc. destruct Hc as [Hact Hn].
    cbn in Hin. apply In_set_row in Hin.
    destruct Hin as (a & Ha & [[_ ->] | [Hne ->]]).
    + cbn in Hact. discriminate.
    + exists a. split; [exact Ha|]. split; [exact Hne|].
      split; [exact Hact|]. split; [|exact Hr].
      destruct (Annotator.next a) as [m|]; [|discriminate].
      apply Z.eqb_eq in Hn. congruence.
  - intros closed welcome vform bform env.
    assert (HA' : get_current_annotator annotator_id
                    (on_annotator (Annotator.id A)
                                  (annotator_with_active false) db)
                  = Some (annotator_with_active false A)).
    { unfold get_current_annotator. destruct annotator_id as [u|];
        [|discriminate].
      destruct (current_annotator_id (Some u) db A HA) as [Hu _].
      injection Hu as ->.
      rewrite annotator_on_annotator by reflexivity.
      unfold get_current_annotator in HA. rewrite HA. reflexivity. }
    unfold vote_view, begin_view, requires_open, requires_active_annotator.
    cbn [site_db]. rewrite HA'. cbn [annotator_with_active Annotator.active negb].
    destruct (is_closed (mkSite _ closed welcome)); split; reflexivity.
Qed.

(** ** The detail pages *)

(* the test on [viewed_ids] in applicant_detail() chooses between two
   queries with the same rows *)
Lemma applicant_detail_skipped (k : Z) (db : DB) (X : Applicant.t)
      (assigned skipped : list Annotator.t) :
  applicant_detail k db = ApplicantDetail X assigned skipped ->
  Applicant.id X = k /\ In X (applicants db)
  /\ assigned = filter (fun a => match Annotator.next a with
                                 | Some n => n =? k
                                 | None => false
                                 end) (annotators db)
  /\ skipped = filter (fun a => mem k (Annotator.ignore a)
                                && negb (mem (Annotator.id a)
                                             (Applicant.viewed X)))
                      (annotators db).
Proof.
  unfold applicant_detail, applicant_by_id. intro H.
  destruct (get_row Applicant.id k (applicants db)) as [X0|] eqn:EX;
    [|discriminate].
  injection H as E1 E2 E3. subst X0.
  destruct (get_row_key _ _ _ _ EX) as [Hk Hin].
  split; [exact Hk|]. split; [exact Hin|]. rewrite Hk in E2, E3.
  split; [symmetry; exact E2|].
  rewrite <- E3. destruct (Applicant.viewed X) as [|v vs]; cbn [nonempty].
  - apply filter_ext. intro a. cbn. rewrite andb_true_r. reflexivity.
  - reflexivity.
Qed.

(** X23. The skipped list on the detail page of an applicant holds the
    judges that ignore the applicant and are not in its viewed list,
    whether or not the viewed list is empty, and the assigned list the
    judges whose [next] it is.  With unique applicant ids and ignore
    lists without repetition, the length of the skipped list is the
    skipped tally that the admin page shows for the applicant, in
    whatever order the admin page reads the two tables. *)
Theorem applicant_detail_matches_tally (db : DB) (k : Z) (X : Applicant.t)
        (assigned skipped : list Annotator.t)
        (apps : list Applicant.t) (anns : list Annotator.t) :
  NoDup (map Applicant.id (applicants db)) ->
  (forall a, In a (annotators db) -> NoDup (Annotator.ignore a)) ->
  Permutation apps (applicants db) ->
  Permutation anns (annotators db) ->
  applicant_detail k db = ApplicantDetail X assigned skipped ->
  List.length skipped = dict_get (admin_skipped (admin_viewed apps) anns) k 0%nat
  /\ (forall a, In a skipped
                <-> In a (annotators db)
                    /\ In k (Annotator.ignore a)
                    /\ ~ In (Annotator.id a) (Applicant.viewed X))
  /\ (forall a, In a assigned
                <-> In a (annotators db) /\ Annotator.next a = Some k).
Proof.
  intros Hnd Hign Papps Panns H.
  destruct (applicant_detail_skipped k db X assigned skipped H)
    as (Hk & Hin & -> & ->).
  split; [|split].
  - unfold admin_skipped. rewrite admin_skipped_fold.
    assert (Hnd' : NoDup (map Applicant.id apps)).
    { eapply Permutation_NoDup; [|exact Hnd].
      apply Permutation_map. apply Permutation_sym. exact Papps. }
    assert (Hin' : In X apps).
    { eapply Permutation_in; [apply Permutation_sym; exact Papps | exact Hin]. }
    subst k. destruct (admin_viewed_row apps X Hnd' Hin') as [E1 E2].
    rewrite E1, E2. cbn [dict_get andb]. rewrite Nat.add_0_l.
    rewrite (Permutation_list_sum
               (Permutation_map
                      (fun ann =>
                         if negb (mem (Annotator.id ann) (Applicant.viewed X))
                         then count_occ Z.eq_dec
                                        (nodup Z.eq_dec (Annotator.ignore ann))
                                        (Applicant.id X)
                         else 0%nat) Panns)).
    rewrite length_filter_sum. f_equal. apply map_ext_in. intros a Ha.
    rewrite count_occ_nodup_mem.
    destruct (mem (Applicant.id X) (Annotator.ignore a));
      destruct (mem (Annotator.id a) (Applicant.viewed X)); reflexivity.
  - intro a. rewrite filter_In, andb_true_iff, negb_true_iff.
    rewrite mem_In. split.
    + intros (Ha & Hi & Hv). split; [exact Ha|]. split; [exact Hi|].
      intro C. apply mem_In in C. congruence.
    + intros (Ha & Hi & Hv). split; [exact Ha|]. split; [exact Hi|].
      apply not_true_is_false. intro C. apply mem_In in C. contradiction.
  - intro a. rewrite filter_In. split; intros [Ha Hn]; (split; [exact Ha|]).
    + destruct (Annotator.next a) as [n|]; [|discriminate].
      apply Z.eqb_eq in Hn. congruence.
    + rewrite Hn. apply Z.eqb_refl.
Qed.

(** X24. On the detail page of a judge no applicant is both in the seen
    and in the skipped list.  When every judge recorded in a viewed list
    ignores that applicant (which the judging transactions preserve), the
    two lists together are exactly the applicants of the table that are
    on the judge's ignore list. *)
Theorem annotator_detail_partition (db : DB) (k : Z) (ann : Annotator.t)
        (seen skipped : list Applicant.t) :
  viewed_ignored db ->
  annotator_detail k db = AnnotatorDetail ann seen skipped ->
  forall a,
    In a (applicants db) ->
    (In a seen <-> In k (Applicant.viewed a))
    /\ ~ (In a seen /\ In a skipped)
    /\ (In a seen \/ In a skipped <-> In (Applicant.id a) (Annotator.ignore ann)).
Proof.
  intros Hinv H a Ha. unfold annotator_detail in H.
  destruct (annotator_by_id db (Some k)) as [ann0|] eqn:EA; [|discriminate].
  injection H as E1 E2 E3. subst ann0.
  destruct (get_row_key _ _ _ _ EA) as [Hk _]. rewrite Hk in E2, E3.
  assert (Hseen : In a seen <-> In k (Applicant.viewed a)).
  { rewrite <- E2, filter_In, mem_In. split.
    - intros [_ Hv]. exact Hv.
    - intro Hv. split; assumption. }
  assert (Hskip : In a skipped
                  <-> In (Applicant.id a) (Annotator.ignore ann)
                      /\ ~ In k (Applicant.viewed a)).
  { rewrite <- E3. destruct (Annotator.ignore ann) as [|i r] eqn:Ei;
      cbn [nonempty].
    - split; [intros [] | intros [[] _]].
    - rewrite filter_In, andb_true_iff, negb_true_iff, mem_In. split.
      + intros (_ & Hi & Hv). split; [exact Hi|].
        intro C. apply mem_In in C. congruence.
      + intros (Hi & Hv). split; [exact Ha|]. split; [exact Hi|].
        apply not_true_is_false. intro C. apply mem_In in C. contradiction. }
  split; [exact Hseen|]. split.
  - intros [Hs Hp]. apply Hskip in Hp. apply Hseen in Hs.
    destruct Hp as [_ Hp]. contradiction.
  - split.
    + intros [Hs | Hp].
      * apply Hseen in Hs. exact (Hinv a k ann Ha Hs EA).
      * apply Hskip in Hp. destruct Hp as [Hp _]. exact Hp.
    + intro Hi. destruct (in_dec Z.eq_dec k (Applicant.viewed a)) as [Hv | Hv].
      * left. apply Hseen. exact Hv.
      * right. apply Hskip. split; assumption.
Qed.

End Controller.

(** ** The transactions on the sample tables *)

Local Abbreviation pool_s :=
  (preferred_applicants sample_TIMEOUT sample_MIN_VIEWS).
Local Abbreviation spec_pool_s := (spec_pool sample_TIMEOUT sample_MIN_VIEWS).
Local Abbreviation choose_next_s :=
  (choose_next sample_TIMEOUT sample_MIN_VIEWS sample_EPSILON sample_gain).
Local Abbreviation vote_s :=
  (vote sample_TIMEOUT sample_MIN_VIEWS sample_EPSILON sample_update
        sample_gain).
Local Abbreviation begin_s :=
  (begin sample_TIMEOUT sample_MIN_VIEWS sample_EPSILON sample_gain).
Local Abbreviation maybe_init_s :=
  (maybe_init_annotator sample_TIMEOUT sample_MIN_VIEWS).

Example pool_begin :
  pool_s db_begin 1000000 judge_begin = [app2; app3; app4].
Proof. reflexivity. Qed.

Example pool_marked :
  pool_s db_marked 1000000 judge_marked = [app3; app4].
Proof. reflexivity. Qed.

Example shuffle_marked :
  shuffle (draws env_greedy) [app3; app4] = [app4; app3].
Proof. reflexivity. Qed.

Example choose_greedy :
  choose_next_s 7 env_greedy db_marked = Done (Some app3).
Proof. reflexivity. Qed.

Example choose_explore :
  choose_next_s 7 env_explore db_marked = Done (Some app4).
Proof. reflexivity. Qed.

Example vote_current_records_decision :
  match vote_s (Some 7) (mkVoteForm 1 2 "Current") env_greedy db_steady with
  | Done db' =>
      decisions db' = [Decision.mk 7 2 1]
      /\ annotator_by_id db' (Some 7)
         = Some (Annotator.mk 7 true (Some 3) (Some 1000000) (Some 2) [1; 2]
                              (10 + 1) 1)
  | Raise _ => False
  end.
Proof. vm_compute. split; reflexivity. Qed.

Example vote_unknown_action_raises :
  vote_s (Some 7) (mkVoteForm 1 2 "Later") env_greedy db_steady
  = Raise UnboundLocalError.
Proof. reflexivity. Qed.

(* a begin() with an unknown action puts [next] on the ignore list and
   keeps it as [next]; the same request again writes nothing *)
Example begin_unknown_action_twice :
  begin_s (Some 7) (mkBeginForm 1 "Later") env_greedy db_begin
  = Done (mkDB [app1; app2; app3; app4]
               [Annotator.mk 7 true (Some 1) (Some 0) None [1] 10 1] [])
  /\ begin_s (Some 7) (mkBeginForm 1 "Later") env_greedy
             (mkDB [app1; app2; app3; app4]
                   [Annotator.mk 7 true (Some 1) (Some 0) None [1] 10 1] [])
     = Done (mkDB [app1; app2; app3; app4]
                  [Annotator.mk 7 true (Some 1) (Some 0) None [1] 10 1] []).
Proof. split; reflexivity. Qed.

(* an ignore table that names applicant 1 twice for one judge counts
   once in the skipped tally *)
Example admin_skipped_repeated_row :
  dict_get (admin_skipped (admin_viewed [app1; app2])
                          [Annotator.mk 7 true None None None [1; 1] 10 1])
           1 0%nat
  = 1%nat.
Proof. reflexivity. Qed.

Example vote_in_begin_state_raises :
  vote_s (Some 7) (mkVoteForm 1 2 "Current") env_greedy db_begin
  = Raise AttributeError.
Proof. reflexivity. Qed.

(** Outside the calls of judge.py: asked for a judge whose own fresh
    [next] is not on its ignore list, the code counts that assignment as
    busy.  The second hypothesis of [preferred_is_pipeline] is what
    keeps this case out. *)
Example own_assignment_is_busy :
  Annotator.next judge_begin = Some 1
  /\ pool_s db_begin 1000000 judge_begin = [app2; app3; app4]
  /\ spec_pool_s db_begin 1000000 judge_begin = [app1; app2; app3; app4].
Proof. repeat split. Qed.

Lemma preferred_is_pipeline_witness :
  pool_s db_pair 1000000 judge_marked = [app4].
Proof.
  refine (eq_trans (preferred_is_pipeline sample_TIMEOUT sample_MIN_VIEWS
                      db_pair 1000000 judge_marked _ _) _).
  - intros a [<-|[<-|[]]] H; [reflexivity | discriminate H].
  - simpl. right. left. reflexivity.
  - reflexivity.
Defined.

Lemma update_next_flag_and_time_witness :
  applicant_by_id (update_next 7 (Some app2) 5 db_new) 2
  = Some (Applicant.with_prioritized false app2)
  /\ exists J',
      annotator_by_id (update_next 7 (Some app2) 5 db_new) (Some 7) = Some J'
      /\ Annotator.updated J' = Some 5
      /\ Annotator.next J' = Some 2.
Proof.
  destruct (update_next_flag_and_time 7 5 db_new judge_new) as [H _].
  - reflexivity.
  - apply (H app2 app2). reflexivity.
Defined.

Lemma vote_stale_is_noop_witness :
  vote_s (Some 7) (mkVoteForm 9 2 "Current") env_greedy db_steady
  = Done db_steady.
Proof.
  apply (vote_stale_is_noop sample_TIMEOUT sample_MIN_VIEWS sample_EPSILON
           sample_update sample_gain (Some 7) (mkVoteForm 9 2 "Current")
           env_greedy db_steady judge_steady 1 2).
  - reflexivity.
  - reflexivity.
  - reflexivity.
  - simpl. lia.
Defined.

Lemma preferred_active_not_ignored_witness :
  In app3 (applicants db_marked)
  /\ Applicant.active app3 = true
  /\ ~ In (Applicant.id app3) (Annotator.ignore judge_marked).
Proof.
  apply (preferred_active_not_ignored sample_TIMEOUT sample_MIN_VIEWS
           db_marked 1000000 judge_marked app3).
  simpl. left. reflexivity.
Defined.

Lemma choose_next_epsilon_greedy_witness :
  exists c,
    choose_next_s 7 env_greedy db_marked = Done (Some c)
    /\ earliest_max (gain sample_gain judge_marked app2_seen)
                    [app4; app3] c.
Proof.
  destruct (choose_next_epsilon_greedy sample_TIMEOUT sample_MIN_VIEWS
              sample_EPSILON sample_gain 7 env_greedy db_marked
              judge_marked app2_seen) as (_ & _ & H).
  - reflexivity.
  - reflexivity.
  - destruct (H app4 [app3]) as [_ H2].
    + reflexivity.
    + apply H2. intro C. vm_compute in C. discriminate.
Defined.

Lemma selection_without_reference_witness :
  exists c,
    choice (draws env_greedy) (pool_s db_new 1000000 judge_new) = Some c
    /\ In c (pool_s db_new 1000000 judge_new)
    /\ maybe_init_s (Some 7) env_greedy db_new
       = Done (update_next 7 (Some c) 1000000 db_new).
Proof.
  destruct (selection_without_reference sample_TIMEOUT sample_MIN_VIEWS
              (Some 7) env_greedy db_new judge_new) as [H _].
  - reflexivity.
  - reflexivity.
  - reflexivity.
  - vm_compute. discriminate.
  - exact H.
Defined.

Lemma begin_continue_and_skip_witness :
  exists db' J',
    begin_s (Some 7) (mkBeginForm 1 "Skip") env_greedy db_begin = Done db'
    /\ annotator_by_id db' (Some 7) = Some J'
    /\ Annotator.ignore J' = [1]
    /\ Annotator.next J' = None.
Proof.
  destruct (begin_continue_and_skip sample_TIMEOUT sample_MIN_VIEWS
              sample_EPSILON sample_gain (Some 7) (mkBeginForm 1 "Skip")
              env_greedy db_begin judge_begin 1 app1) as [_ H].
  - reflexivity.
  - reflexivity.
  - reflexivity.
  - reflexivity.
  - destruct H as (db' & J' & H1 & H2 & H3 & H4 & _).
    + reflexivity.
    + exists db', J'. repeat split; assumption.
Defined.

Lemma vote_inactive_pair_witness :
  exists db',
    vote_s (Some 7) (mkVoteForm 1 2 "Current") env_greedy db_steady_off
    = Done db'
    /\ decisions db' = [].
Proof.
  destruct (vote_inactive_pair sample_TIMEOUT sample_MIN_VIEWS sample_EPSILON
              sample_update sample_gain (Some 7) (mkVoteForm 1 2 "Current")
              env_greedy db_steady_off judge_steady 1 2 app1 app2_off)
    as (chosen & J1 & db' & _ & _ & _ & _ & Hv & _ & Hd & _).
  - reflexivity.
  - reflexivity.
  - reflexivity.
  - reflexivity.
  - reflexivity.
  - right. reflexivity.
  - reflexivity.
  - reflexivity.
  - right. reflexivity.
  - exists db'. split; assumption.
Defined.

Lemma maybe_init_idempotent_witness :
  exists db',
    maybe_init_s (Some 7) env_greedy db_new = Done db'
    /\ maybe_init_s (Some 7) env_explore db' = Done db'.
Proof.
  destruct (maybe_init_idempotent sample_TIMEOUT sample_MIN_VIEWS (Some 7)
              env_greedy env_explore db_new judge_new) as (db' & H1 & H2 & _).
  - reflexivity.
  - exists db'. split; assumption.
Defined.

(** ** Runs on the sample tables *)

Local Abbreviation step_s :=
  (step sample_TIMEOUT sample_MIN_VIEWS sample_EPSILON sample_update
        sample_gain).
Local Abbreviation steps_s :=
  (steps sample_TIMEOUT sample_MIN_VIEWS sample_EPSILON sample_update
         sample_gain).

Example vote_current_steady :
  vote_s (Some 7) (mkVoteForm 1 2 "Current") env_greedy db_steady
  = Done db_voted.
Proof. reflexivity. Qed.

Lemma sample_step : step_s db_steady db_voted.
Proof.
  apply (step_vote sample_TIMEOUT sample_MIN_VIEWS sample_EPSILON
                   sample_update sample_gain db_steady db_voted
                   (Some 7) (mkVoteForm 1 2 "Current") env_greedy).
  reflexivity.
Qed.

Lemma sample_steps : steps_s db_steady db_voted.
Proof.
  eapply steps_cons; [exact sample_step | apply steps_refl].
Qed.

Lemma sample_prev_ignored : prev_ignored db_steady.
Proof.
  intros a p [<-|[]] H. injection H as <-. simpl. left. reflexivity.
Qed.

Lemma sample_assignments_exist : assignments_exist db_steady.
Proof.
  intros a k [<-|[]] [H|H]; injection H as <-; eexists; reflexivity.
Qed.

Lemma step_is_one_judge_witness :
  exists J, annotator_by_id db_steady (Some (Annotator.id J)) = Some J
            /\ (decisions db_voted = decisions db_steady
                \/ exists w l,
                    decisions db_voted
                    = decisions db_steady ++ [Decision.mk (Annotator.id J) w l]).
Proof.
  destruct (step_is_one_judge sample_TIMEOUT sample_MIN_VIEWS sample_EPSILON
              sample_update sample_gain db_steady db_voted sample_step)
    as (J & H1 & _ & _ & H4).
  exists J. split; assumption.
Defined.

Lemma steps_append_only_witness :
  extends (decisions db_steady) (decisions db_voted).
Proof.
  apply (steps_append_only sample_TIMEOUT sample_MIN_VIEWS sample_EPSILON
           sample_update sample_gain db_steady db_voted sample_steps).
Defined.

Lemma steps_prev_ignored_witness : prev_ignored db_voted.
Proof.
  apply (steps_prev_ignored sample_TIMEOUT sample_MIN_VIEWS sample_EPSILON
           sample_update sample_gain db_steady db_voted).
  - exact sample_prev_ignored.
  - exact sample_steps.
Defined.

Lemma sample_viewed_ignored : viewed_ignored db_steady.
Proof.
  intros x j J [<-|[<-|[<-|[<-|[]]]]] Hj; destruct Hj.
Qed.

Lemma steps_viewed_ignored_witness : viewed_ignored db_voted.
Proof.
  apply (steps_viewed_ignored sample_TIMEOUT sample_MIN_VIEWS sample_EPSILON
           sample_update sample_gain db_steady db_voted).
  - exact sample_viewed_ignored.
  - exact sample_steps.
Defined.

Lemma steps_assignments_exist_witness : assignments_exist db_voted.
Proof.
  apply (steps_assignments_exist sample_TIMEOUT sample_MIN_VIEWS
           sample_EPSILON sample_update sample_gain db_steady db_voted).
  - exact sample_assignments_exist.
  - exact sample_steps.
Defined.

Lemma fresh_assignment_witness :
  ~ In 3 [1; 2]
  /\ (exists x, In x (applicants db_steady) /\ Applicant.id x = 3
                /\ Applicant.active x = true).
Proof.
  destruct (fresh_assignment sample_TIMEOUT sample_MIN_VIEWS sample_EPSILON
              sample_update sample_gain db_steady db_voted 7 3 judge_steady
              (Annotator.mk 7 true (Some 3) (Some 1000000) (Some 2) [1; 2]
                            11 1))
    as (H1 & H2 & _).
  - exact sample_step.
  - reflexivity.
  - reflexivity.
  - reflexivity.
  - simpl. discriminate.
  - split; [exact H1 | exact H2].
Defined.

Lemma ignored_never_assigned_witness :
  In 1 [1; 2]
  /\ (Some 3 = Some 1 -> Some 2 = Some 1).
Proof.
  destruct (ignored_never_assigned sample_TIMEOUT sample_MIN_VIEWS
              sample_EPSILON sample_update sample_gain
              db_steady db_steady db_voted 7 1 judge_steady judge_steady
              (Annotator.mk 7 true (Some 3) (Some 1000000) (Some 2) [1; 2]
                            11 1))
    as (_ & H2 & H3).
  - apply steps_refl.
  - exact sample_step.
  - reflexivity.
  - reflexivity.
  - reflexivity.
  - simpl. left. reflexivity.
  - split; [exact H2 | exact H3].
Defined.

Lemma vote_skip_witness :
  exists chosen db',
    choose_next_s 7 env_greedy (ignore_append 7 2 db_steady) = Done chosen
    /\ vote_s (Some 7) (mkVoteForm 1 2 "Skip") env_greedy db_steady = Done db'
    /\ decisions db' = decisions db_steady.
Proof.
  destruct (vote_skip sample_TIMEOUT sample_MIN_VIEWS sample_EPSILON
              sample_update sample_gain (Some 7) (mkVoteForm 1 2 "Skip")
              env_greedy db_steady judge_steady 1 2 app1)
    as (chosen & db' & H1 & _ & H3 & H4 & _); try reflexivity.
  exists chosen, db'. repeat split; assumption.
Defined.

Lemma vote_records_decision_witness :
  exists db',
    vote_s (Some 7) (mkVoteForm 1 2 "Current") env_greedy db_steady = Done db'
    /\ decisions db' = [Decision.mk 7 2 1].
Proof.
  destruct (vote_records_decision sample_TIMEOUT sample_MIN_VIEWS
              sample_EPSILON sample_update sample_gain (Some 7)
              (mkVoteForm 1 2 "Current") env_greedy db_steady judge_steady
              1 2 app1 app2 true 11 1 1 1 (-1) 1)
    as (chosen & db' & H1 & H2 & _); try reflexivity.
  - lia.
  - exists db'. split; [exact H1 | exact H2].
Defined.


Lemma preferred_respects_preferences_witness :
  Z.of_nat (List.length (Applicant.viewed app3)) < sample_MIN_VIEWS.
Proof.
  destruct (preferred_respects_preferences sample_TIMEOUT sample_MIN_VIEWS
              db_marked 1000000 judge_marked app3) as (_ & _ & H).
  - simpl. left. reflexivity.
  - apply H. exists app4. split; [simpl; right; left; reflexivity|].
    simpl. unfold sample_MIN_VIEWS. lia.
Defined.

Lemma choose_next_outcome_witness :
  In app3 (pool_s db_marked 1000000 judge_marked).
Proof.
  destruct (choose_next_outcome sample_TIMEOUT sample_MIN_VIEWS sample_EPSILON
              sample_gain 7 env_greedy db_marked judge_marked)
    as (_ & H & _).
  - reflexivity.
  - apply H. reflexivity.
Defined.

Lemma index_judging_page_witness :
  exists page db',
    index sample_TIMEOUT sample_MIN_VIEWS (Some tt) sync_found
          None env_greedy site_new
    = Done (page, Some 7, commit site_new db').
Proof.
  destruct (index_judging_page sample_TIMEOUT sample_MIN_VIEWS
              (Some tt) sync_found None (Some 7) env_greedy
              site_new site_new judge_new)
    as (page & db' & H & _); try reflexivity.
  exists page, db'. exact H.
Defined.

Lemma index_raises_only_in_sync_witness :
  index sample_TIMEOUT sample_MIN_VIEWS (Some tt) sync_fails
        (Some 7) env_greedy site_new
  = Raise TypeError.
Proof.
  apply (index_raises_only_in_sync sample_TIMEOUT sample_MIN_VIEWS
           (Some tt) sync_fails (Some 7) env_greedy site_new).
  exists tt. split; reflexivity.
Defined.

Lemma guarded_routes_noop_witness :
  vote_view sample_TIMEOUT sample_MIN_VIEWS sample_EPSILON sample_update
            sample_gain (Some 7) (mkVoteForm 1 2 "Current") env_greedy
            site_closed
  = Done (Redirect "index", site_closed).
Proof.
  apply (guarded_routes_noop sample_TIMEOUT sample_MIN_VIEWS sample_EPSILON
           sample_update sample_gain (Some 7) (mkVoteForm 1 2 "Current")
           (mkBeginForm 2 "Continue") "Continue" env_greedy site_closed).
  left. reflexivity.
Defined.

Lemma begin_edge_cases_witness :
  exists db' J',
    begin_s (Some 7) (mkBeginForm 1 "Later") env_greedy db_begin = Done db'
    /\ annotator_by_id db' (Some 7) = Some J'
    /\ Annotator.ignore J' = [1]
    /\ Annotator.next J' = Some 1.
Proof.
  destruct (begin_edge_cases sample_TIMEOUT sample_MIN_VIEWS sample_EPSILON
              sample_gain (Some 7) (mkBeginForm 1 "Later") env_greedy
              db_begin judge_begin) as (_ & _ & H).
  - reflexivity.
  - destruct (H 1) as (db' & J' & H1 & H2 & H3 & _); try reflexivity.
    exists db', J'. split; [exact H1|]. split; [exact H2|].
    rewrite H3. split; reflexivity.
Defined.

Lemma admin_skipped_spec_witness :
  dict_get (admin_skipped (admin_viewed [app1; app2_seen])
                          [judge_marked; judge_begin])
           (Applicant.id app1) 0%nat
  = 1%nat.
Proof.
  destruct (admin_skipped_spec [app1; app2_seen] [judge_marked; judge_begin])
    as [H _].
  - simpl. constructor; [simpl; lia|]. constructor; [simpl; lia|]. constructor.
  - rewrite (H app1); [reflexivity | simpl; left; reflexivity].
Defined.

Lemma prioritized_offered_first_witness :
  pool_s (on_applicant 2 (Applicant.with_prioritized true) db_new) 1000000
         judge_new <> [].
Proof.
  apply (prioritized_offered_first sample_TIMEOUT sample_MIN_VIEWS 2 db_new
           (on_applicant 2 (Applicant.with_prioritized true) db_new)
           app2 1000000 judge_new).
  - reflexivity.
  - reflexivity.
  - reflexivity.
  - simpl. lia.
Defined.

Lemma disabled_judge_witness :
  exists db',
    annotator_active_tx (Some 7) false db_steady = Done db'
    /\ applicants db' = applicants db_steady.
Proof.
  destruct (disabled_judge sample_TIMEOUT sample_MIN_VIEWS sample_EPSILON
              sample_update sample_gain (Some 7) db_steady judge_steady)
    as (db' & H1 & H2 & _).
  - reflexivity.
  - exists db'. split; assumption.
Defined.

Lemma applicant_detail_matches_tally_witness :
  exists skipped,
    applicant_detail 1 db_voted
    = ApplicantDetail (Applicant.mk 1 true [] false (-1) 1) [] skipped
    /\ List.length skipped
       = dict_get (admin_skipped (admin_viewed (applicants db_voted))
                                 (annotators db_voted)) 1 0%nat.
Proof.
  eexists. split; [reflexivity|].
  refine (proj1 (applicant_detail_matches_tally
                   db_voted 1 (Applicant.mk 1 true [] false (-1) 1) [] _
                   (applicants db_voted) (annotators db_voted) _ _ _ _ _)).
  - simpl. repeat constructor; simpl; intros C;
      repeat (destruct C as [C|C]; [discriminate|]); exact C.
  - intros a [<-|[]]. simpl. repeat constructor; simpl; intros C;
      repeat (destruct C as [C|C]; [discriminate|]); exact C.
  - apply Permutation_refl.
  - apply Permutation_refl.
  - reflexivity.
Defined.

Lemma sample_voted_viewed_ignored : viewed_ignored db_voted.
Proof.
  intros x j J [<-|[<-|[<-|[<-|[]]]]] Hj HJ; try (destruct Hj; fail).
  destruct Hj as [<-|[]]. cbn in HJ. injection HJ as <-.
  simpl. right. left. reflexivity.
Qed.

Lemma annotator_detail_partition_witness :
  In (Applicant.mk 2 true [7] false 1 1) [Applicant.mk 2 true [7] false 1 1]
  \/ In (Applicant.mk 2 true [7] false 1 1)
        [Applicant.mk 1 true [] false (-1) 1]
  <-> In 2 [1; 2].
Proof.
  refine (proj2 (proj2 (annotator_detail_partition
                          db_voted 7
                          (Annotator.mk 7 true (Some 3) (Some 1000000) (Some 2)
                                        [1; 2] 11 1)
                          [Applicant.mk 2 true [7] false 1 1]
                          [Applicant.mk 1 true [] false (-1) 1]
                          _ _ (Applicant.mk 2 true [7] false 1 1) _))).
  - exact sample_voted_viewed_ignored.
  - reflexivity.
  - simpl. right. left. reflexivity.
Defined.
